(** * File and folder handling (app.py): a model of [FileHandler]

    The development has three layers.

    - [pathlib]'s pure path arithmetic ([parent], [name], [stem], [suffix],
      the [/] operator) and the few pieces of Python needed around it
      (exceptions, [str.upper], [strftime]).
    - [FileHandler] itself, written against an interface [Library] that
      lists the calls app.py makes into [pathlib], [shutil] and [datetime].
      Every method is a computation that may change the world (the state of
      the library plus the log) and may, a priori, raise.
    - A reference implementation of that interface over a small POSIX-like
      file system, used for the properties that depend on what the library
      does and to run the methods on concrete file systems.

    Conventions: strings are ASCII; a path is the list of its components;
    a log message is a constructor carrying the values the message prints;
    the methods are written in a state-and-exception monad, [try_except]
    standing for [try: ... except Exception as e: ...]. *)

From Stdlib Require Import ZArith Lia Ascii String List Bool DecimalString.
From stdpp Require Import base decidable option strings list gmap.

Open Scope Z_scope.

(** ** Python values *)

(** The exceptions that can occur; all of them derive from [Exception], so
    an [except Exception] clause catches every one of them.  [OSError_]
    stands for an [OSError] that has no subclass of its own. *)
Inductive errno := EXDEV | ENOTEMPTY | EINVAL | ENOSPC.

Inductive exn :=
| FileNotFoundError
| FileExistsError
| NotADirectoryError
| IsADirectoryError
| PermissionError
| OSError_ (code : errno)
| SameFileError
| ShutilError
| IndexError
| ValueError
| RecursionError.

(** [isinstance(e, OSError)]: shutil.Error and SameFileError are subclasses
    of OSError. *)
Definition is_OSError (e : exn) : bool :=
  match e with
  | IndexError | ValueError | RecursionError => false
  | _ => true
  end.

(** The outcome of evaluating an expression: a value or a raised exception. *)
Inductive res (A : Type) :=
| Ok (a : A)
| Raise (e : exn).
Arguments Ok {A} a.
Arguments Raise {A} e.

(** ** Pure paths *)

(** A parsed path is the list of its components, the innermost one first:
    [Path("a/b/c.xlsx")] is [["c.xlsx"; "b"; "a"]], and [Path(".")] is [[]].
    With this orientation [parent] is the tail and [name] the head.  Paths
    are taken relative to one fixed directory; [".."] is not interpreted.
    A [str] path and the [Path] built from it are identified ([str] and
    [Path(...)] are inverse to each other on parsed paths). *)
Abbreviation path := (list string).

Module PurePath.

Definition parent (p : path) : path := tail p.

Definition name (p : path) : string :=
  match p with
  | [] => ""
  | c :: _ => c
  end.

(** [p / s] for a string [s] that holds a single component (no separator):
    empty and ["."] segments are dropped when the path is parsed. *)
Definition joinpath (p : path) (s : string) : path :=
  if decide (s = "" ∨ s = ".") then p else s :: p.

(** [Path(<components, outermost first>)]. *)
Definition of_parts (l : list string) : path :=
  foldl joinpath [] l.

(** [str(p)] *)
Definition to_str (p : path) : string :=
  match p with
  | [] => "."
  | _ => String.concat "/" (rev p)
  end.

(** [s.rfind(c)]: the index of the last occurrence, [None] for Python's -1. *)
Fixpoint rfind (c : ascii) (s : string) : option nat :=
  match s with
  | EmptyString => None
  | String a s' =>
      match rfind c s' with
      | Some i => Some (S i)
      | None => if Ascii.eqb a c then Some 0%nat else None
      end
  end.

(** [0 < i < len(name) - 1] with [i = name.rfind('.')]: where the name is
    to be split, if it is. *)
Definition split_point (nm : string) : option nat :=
  match rfind "."%char nm with
  | Some i =>
      if (0 <? i)%nat && (S i <? String.length nm)%nat then Some i else None
  | None => None
  end.

Definition suffix (p : path) : string :=
  let nm := name p in
  match split_point nm with
  | Some i => substring i (String.length nm - i) nm
  | None => ""
  end.

Definition stem (p : path) : string :=
  let nm := name p in
  match split_point nm with
  | Some i => substring 0 i nm
  | None => nm
  end.

(** [s.split(sep)] *)
Fixpoint split (sep : ascii) (s : string) : list string :=
  match s with
  | EmptyString => [EmptyString]
  | String c s' =>
      if Ascii.eqb c sep then EmptyString :: split sep s'
      else
        match split sep s' with
        | seg :: rest => String c seg :: rest
        | [] => [String c EmptyString]
        end
  end.

(** [Path(s)] *)
Definition of_str (s : string) : path := of_parts (split "/" s).

(** [p / s] for any string [s]: the segments of [s] are joined to [p] one
    after the other.  The directory paths are relative to is taken to be
    the root, so a string that starts with the separator starts afresh
    from there. *)
Definition joinstr (p : path) (s : string) : path :=
  if String.prefix "/" s then of_str s else foldl joinpath p (split "/" s).

End PurePath.

Infix "</>" := PurePath.joinpath (at level 40, left associativity).

(** ** Strings *)

(** [c.upper()] for an ASCII character [c]: the letters a-z are shifted,
    every other ASCII character is returned unchanged.  A string is the
    bytes of a name; the characters outside ASCII, which take several bytes
    and which Python upper-cases by the Unicode tables, are not modelled,
    and what is proved of the result is proved of ASCII characters. *)
Definition upper_char (c : ascii) : ascii :=
  let n := nat_of_ascii c in
  if (97 <=? n)%nat && (n <=? 122)%nat then ascii_of_nat (n - 32) else c.

Fixpoint upper (s : string) : string :=
  match s with
  | EmptyString => EmptyString
  | String c s' => String (upper_char c) (upper s')
  end.

(** [s[0]], for a string that starts with an ASCII character (one byte). *)
Definition index0 (s : string) : res string :=
  match s with
  | EmptyString => Raise IndexError
  | String c _ => Ok (String c EmptyString)
  end.

(** ** Dates *)

Record datetime := {
  year : Z; month : Z; day : Z;
  hour : Z; minute : Z; second : Z
}.

(** The decimal digit of the units of [n]. *)
Definition digit (n : Z) : ascii := ascii_of_nat (48 + Z.to_nat (n mod 10)).

(** [%02d] and [%04d] for the fields of a [datetime], which stay within
    their ranges (the year within 1..9999), so that two and four digits are
    all there is to print. *)
Definition digits2 (n : Z) : string :=
  String (digit (n / 10)) (String (digit n) "").

Definition digits4 (n : Z) : string :=
  String (digit (n / 1000)) (String (digit (n / 100)) (digits2 n)).

(** [strftime("%Y%m%d_%H%M%S")] *)
Definition strftime_stamp (d : datetime) : string :=
  digits4 (year d) +:+ digits2 (month d) +:+ digits2 (day d) +:+ "_" +:+
  digits2 (hour d) +:+ digits2 (minute d) +:+ digits2 (second d).

(** [strftime("%Y-%m")] *)
Definition strftime_month (d : datetime) : string :=
  digits4 (year d) +:+ "-" +:+ digits2 (month d).

(** ** The library interface *)

(** What [Path.stat()] returns, as far as app.py reads it.  [st_mtime] is in
    whole seconds since the epoch, [st_size] in bytes. *)
Record stat_result := { st_size : Z; st_mtime : Z }.

(** The calls app.py makes into [pathlib], [shutil] and [datetime], over a
    library state [S] (the file system, the clock).  Each call returns a
    value or raises, and leaves a new state either way. *)
Class Library (S : Type) := {
  (** [Path(p).mkdir(parents=True, exist_ok=True)] *)
  path_mkdir : path → S → res unit * S;
  (** [shutil.copy2(src, dst)] *)
  shutil_copy2 : path → path → S → res unit * S;
  (** [shutil.move(src, dst)] *)
  shutil_move : path → path → S → res unit * S;
  (** [shutil.copytree(src, dst, dirs_exist_ok=True)] *)
  shutil_copytree : path → path → S → res unit * S;
  (** [shutil.rmtree(p)] *)
  shutil_rmtree : path → S → res unit * S;
  (** [Path(p).unlink()] *)
  path_unlink : path → S → res unit * S;
  (** [list(Path(p).glob(pattern))] *)
  path_glob : path → string → S → res (list path) * S;
  (** [list(Path(p).iterdir())] *)
  path_iterdir : path → S → res (list path) * S;
  (** [Path(p).is_file()] *)
  path_is_file : path → S → res bool * S;
  (** [Path(p).stat()] *)
  path_stat : path → S → res stat_result * S;
  (** [datetime.now()], which returns *)
  datetime_now : S → datetime * S;
  (** [datetime.fromtimestamp(t)] *)
  datetime_fromtimestamp : Z → S → res datetime * S
}.

(** ** The log *)

(** One constructor per message of app.py, with the values its f-string
    interpolates. *)
Inductive event :=
| FolderCreated (folder_path : path)
| ErrCreatingFolder (folder_path : path) (e : exn)
| FileCopied (source_path destination_path : path)
| ErrCopyingFile (source_path destination_path : path) (e : exn)
| FileMoved (source_path destination_path : path)
| ErrMovingFile (source_path destination_path : path) (e : exn)
| FolderCopied (source_folder destination_folder : path)
| ErrCopyingFolder (source_folder destination_folder : path) (e : exn)
| FolderMoved (source_folder destination_folder : path)
| ErrMovingFolder (source_folder destination_folder : path) (e : exn)
| FoundFiles (count : nat) (folder_path : path)
| ErrListingFiles (folder_path : path) (e : exn)
| FileDeleted (file_path : path)
| ErrDeletingFile (file_path : path) (e : exn)
| FolderDeleted (folder_path : path)
| ErrDeletingFolder (folder_path : path) (e : exn)
| ErrCreatingBackup (excel_path : path) (e : exn)
| ErrOrganizing (e : exn).

Inductive level := INFO | ERROR.

(** [logger.info] or [logger.error]: which call emits the message. *)
Definition level_of (ev : event) : level :=
  match ev with
  | FolderCreated _ | FileCopied _ _ | FileMoved _ _ | FolderCopied _ _
  | FolderMoved _ _ | FoundFiles _ _ | FileDeleted _ | FolderDeleted _ => INFO
  | _ => ERROR
  end.

(** ** FileHandler *)

Record FileHandler := { base_folder : path }.

Section App.
Context {S : Type} `{!Library S}.

(** The world a method runs in: the library state and the messages logged
    so far, oldest first. *)
Record world := World { os : S; log : list event }.

Definition M (A : Type) : Type := world → res A * world.

#[export] Instance M_ret : MRet M := λ A a w, (Ok a, w).
#[export] Instance M_bind : MBind M := λ A B f m w,
  match m w with
  | (Ok a, w') => f a w'
  | (Raise e, w') => (Raise e, w')
  end.

(** A library call, run on the library state of the world. *)
Definition call {A} (f : S → res A * S) : M A := λ w,
  let '(r, s) := f (os w) in (r, World s (log w)).

(** An expression that touches no state. *)
Definition pure_res {A} (r : res A) : M A := λ w, (r, w).

Definition logger (ev : event) : M unit := λ w,
  (Ok tt, World (os w) (log w ++ [ev])).

(** [try: body  except Exception as e: handler(e)] *)
Definition try_except {A} (body : M A) (handler : exn → M A) : M A := λ w,
  match body w with
  | (Ok a, w') => (Ok a, w')
  | (Raise e, w') => handler e w'
  end.

(** [for x in l: body(x)] *)
Fixpoint for_each {A} (l : list A) (body : A → M unit) : M unit :=
  match l with
  | [] => mret tt
  | x :: l' => body x;; for_each l' body
  end.

(** [[x for x in l if cond(x)]] *)
Fixpoint comprehension_if {A} (l : list A) (cond : A → M bool) : M (list A) :=
  match l with
  | [] => mret []
  | x :: l' =>
      b ← cond x;
      rest ← comprehension_if l' cond;
      mret (if (b : bool) then x :: rest else rest)
  end.

Definition create_folder (folder_path : path) : M bool :=
  try_except
    (call (path_mkdir folder_path);;
     logger (FolderCreated folder_path);;
     mret true)
    (λ e,
      logger (ErrCreatingFolder folder_path e);;
      mret false).

Definition init (base : path) : M FileHandler :=
  create_folder base;;
  mret {| base_folder := base |}.

Definition copy_file (source_path destination_path : path) : M bool :=
  try_except
    (let dest_dir := PurePath.parent destination_path in
     create_folder dest_dir;;
     call (shutil_copy2 source_path destination_path);;
     logger (FileCopied source_path destination_path);;
     mret true)
    (λ e,
      logger (ErrCopyingFile source_path destination_path e);;
      mret false).

Definition move_file (source_path destination_path : path) : M bool :=
  try_except
    (let dest_dir := PurePath.parent destination_path in
     create_folder dest_dir;;
     call (shutil_move source_path destination_path);;
     logger (FileMoved source_path destination_path);;
     mret true)
    (λ e,
      logger (ErrMovingFile source_path destination_path e);;
      mret false).

Definition copy_folder (source_folder destination_folder : path) : M bool :=
  try_except
    (call (shutil_copytree source_folder destination_folder);;
     logger (FolderCopied source_folder destination_folder);;
     mret true)
    (λ e,
      logger (ErrCopyingFolder source_folder destination_folder e);;
      mret false).


(** [extension] is [None] for Python's [None]; [if extension:] is also
    false for the empty string. *)
Definition list_files (folder_path : path) (extension : option string)
    : M (list path) :=
  try_except
    (let folder := folder_path in
     files ←
       match extension with
       | Some (String c ext) =>
           call (path_glob folder ("*" +:+ String c ext))
       | _ =>
           entries ← call (path_iterdir folder);
           comprehension_if entries (λ f, call (path_is_file f))
       end;
     let file_paths := files in
     logger (FoundFiles (length file_paths) folder_path);;
     mret file_paths)
    (λ e,
      logger (ErrListingFiles folder_path e);;
      mret []).

Definition delete_file (file_path : path) : M bool :=
  try_except
    (call (path_unlink file_path);;
     logger (FileDeleted file_path);;
     mret true)
    (λ e,
      logger (ErrDeletingFile file_path e);;
      mret false).

Definition delete_folder (folder_path : path) : M bool :=
  try_except
    (call (shutil_rmtree folder_path);;
     logger (FolderDeleted folder_path);;
     mret true)
    (λ e,
      logger (ErrDeletingFolder folder_path e);;
      mret false).

Definition backup_excel_file (self : FileHandler) (excel_path : path)
    (backup_folder : option path) : M string :=
  try_except
    (let excel_file := excel_path in
     now ← call (λ s, let '(d, s') := datetime_now s in (Ok d, s'));
     let timestamp := strftime_stamp now in
     let backup_folder :=
       match backup_folder with
       | None => base_folder self </> "backups"
       | Some b => b
       end in
     create_folder backup_folder;;
     let backup_name :=
       PurePath.stem excel_file +:+ "_backup_" +:+ timestamp
         +:+ PurePath.suffix excel_file in
     let backup_path := backup_folder </> backup_name in
     copy_file excel_path backup_path;;
     mret (PurePath.to_str backup_path))
    (λ e,
      logger (ErrCreatingBackup excel_path e);;
      mret "").

(** Lines 264-269: the bucket of a size in bytes. *)
Definition size_folder (size : Z) : string :=
  if size <? 1024 * 1024 then "small"
  else if size <? 10 * 1024 * 1024 then "medium"
  else "large".

(** Lines 254-274: the destination folder of one file.  This is the part
    of the loop body that runs outside of any method of its own. *)
Definition dest_folder (source_folder : path) (organize_by : string)
    (file_obj : path) : M path :=
  if decide (organize_by = "date") then
    st ← call (path_stat file_obj);
    let mod_time := st_mtime st in
    d ← call (datetime_fromtimestamp mod_time);
    let date_folder := strftime_month d in
    mret (source_folder </> "organized_by_date" </> date_folder)
  else if decide (organize_by = "size") then
    st ← call (path_stat file_obj);
    let size := st_size st in
    mret (source_folder </> "organized_by_size" </> size_folder size)
  else
    c ← pure_res (index0 (PurePath.stem file_obj));
    let first_letter := upper c in
    mret (source_folder </> "organized_by_name" </> first_letter).

(** Lines 252-278: the body of the loop. *)
Definition organize_one (source_folder : path) (organize_by : string)
    (file_path : path) : M unit :=
  let file_obj := file_path in
  dest_folder ← dest_folder source_folder organize_by file_obj;
  create_folder dest_folder;;
  let dest_path := dest_folder </> PurePath.name file_obj in
  move_file file_path dest_path;;
  mret tt.

Definition organize_excel_files (source_folder : path) (organize_by : string)
    : M bool :=
  try_except
    (excel_files ← list_files source_folder (Some ".xlsx");
     more ← list_files source_folder (Some ".xls");
     let excel_files := excel_files ++ more in
     for_each excel_files (organize_one source_folder organize_by);;
     mret true)
    (λ e,
      logger (ErrOrganizing e);;
      mret false).

(** Lines 53-58: the loop, with the variable [success]. *)
Fixpoint create_project_loop (self : FileHandler) (folders : list string)
    (success : bool) : M bool :=
  match folders with
  | [] => mret success
  | folder :: folders' =>
      let folder_path := PurePath.joinstr (base_folder self) folder in
      ok ← create_folder folder_path;
      create_project_loop self folders' (if (ok : bool) then success else false)
  end.

Definition create_project_structure (self : FileHandler) (folders : list string)
    : M bool :=
  create_project_loop self folders true.

(** [str(n)] *)
Definition str_of_nat (n : nat) : string :=
  NilZero.string_of_uint (Nat.to_uint n).

Definition project_folders : list string :=
  ["data/raw"; "data/processed"; "data/backup"; "reports"; "templates"; "logs"].

(** [main()]; the value returned is what it prints, line by line. *)
Definition main : M (list string) :=
  handler ← init (PurePath.of_str "excel_project");
  let out := ["Creating project structure..."] in
  create_project_structure handler project_folders;;
  let out := out ++ [String (ascii_of_nat 10) "Example operations:"] in
  files ← list_files (PurePath.of_str ".") (Some ".py");
  let out := out ++ ["Python files in current directory: "
                       +:+ str_of_nat (length files)] in
  mret (out ++ ["File handler operations completed!"]).

End App.

(** ** A reference library over a POSIX-like file system *)

Module Posix.

Record mode := { m_r : bool; m_w : bool; m_x : bool }.

Record inode := { i_mode : mode; i_size : Z; i_mtime : Z }.

(** A regular file with an identifier of its content, or a directory with
    the device its entries live on.  There are no links and no special
    files.  The time of a directory is the time it was made: that making
    or removing an entry inside it changes it is not modelled.  Where a
    call makes or removes entries, what is proved of the other entries
    is proved of regular files, and of directories only that they stay
    directories. *)
Inductive node :=
| File (i : inode) (data : N)
| Dir (i : inode) (dev : N).

(** The file system maps the paths that exist to their nodes; the clock is
    in seconds since the epoch, local time is the clock shifted by
    [tz_offset] seconds, and [nospace] tells the devices that are full. *)
Record state := State {
  fs : gmap path node;
  clock : Z;
  tz_offset : Z;
  nospace : N → bool
}.

Definition set_fs (s : state) (m : gmap path node) : state :=
  State m (clock s) (tz_offset s) (nospace s).

Definition rwx : mode := {| m_r := true; m_w := true; m_x := true |}.
Definition rw_ : mode := {| m_r := true; m_w := true; m_x := false |}.

(** *** System calls *)

(** Path resolution: every proper ancestor of [p] has to be a directory
    that may be searched.  Paths go down only: a component [..] is looked
    up as a name, not resolved to the parent. *)
Fixpoint reach (m : gmap path node) (p : path) : res unit :=
  match p with
  | [] => Ok tt
  | _ :: par =>
      match reach m par with
      | Raise e => Raise e
      | Ok _ =>
          match m !! par with
          | None => Raise FileNotFoundError
          | Some (File _ _) => Raise NotADirectoryError
          | Some (Dir i _) =>
              if m_x (i_mode i) then Ok tt else Raise PermissionError
          end
      end
  end.

Definition os_stat (m : gmap path node) (p : path) : res node :=
  match reach m p with
  | Raise e => Raise e
  | Ok _ =>
      match m !! p with
      | None => Raise FileNotFoundError
      | Some n => Ok n
      end
  end.

(** The directory an entry [p] is to be added to or removed from: it has
    to be writable; the result is its device. *)
Definition parent_for_update (m : gmap path node) (p : path) : res N :=
  match p with
  | [] => Raise FileNotFoundError
  | _ :: par =>
      match m !! par with
      | None => Raise FileNotFoundError
      | Some (File _ _) => Raise NotADirectoryError
      | Some (Dir i dev) =>
          if m_w (i_mode i) then Ok dev else Raise PermissionError
      end
  end.

Definition os_mkdir (p : path) (s : state) : res state :=
  match reach (fs s) p with
  | Raise e => Raise e
  | Ok _ =>
      match fs s !! p with
      | Some _ => Raise FileExistsError
      | None =>
          match parent_for_update (fs s) p with
          | Raise e => Raise e
          | Ok dev =>
              let i := {| i_mode := rwx; i_size := 4096; i_mtime := clock s |} in
              Ok (set_fs s (<[p := Dir i dev]> (fs s)))
          end
      end
  end.

Definition os_unlink (p : path) (s : state) : res state :=
  match os_stat (fs s) p with
  | Raise e => Raise e
  | Ok (Dir _ _) => Raise IsADirectoryError
  | Ok (File _ _) =>
      match parent_for_update (fs s) p with
      | Raise e => Raise e
      | Ok _ => Ok (set_fs s (delete p (fs s)))
      end
  end.

(** The entries directly inside [p], in the order of the map. *)
Definition children (m : gmap path node) (p : path) : list path :=
  filter (λ k, k ≠ [] ∧ tail k = p) (fst <$> map_to_list m).

Definition os_rmdir (p : path) (s : state) : res state :=
  match os_stat (fs s) p with
  | Raise e => Raise e
  | Ok (File _ _) => Raise NotADirectoryError
  | Ok (Dir _ _) =>
      match children (fs s) p with
      | _ :: _ => Raise (OSError_ ENOTEMPTY)
      | [] =>
          match parent_for_update (fs s) p with
          | Raise e => Raise e
          | Ok _ => Ok (set_fs s (delete p (fs s)))
          end
      end
  end.

(** [k] with its ending [src] replaced by [dst], when [k] lies in the tree
    under [src]. *)
Definition rekey (src dst k : path) : path :=
  if decide (src `suffix_of` k)
  then take (length k - length src) k ++ dst
  else k.

Definition os_rename (src dst : path) (s : state) : res state :=
  match reach (fs s) src, reach (fs s) dst with
  | Raise e, _ | Ok _, Raise e => Raise e
  | Ok _, Ok _ =>
      match fs s !! src with
      | None => Raise FileNotFoundError
      | Some n =>
          if decide (src = dst) then Ok s else
          match parent_for_update (fs s) src,
                parent_for_update (fs s) dst with
          | Raise e, _ | Ok _, Raise e => Raise e
          | Ok dev1, Ok dev2 =>
              if negb (dev1 =? dev2)%N then Raise (OSError_ EXDEV) else
              match n, fs s !! dst with
              | File _ _, Some (Dir _ _) => Raise IsADirectoryError
              | File _ _, _ =>
                  Ok (set_fs s (<[dst := n]> (delete src (fs s))))
              | Dir _ _, Some (File _ _) => Raise NotADirectoryError
              | Dir _ _, _ =>
                  if decide (src `suffix_of` dst) then Raise (OSError_ EINVAL)
                  else
                    match children (fs s) dst with
                    | _ :: _ => Raise (OSError_ ENOTEMPTY)
                    | [] =>
                        Ok (set_fs s (kmap (rekey src dst) (delete dst (fs s))))
                    end
              end
          end
      end
  end.

Definition os_scandir (m : gmap path node) (p : path) : res (list path) :=
  match os_stat m p with
  | Raise e => Raise e
  | Ok (File _ _) => Raise NotADirectoryError
  | Ok (Dir i _) =>
      if m_r (i_mode i) then Ok (children m p) else Raise PermissionError
  end.

(** [os.path.isdir] and [os.path.exists] answer [False] on any error. *)
Definition os_path_isdir (m : gmap path node) (p : path) : bool :=
  match os_stat m p with
  | Ok (Dir _ _) => true
  | _ => false
  end.

Definition os_path_exists (m : gmap path node) (p : path) : bool :=
  match os_stat m p with
  | Ok _ => true
  | _ => false
  end.

(** [open(src, 'rb')] and reading the whole file. *)
Definition read_file (m : gmap path node) (src : path) : res (inode * N) :=
  match os_stat m src with
  | Raise e => Raise e
  | Ok (Dir _ _) => Raise IsADirectoryError
  | Ok (File i data) =>
      if m_r (i_mode i) then Ok (i, data) else Raise PermissionError
  end.

(** [open(dst, 'wb')]: the file is created, or emptied if it exists. *)
Definition open_write (dst : path) (s : state) : res state :=
  match reach (fs s) dst with
  | Raise e => Raise e
  | Ok _ =>
      match fs s !! dst with
      | Some (Dir _ _) => Raise IsADirectoryError
      | Some (File i _) =>
          if m_w (i_mode i)
          then
            let i' := {| i_mode := i_mode i; i_size := 0; i_mtime := clock s |} in
            Ok (set_fs s (<[dst := File i' 0%N]> (fs s)))
          else Raise PermissionError
      | None =>
          match parent_for_update (fs s) dst with
          | Raise e => Raise e
          | Ok _ =>
              let i' := {| i_mode := rw_; i_size := 0; i_mtime := clock s |} in
              Ok (set_fs s (<[dst := File i' 0%N]> (fs s)))
          end
      end
  end.

(** The device of the directory that holds [p]. *)
Definition dev_of (m : gmap path node) (p : path) : N :=
  match m !! tail p with
  | Some (Dir _ dev) => dev
  | _ => 0%N
  end.

(** *** pathlib *)

(** [_ignore_error]: the errors [is_dir] and [is_file] turn into [False]
    (ENOENT and ENOTDIR among those that can occur here); any other error
    is raised to the caller. *)
Definition ignore_error (e : exn) : bool :=
  match e with
  | FileNotFoundError | NotADirectoryError => true
  | _ => false
  end.

Definition is_dir (p : path) (s : state) : res bool :=
  match os_stat (fs s) p with
  | Ok (Dir _ _) => Ok true
  | Ok (File _ _) => Ok false
  | Raise e => if ignore_error e then Ok false else Raise e
  end.

Definition is_file (p : path) (s : state) : res bool :=
  match os_stat (fs s) p with
  | Ok (File _ _) => Ok true
  | Ok (Dir _ _) => Ok false
  | Raise e => if ignore_error e then Ok false else Raise e
  end.

(** The [except OSError] clause of [Path.mkdir] with [exist_ok=True]:
    [if not self.is_dir(): raise]. *)
Definition unless_is_dir (e : exn) (p : path) (s : state) : res unit * state :=
  match is_dir p s with
  | Ok true => (Ok tt, s)
  | Ok false => (Raise e, s)
  | Raise e' => (Raise e', s)
  end.

(** [Path(p).mkdir(parents=False, exist_ok=True)] *)
Definition mkdir_exist_ok (p : path) (s : state) : res unit * state :=
  match os_mkdir p s with
  | Ok s' => (Ok tt, s')
  | Raise FileNotFoundError => (Raise FileNotFoundError, s)
  | Raise e => unless_is_dir e p s
  end.

(** [Path(p).mkdir(parents=True, exist_ok=True)] *)
Fixpoint mkdir (p : path) (s : state) : res unit * state :=
  match os_mkdir p s with
  | Ok s' => (Ok tt, s')
  | Raise FileNotFoundError =>
      match p with
      | [] => (Raise FileNotFoundError, s)
      | _ :: par =>
          match mkdir par s with
          | (Raise e, s1) => (Raise e, s1)
          | (Ok _, s1) => mkdir_exist_ok p s1
          end
      end
  | Raise e => unless_is_dir e p s
  end.

(** [fnmatch] for patterns made of [*], [?] and literal characters
    (character classes are not modelled), case-sensitive. *)
Fixpoint fnmatch (pat : string) : string → bool :=
  match pat with
  | EmptyString => λ nm,
      match nm with
      | EmptyString => true
      | _ => false
      end
  | String c pat' =>
      if Ascii.eqb c "*" then
        fix star (nm : string) : bool :=
          fnmatch pat' nm ||
          match nm with
          | EmptyString => false
          | String _ nm' => star nm'
          end
      else if Ascii.eqb c "?" then λ nm,
        match nm with
        | EmptyString => false
        | String _ nm' => fnmatch pat' nm'
        end
      else λ nm,
        match nm with
        | EmptyString => false
        | String a nm' => Ascii.eqb a c && fnmatch pat' nm'
        end
  end.

(** [list(Path(p).glob(pattern))] for a pattern of one wildcard component
    (no separator in it, and no [**]): nothing is selected unless [p] is
    a directory, an error from scanning it yields nothing, and the
    entries are selected by name alone. *)
Definition glob (p : path) (pattern : string) (s : state) : res (list path) :=
  match is_dir p s with
  | Raise e => Raise e
  | Ok false => Ok []
  | Ok true =>
      match os_scandir (fs s) p with
      | Raise _ => Ok []
      | Ok entries =>
          Ok (filter (λ k, fnmatch pattern (PurePath.name k) = true) entries)
      end
  end.

Definition stat (p : path) (s : state) : res stat_result :=
  match os_stat (fs s) p with
  | Raise e => Raise e
  | Ok (File i _ | Dir i _) =>
      Ok {| st_size := i_size i; st_mtime := i_mtime i |}
  end.

(** *** shutil *)

Definition copyfile (src dst : path) (s : state) : res unit * state :=
  if decide (src = dst) then (Raise SameFileError, s) else
  match read_file (fs s) src with
  | Raise e => (Raise e, s)
  | Ok (i, data) =>
      match open_write dst s with
      | Raise IsADirectoryError =>
          if os_path_exists (fs s) dst then (Raise IsADirectoryError, s)
          else (Raise FileNotFoundError, s)
      | Raise e => (Raise e, s)
      | Ok s1 =>
          if nospace s (dev_of (fs s) dst) && (0 <? i_size i)
          then (Raise (OSError_ ENOSPC), s1)
          else
            match fs s1 !! dst with
            | Some (File i0 _) =>
                let i' := {| i_mode := i_mode i0; i_size := i_size i;
                             i_mtime := i_mtime i0 |} in
                (Ok tt, set_fs s1 (<[dst := File i' data]> (fs s1)))
            | _ => (Ok tt, s1)
            end
      end
  end.

(** [copystat]: the permission bits and the modification time of [src]
    are given to [dst]. *)
Definition copystat (src dst : path) (s : state) : res unit * state :=
  match os_stat (fs s) src with
  | Raise e => (Raise e, s)
  | Ok (File i _ | Dir i _) =>
      match os_stat (fs s) dst with
      | Raise e => (Raise e, s)
      | Ok (File i0 data) =>
          let i' := {| i_mode := i_mode i; i_size := i_size i0;
                       i_mtime := i_mtime i |} in
          (Ok tt, set_fs s (<[dst := File i' data]> (fs s)))
      | Ok (Dir i0 dev) =>
          let i' := {| i_mode := i_mode i; i_size := i_size i0;
                       i_mtime := i_mtime i |} in
          (Ok tt, set_fs s (<[dst := Dir i' dev]> (fs s)))
      end
  end.

Definition copy2 (src dst : path) (s : state) : res unit * state :=
  let dst :=
    if os_path_isdir (fs s) dst then dst </> PurePath.name src else dst in
  match copyfile src dst s with
  | (Raise e, s1) => (Raise e, s1)
  | (Ok _, s1) => copystat src dst s1
  end.

(** [os.makedirs(p, exist_ok=exist_ok)] *)
Fixpoint makedirs (exist_ok : bool) (p : path) (s : state) : res unit * state :=
  let '(r, s1) :=
    match p with
    | _ :: ((_ :: _) as head) =>
        if os_path_exists (fs s) head then (Ok tt, s)
        else
          match makedirs exist_ok head s with
          | (Raise FileExistsError, s') => (Ok tt, s')
          | r => r
          end
    | _ => (Ok tt, s)
    end in
  match r with
  | Raise e => (Raise e, s1)
  | Ok _ =>
      match os_mkdir p s1 with
      | Ok s2 => (Ok tt, s2)
      | Raise e =>
          if exist_ok && os_path_isdir (fs s1) p then (Ok tt, s1)
          else (Raise e, s1)
      end
  end.

(** [shutil.copytree]: the errors of the entries are collected and
    reported at the end, after everything that could be copied has been.
    [fuel] bounds the depth of the recursion, as the interpreter's
    recursion limit does. *)
Fixpoint copytree_rec (fuel : nat) (dirs_exist_ok : bool) (src dst : path)
    (s : state) : res unit * state :=
  match fuel with
  | O => (Raise RecursionError, s)
  | Datatypes.S fuel' =>
      match os_scandir (fs s) src with
      | Raise e => (Raise e, s)
      | Ok entries =>
          match makedirs dirs_exist_ok dst s with
          | (Raise e, s1) => (Raise e, s1)
          | (Ok _, s1) =>
              let loop :=
                fix loop (entries : list path) (errors : bool) (st : state)
                    : res bool * state :=
                  match entries with
                  | [] => (Ok errors, st)
                  | srcobj :: entries' =>
                      let dstname := dst </> PurePath.name srcobj in
                      let '(r, st') :=
                        if os_path_isdir (fs st) srcobj
                        then copytree_rec fuel' dirs_exist_ok srcobj dstname st
                        else copy2 srcobj dstname st in
                      match r with
                      | Ok _ => loop entries' errors st'
                      | Raise e =>
                          if is_OSError e then loop entries' true st'
                          else (Raise e, st')
                      end
                  end in
              match loop entries false s1 with
              | (Raise e, s2) => (Raise e, s2)
              | (Ok errors, s2) =>
                  match copystat src dst s2 with
                  | (Ok _, s3) =>
                      if errors then (Raise ShutilError, s3) else (Ok tt, s3)
                  | (Raise _, s3) => (Raise ShutilError, s3)
                  end
              end
          end
      end
  end.

Definition copytree (dirs_exist_ok : bool) (src dst : path) (s : state)
    : res unit * state :=
  copytree_rec (Datatypes.S (size (fs s))) dirs_exist_ok src dst s.

Definition lift (f : state → res state) (s : state) : res unit * state :=
  match f s with
  | Ok s' => (Ok tt, s')
  | Raise e => (Raise e, s)
  end.

(** [shutil.rmtree]: the first error is raised, whatever has been removed
    by then stays removed. *)
Fixpoint rmtree_rec (fuel : nat) (p : path) (s : state) : res unit * state :=
  match fuel with
  | O => (Raise RecursionError, s)
  | Datatypes.S fuel' =>
      match os_scandir (fs s) p with
      | Raise e => (Raise e, s)
      | Ok entries =>
          let loop :=
            fix loop (entries : list path) (st : state) : res unit * state :=
              match entries with
              | [] => (Ok tt, st)
              | k :: entries' =>
                  let '(r, st') :=
                    if os_path_isdir (fs st) k then rmtree_rec fuel' k st
                    else lift (os_unlink k) st in
                  match r with
                  | Ok _ => loop entries' st'
                  | Raise e => (Raise e, st')
                  end
              end in
          match loop entries s with
          | (Raise e, s1) => (Raise e, s1)
          | (Ok _, s1) => lift (os_rmdir p) s1
          end
      end
  end.

Definition rmtree (p : path) (s : state) : res unit * state :=
  rmtree_rec (Datatypes.S (size (fs s))) p s.

(** [shutil.move(src, dst)] *)
Definition move (src dst : path) (s : state) : res unit * state :=
  let relocate (real_dst : path) : res unit * state :=
    match os_rename src real_dst s with
    | Ok s' => (Ok tt, s')
    | Raise _ =>
        if os_path_isdir (fs s) src then
          if decide (src `suffix_of` dst) then (Raise ShutilError, s)
          else
            match copytree false src real_dst s with
            | (Raise e, s1) => (Raise e, s1)
            | (Ok _, s1) => rmtree src s1
            end
        else
          match copy2 src real_dst s with
          | (Raise e, s1) => (Raise e, s1)
          | (Ok _, s1) => lift (os_unlink src) s1
          end
    end in
  if os_path_isdir (fs s) dst then
    if decide (src = dst) then lift (os_rename src dst) s
    else
      let real_dst := dst </> PurePath.name src in
      if os_path_exists (fs s) real_dst then (Raise ShutilError, s)
      else relocate real_dst
  else relocate dst.

(** *** datetime *)

(** The civil date of a day number counted from 1970-01-01. *)
Definition civil_from_days (z : Z) : Z * Z * Z :=
  let z := z + 719468 in
  let era := z / 146097 in
  let doe := z - era * 146097 in
  let yoe := (doe - doe / 1460 + doe / 36524 - doe / 146096) / 365 in
  let y := yoe + era * 400 in
  let doy := doe - (365 * yoe + yoe / 4 - yoe / 100) in
  let mp := (5 * doy + 2) / 153 in
  let d := doy - (153 * mp + 2) / 5 + 1 in
  let m := if mp <? 10 then mp + 3 else mp - 9 in
  (if m <=? 2 then y + 1 else y, m, d).

Definition localtime (s : state) (t : Z) : datetime :=
  let t := t + tz_offset s in
  let '(y, m, d) := civil_from_days (t / 86400) in
  let sod := t mod 86400 in
  {| year := y; month := m; day := d;
     hour := sod / 3600; minute := sod mod 3600 / 60; second := sod mod 60 |}.

Definition fromtimestamp (t : Z) (s : state) : res datetime :=
  let d := localtime s t in
  if (1 <=? year d) && (year d <=? 9999) then Ok d else Raise ValueError.

Definition pure {A} (f : state → res A) (s : state) : res A * state :=
  (f s, s).

#[export] Instance library : Library state := {|
  path_mkdir := mkdir;
  shutil_copy2 := copy2;
  shutil_move := move;
  shutil_copytree := copytree true;
  shutil_rmtree := rmtree;
  path_unlink p := lift (os_unlink p);
  path_glob p pattern := pure (glob p pattern);
  path_iterdir p := pure (λ s, os_scandir (fs s) p);
  path_is_file p := pure (is_file p);
  path_stat p := pure (stat p);
  datetime_now s := (localtime s (clock s), s);
  datetime_fromtimestamp t := pure (fromtimestamp t)
|}.

End Posix.

#[global] Existing Instance Posix.library.

(** ** Sample file systems *)

Module Sample.
Import Posix.

Definition P : list string → path := PurePath.of_parts.

Definition r__ : mode := {| m_r := true; m_w := false; m_x := false |}.

(** A directory last changed on 2024-01-01 10:00:00. *)
Definition directory (m : mode) : node :=
  Dir {| i_mode := m; i_size := 4096; i_mtime := 1704103200 |} 0%N.

Definition regular (size mtime : Z) (data : N) : node :=
  File {| i_mode := rw_; i_size := size; i_mtime := mtime |} data.

(** A world with the given entries, an empty log, no full device, local
    time equal to UTC, on 2024-03-15 at 10:00:00. *)
Definition world_of (entries : list (path * node)) : @world state :=
  World (State (list_to_map entries) 1710496800 0 (λ _, false)) [].

Definition proj : path := P ["proj"].

(** [proj/] with a.xlsx (2 KB), b.xls (20 MB), notes.txt, and a folder
    named archive.xlsx. *)
Definition entries : list (path * node) :=
  [ ([], directory rwx);
    (proj, directory rwx);
    (P ["proj"; "a.xlsx"], regular 2048 1704103200 11%N);
    (P ["proj"; "b.xls"], regular 20971520 1717236000 12%N);
    (P ["proj"; "notes.txt"], regular 10 1704103200 13%N);
    (P ["proj"; "archive.xlsx"], directory rwx) ].

Definition project : @world state := world_of entries.

(** The same, where [proj/organized_by_size] exists and holds a regular
    file named [small]. *)
Definition blocked : @world state :=
  world_of (entries ++
    [ (P ["proj"; "organized_by_size"], directory rwx);
      (P ["proj"; "organized_by_size"; "small"], regular 1 1704103200 14%N) ]).

(** The same as [project], where [proj/organized_by_size] is a regular
    file. *)
Definition walled : @world state :=
  world_of (entries ++
    [ (P ["proj"; "organized_by_size"], regular 1 1704103200 14%N) ]).

(** [proj/] may be listed but not searched. *)
Definition unsearchable : @world state :=
  world_of
    [ ([], directory rwx);
      (proj, directory r__);
      (P ["proj"; "a.xlsx"], regular 2048 1704103200 11%N) ].

(** [proj/backups] is a regular file. *)
Definition no_backups : @world state :=
  world_of (entries ++ [ (P ["proj"; "backups"], regular 1 1704103200 14%N) ]).

Definition handler : FileHandler := {| base_folder := proj |}.

End Sample.

(** ** Properties *)

Section Trace.
Context {S : Type} `{!Library S}.

(** The file a log message reports a move attempt of, if it reports one. *)
Definition move_attempt (ev : event) : option path :=
  match ev with
  | FileMoved source_path _ | ErrMovingFile source_path _ _ => Some source_path
  | _ => None
  end.

Definition move_attempts (l : list event) : list path := omap move_attempt l.


(** The same for a method that returns a list, empty after an error. *)
Definition fail_soft_list (m : @M S (list path)) : Prop :=
  ∀ w, ∃ l w' ev,
    m w = (Ok l, w') ∧ log w' = log w ++ [ev] ∧
    (level_of ev = INFO ∨ level_of ev = ERROR ∧ l = []).

(** Whether the destination folder of every file of [files] gets computed
    when the loop of [organize_excel_files] runs over them from [w]; the
    flags returned by [create_folder] and [move_file] play no role. *)
Fixpoint buckets_computed (source_folder : path) (organize_by : string)
    (files : list path) (w : @world S) : Prop :=
  match files with
  | [] => True
  | f :: rest =>
      match dest_folder source_folder organize_by f w with
      | (Raise _, _) => False
      | (Ok d, w1) =>
          buckets_computed source_folder organize_by rest
            (snd (move_file f (d </> PurePath.name f) (snd (create_folder d w1))))
      end
  end.

(** A computation that only adds to the log, whether it returns or raises. *)
Definition extends_log {A} (m : @M S A) : Prop :=
  ∀ w r w1, m w = (r, w1) → ∃ evs, log w1 = log w ++ evs.

End Trace.

(** ** Further properties *)

(** The folder a log message of [create_folder] is about. *)
Definition folder_event (ev : event) : option path :=
  match ev with
  | FolderCreated folder_path | ErrCreatingFolder folder_path _ => Some folder_path
  | _ => None
  end.

Module PosixProps.
Import Posix.

(** Two nodes of the same kind: two regular files, or two directories on
    the same device. *)
Definition same_kind (n n' : node) : Prop :=
  match n, n' with
  | File _ _, File _ _ => True
  | Dir _ dev, Dir _ dev' => dev = dev'
  | _, _ => False
  end.

(** Every entry of [m] is still there in [m'], as a node of the same
    kind. *)
Definition keeps_entries (m m' : gmap path node) : Prop :=
  ∀ k n, m !! k = Some n → ∃ n', m' !! k = Some n' ∧ same_kind n n'.

(** Every entry of [m] is there in [m'], unchanged. *)
Definition extends (m m' : gmap path node) : Prop :=
  ∀ k n, m !! k = Some n → m' !! k = Some n.



(** Where [copy2] writes. *)
Definition copy_target (m : gmap path node) (src dst : path) : path :=
  if os_path_isdir m dst then dst </> PurePath.name src else dst.

Definition is_regular (m : gmap path node) (k : path) : bool :=
  match m !! k with
  | Some (File _ _) => true
  | _ => false
  end.

Section Loops.
Variable rm_rec : path → state → res unit * state.

(** The loop of [rmtree_rec] over the entries of a directory, by
    itself. *)
Fixpoint rm_entries (entries : list path) (st : state) : res unit * state :=
  match entries with
  | [] => (Ok tt, st)
  | k :: entries' =>
      let '(r, st') :=
        if os_path_isdir (fs st) k then rm_rec k st
        else lift (os_unlink k) st in
      match r with
      | Ok _ => rm_entries entries' st'
      | Raise e => (Raise e, st')
      end
  end.

Variable cp_rec : path → path → state → res unit * state.
Variable dst : path.

(** The loop of [copytree_rec] over the entries of a directory, by
    itself. *)
Fixpoint copy_entries (entries : list path) (errors : bool) (st : state)
    : res bool * state :=
  match entries with
  | [] => (Ok errors, st)
  | srcobj :: entries' =>
      let dstname := dst </> PurePath.name srcobj in
      let '(r, st') :=
        if os_path_isdir (fs st) srcobj then cp_rec srcobj dstname st
        else copy2 srcobj dstname st in
      match r with
      | Ok _ => copy_entries entries' errors st'
      | Raise e =>
          if is_OSError e then copy_entries entries' true st'
          else (Raise e, st')
      end
  end.
End Loops.

(** Nothing that is not in the tree under [p] differs between [m] and
    [m']. *)
Definition same_outside (p : path) (m m' : gmap path node) : Prop :=
  ∀ k, ¬ p `suffix_of` k → m' !! k = m !! k.

(** Every entry of [m] that is not in the tree under [p] is there in
    [m'], unchanged. *)
Definition keeps_outside (p : path) (m m' : gmap path node) : Prop :=
  ∀ k n, ¬ p `suffix_of` k → m !! k = Some n → m' !! k = Some n.

(** A pattern of literal characters: no wildcard, no character class and
    no separator, so that [*] followed by it is a pattern of one
    component for the names that end with it. *)
Fixpoint literal (s : string) : bool :=
  match s with
  | EmptyString => true
  | String c s' =>
      negb (Ascii.eqb c "*") && negb (Ascii.eqb c "?") &&
      negb (Ascii.eqb c "[") && negb (Ascii.eqb c "/") && literal s'
  end.

(** The names [organize_excel_files] asks [list_files] for. *)
Definition excel (nm : string) : bool :=
  fnmatch "*.xlsx" nm || fnmatch "*.xls" nm.

(** The folder [organize_excel_files] makes its buckets in. *)
Definition organized_root (source : path) (organize_by : string) : path :=
  source </>
    (if decide (organize_by = "date") then "organized_by_date"
     else if decide (organize_by = "size") then "organized_by_size"
     else "organized_by_name").

(** A bucket of [organize_excel_files]: a folder directly inside [root]
    whose name is not one that is asked for, or [root] itself (the bucket
    of a name that starts with a dot). *)
Definition bucket_in (root : path) (d : path) : Prop :=
  d = root ∨ ∃ b, excel b = false ∧ d = b :: root.

(** Where [organize_excel_files] may have put the entry named [nm]: in a
    bucket, under its own name, or one level further down under that name
    again, when a directory of that name was already in the bucket. *)
Definition moved_to (root : path) (nm : string) (k : path) : Prop :=
  ∃ d, bucket_in root d ∧ (k = nm :: d ∨ k = nm :: nm :: d).

(** What is left of a node when entries are made or removed around it: a
    regular file is as it was, content and metadata; a directory is a
    directory on the same device (its times change when an entry is made
    or removed inside it, and are left open). *)
Definition preserved (n n' : node) : Prop :=
  match n, n' with
  | File i data, File i' data' => i = i' ∧ data = data'
  | Dir _ dev, Dir _ dev' => dev = dev'
  | _, _ => False
  end.

(** Every entry of [m] is still there in [m'], preserved. *)
Definition keeps (m m' : gmap path node) : Prop :=
  ∀ k n, m !! k = Some n → ∃ n', m' !! k = Some n' ∧ preserved n n'.

Fixpoint has_char (a : ascii) (s : string) : bool :=
  match s with
  | EmptyString => false
  | String c s' => Ascii.eqb c a || has_char a s'
  end.

(** A name an entry of a directory can have: not empty, not [.] or [..],
    and without a separator. *)
Definition entry_name (c : string) : bool :=
  negb (String.eqb c "") && negb (String.eqb c ".") &&
  negb (String.eqb c "..") && negb (has_char "/" c).

(** A path that only goes down, from one entry to an entry inside it. *)
Definition plain (p : path) : bool := forallb entry_name p.

(** A folder given as a string, relative and without [..]: joined to a
    base folder it stays inside it. *)
Definition goes_down (folder : string) : bool :=
  negb (String.prefix "/" folder) &&
  forallb (λ c, negb (String.eqb c "..")) (PurePath.split "/" folder).

End PosixProps.

(** * Facts about paths and strings *)

Section PathFacts.
Implicit Types (s t : string) (p : path).

Lemma length_append s t :
  String.length (s +:+ t) = (String.length s + String.length t)%nat.
Proof. induction s as [|c s IH]; simpl; [done|]. by rewrite IH. Qed.




Lemma split_point_bounds nm i :
  PurePath.split_point nm = Some i → (0 < i ∧ Datatypes.S i < String.length nm)%nat.
Proof.
  unfold PurePath.split_point. destruct (PurePath.rfind _ nm) as [j|]; [|done].
  destruct (0 <? j)%nat eqn:H0; simpl; [|done].
  destruct (Datatypes.S j <? String.length nm)%nat eqn:H1; [|done].
  intros [= <-]. apply Nat.ltb_lt in H0, H1. done.
Qed.


(** A name that is not empty has a stem that is not empty. *)
Lemma stem_nonempty p : PurePath.name p ≠ "" → PurePath.stem p ≠ "".
Proof.
  unfold PurePath.stem. intros Hnm.
  destruct (PurePath.split_point (PurePath.name p)) as [i|] eqn:Hsp; [|done].
  apply split_point_bounds in Hsp as [Hi _].
  destruct i as [|i]; [lia|]. by destruct (PurePath.name p).
Qed.

Lemma joinpath_cons p s : s ≠ "" → s ≠ "." → p </> s = s :: p.
Proof.
  intros Hs Hd. unfold PurePath.joinpath.
  destruct (decide (s = "" ∨ s = ".")) as [[?|?]|?]; done.
Qed.

Lemma length_concat_last sep (l : list string) s :
  (String.length s ≤ String.length (String.concat sep (l ++ [s])))%nat.
Proof.
  induction l as [|a l IH]; simpl; [done|].
  destruct (l ++ [s]) eqn:E; [by destruct l|].
  rewrite !length_append. lia.
Qed.

Lemma to_str_nonempty p s : s ≠ "" → PurePath.to_str (s :: p) ≠ "".
Proof.
  intros Hs. unfold PurePath.to_str. simpl. intros Heq.
  pose proof (length_concat_last "/" (rev p) s) as Hlen. rewrite Heq in Hlen.
  destruct s; [done|]. simpl in Hlen. lia.
Qed.


Lemma backup_name_proper s ts t :
  let nm := s +:+ "_backup_" +:+ ts +:+ t in nm ≠ "" ∧ nm ≠ ".".
Proof.
  simpl. assert (8 ≤ String.length (s +:+ "_backup_" +:+ ts +:+ t))%nat as Hlen.
  { rewrite !length_append. simpl. lia. }
  split; intros Heq; rewrite Heq in Hlen; simpl in Hlen; lia.
Qed.


End PathFacts.

(** * Facts about [FileHandler], for any library *)

Ltac run :=
  unfold try_except, mbind, M_bind, mret, M_ret, call, logger, pure_res in *;
  simpl in *.

Section AppFacts.
Context {S : Type} `{!Library S}.
Implicit Types (w : @world S) (p : path).


(** The shape shared by the methods that return a flag. *)
Lemma flag_method_run (body : @M S unit) (info : event) (err : exn → event) w :
  try_except (body;; logger info;; mret true)
             (λ e, logger (err e);; mret false) w =
    match body w with
    | (Ok _, w1) => (Ok true, World (os w1) (log w1 ++ [info]))
    | (Raise e, w1) => (Ok false, World (os w1) (log w1 ++ [err e]))
    end.
Proof. run. destruct (body w) as [[u|e] w1]; reflexivity. Qed.


Lemma create_folder_run p w :
  create_folder p w =
    match path_mkdir p (os w) with
    | (Ok _, s) => (Ok true, World s (log w ++ [FolderCreated p]))
    | (Raise e, s) => (Ok false, World s (log w ++ [ErrCreatingFolder p e]))
    end.
Proof.
  unfold create_folder. run. destruct (path_mkdir p (os w)) as [[u|e] s]; reflexivity.
Qed.

Lemma create_folder_returns p w :
  ∃ b ev s, create_folder p w = (Ok b, World s (log w ++ [ev])) ∧
    level_of ev = (if b then INFO else ERROR) ∧ move_attempt ev = None.
Proof.
  rewrite create_folder_run.
  destruct (path_mkdir p (os w)) as [[u|e] s]; eauto 10.
Qed.

Lemma create_folder_extends_log p : extends_log (create_folder p).
Proof.
  intros w r w1 Hrun. destruct (create_folder_returns p w) as (b & ev & s & Heq & _).
  rewrite Heq in Hrun. injection Hrun as <- <-. by exists [ev].
Qed.

Lemma copy_file_run src dst w :
  copy_file src dst w =
    let w1 := snd (create_folder (PurePath.parent dst) w) in
    match shutil_copy2 src dst (os w1) with
    | (Ok _, s) => (Ok true, World s (log w1 ++ [FileCopied src dst]))
    | (Raise e, s) => (Ok false, World s (log w1 ++ [ErrCopyingFile src dst e]))
    end.
Proof.
  unfold copy_file. run.
  destruct (create_folder_returns (PurePath.parent dst) w) as (b & ev & s & -> & _).
  simpl. destruct (shutil_copy2 src dst s) as [[u|e] s']; reflexivity.
Qed.

Lemma move_file_run src dst w :
  move_file src dst w =
    let w1 := snd (create_folder (PurePath.parent dst) w) in
    match shutil_move src dst (os w1) with
    | (Ok _, s) => (Ok true, World s (log w1 ++ [FileMoved src dst]))
    | (Raise e, s) => (Ok false, World s (log w1 ++ [ErrMovingFile src dst e]))
    end.
Proof.
  unfold move_file. run.
  destruct (create_folder_returns (PurePath.parent dst) w) as (b & ev & s & -> & _).
  simpl. destruct (shutil_move src dst s) as [[u|e] s']; reflexivity.
Qed.

(** [move_file] returns; it logs the outcome of [create_folder] and then
    exactly one message about the move of [src]. *)
Lemma move_file_returns src dst w :
  ∃ b ev0 ev s, move_file src dst w = (Ok b, World s (log w ++ [ev0; ev])) ∧
    move_attempt ev0 = None ∧ move_attempt ev = Some src ∧
    level_of ev = (if b then INFO else ERROR).
Proof.
  rewrite move_file_run.
  destruct (create_folder_returns (PurePath.parent dst) w) as (b & ev & s & -> & _ & Hev).
  simpl. destruct (shutil_move src dst s) as [[u|e] s'].
  - exists true, ev, (FileMoved src dst), s'. by rewrite <- app_assoc.
  - exists false, ev, (ErrMovingFile src dst e), s'. by rewrite <- app_assoc.
Qed.

Lemma list_files_glob_run folder c ext w :
  list_files folder (Some (String c ext)) w =
    match path_glob folder ("*" +:+ String c ext) (os w) with
    | (Ok l, s) => (Ok l, World s (log w ++ [FoundFiles (length l) folder]))
    | (Raise e, s) => (Ok [], World s (log w ++ [ErrListingFiles folder e]))
    end.
Proof.
  unfold list_files. run.
  destruct (path_glob folder _ (os w)) as [[l|e] s]; reflexivity.
Qed.

Lemma comprehension_if_log (l : list path) (f : path → S → res bool * S) w r w1 :
  comprehension_if l (λ x, call (f x)) w = (r, w1) → log w1 = log w.
Proof.
  revert w r w1. induction l as [|x l IH]; intros w r w1; simpl.
  - by intros [= <- <-].
  - run. destruct (f x (os w)) as [[b|e] s]; simpl.
    + destruct (comprehension_if l _ _) as [[rest|e] w2] eqn:Hrest;
        intros [= <- <-]; by apply IH in Hrest.
    + by intros [= <- <-].
Qed.

Lemma list_files_fail_soft folder extension :
  fail_soft_list (list_files folder extension).
Proof.
  intros w.
  assert (∀ body : @M S (list path),
    (∀ r w1, body w = (r, w1) → log w1 = log w) →
    ∃ l w' ev,
      try_except (files ← body; logger (FoundFiles (length files) folder);; mret files)
                 (λ e, logger (ErrListingFiles folder e);; mret []) w = (Ok l, w') ∧
      log w' = log w ++ [ev] ∧ (level_of ev = INFO ∨ level_of ev = ERROR ∧ l = []))
    as Hshape.
  { intros body Hlog. run. destruct (body w) as [[l|e] w1] eqn:Hb.
    - eexists _, _, _. split; [reflexivity|]. simpl. rewrite (Hlog _ _ eq_refl). auto.
    - eexists _, _, _. split; [reflexivity|]. simpl. rewrite (Hlog _ _ eq_refl). auto. }
  unfold list_files.
  assert (∀ r w1, (entries ← call (path_iterdir folder);
                   comprehension_if entries (λ f, call (path_is_file f))) w = (r, w1) →
                  log w1 = log w) as Hiter.
  { intros r w1. run. destruct (path_iterdir folder (os w)) as [[entries|e] s].
    - intros Hc. apply comprehension_if_log in Hc. done.
    - by intros [= <- <-]. }
  destruct extension as [[|c ext]|].
  - apply Hshape, Hiter.
  - apply Hshape. intros r w1. run.
    destruct (path_glob folder _ (os w)) as [r' s]. by intros [= <- <-].
  - apply Hshape, Hiter.
Qed.


(** *** The bucket of a file *)

Lemma dest_folder_log source crit f w r w1 :
  dest_folder source crit f w = (r, w1) → log w1 = log w.
Proof.
  unfold dest_folder. repeat case_decide; run.
  - destruct (path_stat f (os w)) as [[st|e] s]; simpl.
    + destruct (datetime_fromtimestamp _ s) as [[d|e] s']; by intros [= <- <-].
    + by intros [= <- <-].
  - destruct (path_stat f (os w)) as [[st|e] s]; by intros [= <- <-].
  - destruct (index0 _); by intros [= <- <-].
Qed.

(** The only calls of the loop body that can raise are those that compute
    the bucket: [stat], [fromtimestamp] and the indexing of the stem. *)
Lemma dest_folder_raises source crit f w e w1 :
  dest_folder source crit f w = (Raise e, w1) →
  (crit = "date" ∧
     ((∃ s, path_stat f (os w) = (Raise e, s)) ∨
      (∃ st s s', path_stat f (os w) = (Ok st, s) ∧
         datetime_fromtimestamp (st_mtime st) s = (Raise e, s')))) ∨
  (crit = "size" ∧ ∃ s, path_stat f (os w) = (Raise e, s)) ∨
  (crit ≠ "date" ∧ crit ≠ "size" ∧ PurePath.stem f = "" ∧ e = IndexError).
Proof.
  unfold dest_folder. repeat case_decide; run.
  - destruct (path_stat f (os w)) as [[st|e'] s] eqn:Hst; simpl.
    + destruct (datetime_fromtimestamp _ s) as [[d|e'] s'] eqn:Hd; intros [= <- <-].
      left. split; [done|]. right. eauto.
    + intros [= <- <-]. left. eauto.
  - destruct (path_stat f (os w)) as [[st|e'] s] eqn:Hst; intros [= <- <-].
    right. left. eauto.
  - destruct (PurePath.stem f); simpl; intros [= <- <-]. do 2 right. auto.
Qed.

Lemma organize_one_run source crit f w :
  organize_one source crit f w =
    match dest_folder source crit f w with
    | (Raise e, w1) => (Raise e, w1)
    | (Ok d, w1) =>
        (Ok tt, snd (move_file f (d </> PurePath.name f) (snd (create_folder d w1))))
    end.
Proof.
  unfold organize_one. run. destruct (dest_folder source crit f w) as [[d|e] w1]; [|done].
  destruct (create_folder_returns d w1) as (b & ev & s & -> & _). simpl.
  destruct (move_file_returns f (d </> PurePath.name f) (World s (log w1 ++ [ev])))
    as (b' & ev0 & ev' & s' & -> & _). done.
Qed.

Lemma move_attempts_app l1 l2 :
  move_attempts (l1 ++ l2) = move_attempts l1 ++ move_attempts l2.
Proof. apply omap_app. Qed.

(** One turn of the loop that gets past the bucket logs one move attempt,
    that of its file. *)
Lemma organize_one_attempt source crit f w w' :
  organize_one source crit f w = (Ok tt, w') →
  ∃ new, log w' = log w ++ new ∧ move_attempts new = [f].
Proof.
  rewrite organize_one_run.
  destruct (dest_folder source crit f w) as [[d|e] w1] eqn:Hd; [|done].
  apply dest_folder_log in Hd.
  destruct (create_folder_returns d w1) as (b & ev & s & -> & _ & Hev). simpl.
  destruct (move_file_returns f (d </> PurePath.name f) (World s (log w1 ++ [ev])))
    as (b' & ev0 & ev' & s' & -> & Hev0 & Hev' & _).
  simpl. intros [= <-]. simpl. exists [ev; ev0; ev']. split.
  - rewrite Hd, <- app_assoc. done.
  - unfold move_attempts. simpl. by rewrite Hev, Hev0, Hev'.
Qed.

Lemma organize_loop_attempts source crit files w w' :
  for_each files (organize_one source crit) w = (Ok tt, w') →
  ∃ new, log w' = log w ++ new ∧ move_attempts new = files.
Proof.
  revert w. induction files as [|f files IH]; intros w; simpl.
  - run. intros [= <-]. exists []. by rewrite app_nil_r.
  - run. destruct (organize_one source crit f w) as [[[]|e] w1] eqn:Hone; [|done].
    intros Hrest. apply organize_one_attempt in Hone as (new1 & E1 & A1).
    apply IH in Hrest as (new2 & E2 & A2). exists (new1 ++ new2). split.
    + by rewrite E2, E1, app_assoc.
    + by rewrite move_attempts_app, A1, A2.
Qed.

(** The loop after a failed move: it goes on with the files that remain. *)
Lemma organize_loop_continues source crit f rest w d w1 w2 :
  dest_folder source crit f w = (Ok d, w1) →
  move_file f (d </> PurePath.name f) (snd (create_folder d w1)) = (Ok false, w2) →
  for_each (f :: rest) (organize_one source crit) w =
    for_each rest (organize_one source crit) w2 ∧
  ∃ evs e, log w2 = log w ++ evs ++ [ErrMovingFile f (d </> PurePath.name f) e].
Proof.
  intros Hd Hmove. split.
  - simpl. run. rewrite organize_one_run, Hd, Hmove. done.
  - apply dest_folder_log in Hd. rewrite move_file_run in Hmove.
    destruct (create_folder_returns d w1) as (b & ev & s & Hc & _).
    rewrite !Hc in Hmove. simpl in Hmove.
    destruct (create_folder_returns (PurePath.parent (d </> PurePath.name f))
                (World s (log w1 ++ [ev]))) as (b' & ev' & s' & Hc' & _).
    rewrite Hc' in Hmove. simpl in Hmove.
    destruct (shutil_move _ _ s') as [[u|e] s'']; [done|].
    injection Hmove as <-. simpl. exists [ev; ev'], e.
    rewrite Hd, <- !app_assoc. done.
Qed.

Lemma buckets_computed_run source crit files w :
  match for_each files (organize_one source crit) w with
  | (Ok _, _) => buckets_computed source crit files w
  | (Raise _, _) => ¬ buckets_computed source crit files w
  end.
Proof.
  revert w. induction files as [|f files IH]; intros w; simpl.
  - run. done.
  - run. rewrite organize_one_run.
    destruct (dest_folder source crit f w) as [[d|e] w1]; [|tauto]. apply IH.
Qed.

Lemma organize_excel_files_run source crit w :
  organize_excel_files source crit w =
    let '(xs, w1) := list_files source (Some ".xlsx") w in
    let '(ys, w2) := list_files source (Some ".xls") w1 in
    match xs, ys with
    | Ok xs, Ok ys =>
        match for_each (xs ++ ys) (organize_one source crit) w2 with
        | (Ok _, w3) => (Ok true, w3)
        | (Raise e, w3) => (Ok false, World (os w3) (log w3 ++ [ErrOrganizing e]))
        end
    | _, _ => (Ok false, w)
    end.
Proof.
  unfold organize_excel_files.
  destruct (list_files_fail_soft source (Some ".xlsx") w) as (xs & w1 & ev & E1 & _).
  run. rewrite E1.
  destruct (list_files_fail_soft source (Some ".xls") w1) as (ys & w2 & ev' & E2 & _).
  rewrite E2. destruct (for_each _ _ w2) as [[u|e] w3]; done.
Qed.

End AppFacts.

Section AppTheorems.
Context {S : Type} `{!Library S}.
Implicit Types (w : @world S) (p : path).

Lemma backup_excel_file_run (self : FileHandler) excel_path backup_folder w :
  let '(now, s1) := datetime_now (os w) in
  let folder :=
    match backup_folder with
    | None => "backups" :: base_folder self
    | Some b => b
    end in
  let backup_name :=
    PurePath.stem excel_path +:+ "_backup_" +:+ strftime_stamp now
      +:+ PurePath.suffix excel_path in
  backup_excel_file self excel_path backup_folder w =
    (Ok (PurePath.to_str (backup_name :: folder)),
     snd (copy_file excel_path (backup_name :: folder)
            (snd (create_folder folder (World s1 (log w)))))).
Proof.
  destruct (datetime_now (os w)) as [now s1] eqn:Hnow.
  unfold backup_excel_file. run. rewrite Hnow.
  destruct (backup_name_proper (PurePath.stem excel_path) (strftime_stamp now)
              (PurePath.suffix excel_path)) as [Hne Hnd]. simpl in Hne, Hnd.
  rewrite (joinpath_cons _ _ Hne Hnd).
  assert (base_folder self </> "backups" = "backups" :: base_folder self) as ->
    by done.
  set (folder := match backup_folder with
                 | None => "backups" :: base_folder self
                 | Some b => b
                 end).
  destruct (create_folder_returns folder (World s1 (log w))) as (b & ev & s & -> & _).
  simpl. rewrite copy_file_run. simpl.
  destruct (create_folder_returns folder (World s (log w ++ [ev])))
    as (b' & ev' & s' & -> & _). simpl.
  destruct (shutil_copy2 _ _ s') as [[u|e] s'']; done.
Qed.

(** [backup_excel_file] never takes its [except] branch: whatever the
    library does, the computed path is returned. *)
Lemma backup_excel_file_never_empty (self : FileHandler) excel_path backup_folder w :
  ∃ r w', backup_excel_file self excel_path backup_folder w = (Ok r, w') ∧ r ≠ "".
Proof.
  pose proof (backup_excel_file_run self excel_path backup_folder w) as Hrun.
  destruct (datetime_now (os w)) as [now s1]. simpl in Hrun.
  eexists _, _. split; [exact Hrun|].
  apply to_str_nonempty, backup_name_proper.
Qed.

(** C1. Under the criterion 'size' the bucket of a file is "small" below
    1,048,576 bytes, "medium" from there and below 10,485,760 bytes, and
    "large" from there on, the comparisons being strict; the file is moved
    to [organized_by_size/<bucket>/<name>] inside the source folder. *)
Theorem size_bucket_thresholds (source file : path) w (st : stat_result) (s : S) :
  path_stat file (os w) = (Ok st, s) →
  ∃ bucket,
    let d := bucket :: "organized_by_size" :: source in
    dest_folder source "size" file w = (Ok d, World s (log w)) ∧
    organize_one source "size" file w =
      (Ok tt, snd (move_file file (d </> PurePath.name file)
                     (snd (create_folder d (World s (log w)))))) ∧
    (st_size st < 1048576 → bucket = "small") ∧
    (1048576 ≤ st_size st < 10485760 → bucket = "medium") ∧
    (10485760 ≤ st_size st → bucket = "large") ∧
    size_folder 1048576 = "medium" ∧
    size_folder 1048575 = "small" ∧
    size_folder 10485760 = "large".
Proof.
  intros Hst. exists (size_folder (st_size st)).
  assert (dest_folder source "size" file w =
          (Ok (size_folder (st_size st) :: "organized_by_size" :: source),
           World s (log w))) as Hd.
  { unfold dest_folder. simpl. run. rewrite Hst. simpl.
    unfold size_folder. repeat case_match; reflexivity. }
  simpl. split; [exact Hd|]. split; [by rewrite organize_one_run, Hd|].
  unfold size_folder.
  repeat split; try reflexivity; intros Hsz; repeat case_match; try reflexivity; lia.
Qed.

(** C4. A move that fails does not end the loop of [organize_excel_files]:
    when no exception escapes the loop body, every enumerated file has had
    its move attempted, in the order of the enumeration, and each attempt
    has left one message in the log, an error message when it failed. *)
Theorem organize_attempts_every_file (source : path) (organize_by : string)
    w (xs ys : list path) w1 w2 w' :
  list_files source (Some ".xlsx") w = (Ok xs, w1) →
  list_files source (Some ".xls") w1 = (Ok ys, w2) →
  organize_excel_files source organize_by w = (Ok true, w') →
  ∃ new, log w' = log w2 ++ new ∧ move_attempts new = xs ++ ys.
Proof.
  intros H1 H2. rewrite organize_excel_files_run, H1, H2.
  destruct (for_each _ _ w2) as [[[]|e] w3] eqn:Hloop; [|done].
  intros [= <-]. by apply organize_loop_attempts in Hloop.
Qed.

Lemma dest_folder_by_name (source : path) (organize_by : string) (file : path) w :
  organize_by ≠ "date" → organize_by ≠ "size" → PurePath.name file ≠ "" →
  ∃ c rest,
    PurePath.stem file = String c rest ∧
    dest_folder source organize_by file w =
      (Ok (source </> "organized_by_name" </> String (upper_char c) ""), w).
Proof.
  intros Hdate Hsize Hname. apply stem_nonempty in Hname.
  destruct (PurePath.stem file) as [|c rest] eqn:Hstem; [done|].
  exists c, rest. split; [done|].
  unfold dest_folder. rewrite !decide_False by done. run. rewrite Hstem.
  simpl. by destruct w.
Qed.




(** C10. [organize_excel_files] returns [True] exactly when the bucket of
    every enumerated file could be computed, whatever [create_folder] and
    [move_file] returned for them; it returns [False], after logging the
    exception, exactly when one of these computations raised, and it never
    raises itself. *)
Theorem organize_result_ignores_moves (source : path) (organize_by : string)
    w (xs ys : list path) w1 w2 :
  list_files source (Some ".xlsx") w = (Ok xs, w1) →
  list_files source (Some ".xls") w1 = (Ok ys, w2) →
  ∃ b w',
    organize_excel_files source organize_by w = (Ok b, w') ∧
    (b = true ↔ buckets_computed source organize_by (xs ++ ys) w2) ∧
    (b = false → ∃ e, last (log w') = Some (ErrOrganizing e)).
Proof.
  intros H1 H2. rewrite organize_excel_files_run, H1, H2.
  pose proof (buckets_computed_run source organize_by (xs ++ ys) w2) as Hb.
  destruct (for_each _ _ w2) as [[u|e] w3].
  - exists true, w3. repeat split; done.
  - eexists false, _. split; [reflexivity|]. split.
    + split; [done|]. intros; exfalso; auto.
    + intros _. exists e. simpl. apply last_snoc.
Qed.

End AppTheorems.

(** * Facts about the reference library *)

Section PosixFacts.
Import Posix.
Implicit Types (s : state) (m : gmap path node) (p k : path) (n : node).

(** Resolving [p] reads the ancestors of [p] only. *)
Lemma reach_insert_long m k n p :
  (length p ≤ length k)%nat → reach (<[k := n]> m) p = reach m p.
Proof.
  induction p as [|c par IH]; intros Hlen; simpl in *; [done|].
  rewrite IH by lia. destruct (reach m par); [|done].
  rewrite lookup_insert_ne; [done|]. intros ->. lia.
Qed.

Lemma os_mkdir_ok p s s' :
  os_mkdir p s = Ok s' →
  reach (fs s) p = Ok tt ∧ fs s !! p = None ∧
  ∃ i dev, s' = set_fs s (<[p := Dir i dev]> (fs s)).
Proof.
  unfold os_mkdir. destruct (reach (fs s) p) as [[]|e]; [|done].
  destruct (fs s !! p); [done|].
  destruct (parent_for_update (fs s) p) as [dev|e]; [|done].
  intros [= <-]. eauto.
Qed.

Lemma os_mkdir_fail_exists p s e i dev :
  os_stat (fs s) p = Ok (Dir i dev) → os_mkdir p s = Raise e → e = FileExistsError.
Proof.
  unfold os_stat, os_mkdir. destruct (reach (fs s) p) as [[]|e']; [|done].
  destruct (fs s !! p); [|done]. by intros _ [= <-].
Qed.

Lemma os_stat_mkdir p s s' :
  os_mkdir p s = Ok s' → ∃ i dev, os_stat (fs s') p = Ok (Dir i dev).
Proof.
  intros (Hreach & Hnone & i & dev & ->)%os_mkdir_ok. exists i, dev.
  unfold os_stat. simpl. rewrite reach_insert_long, Hreach by done.
  by rewrite lookup_insert_eq.
Qed.

Lemma unless_is_dir_inv e p s r s' :
  unless_is_dir e p s = (r, s') →
  s' = s ∧ (r = Ok tt → ∃ i dev, os_stat (fs s) p = Ok (Dir i dev)).
Proof.
  unfold unless_is_dir, is_dir.
  destruct (os_stat (fs s) p) as [[i d|i dev]|e'] eqn:Hst; simpl.
  - intros [= <- <-]. done.
  - intros [= <- <-]. eauto.
  - destruct (ignore_error e'); intros [= <- <-]; done.
Qed.

Lemma mkdir_exist_ok_is_dir p s s' :
  mkdir_exist_ok p s = (Ok tt, s') → ∃ i dev, os_stat (fs s') p = Ok (Dir i dev).
Proof.
  unfold mkdir_exist_ok. destruct (os_mkdir p s) as [s1|e] eqn:Hmk.
  - intros [= <-]. by eapply os_stat_mkdir.
  - destruct e; try done; intros [-> H]%unless_is_dir_inv; auto.
Qed.

(** After a successful [mkdir] the path is a directory that can be seen. *)
Lemma mkdir_is_dir p s s' :
  mkdir p s = (Ok tt, s') → ∃ i dev, os_stat (fs s') p = Ok (Dir i dev).
Proof.
  destruct p as [|c par]; simpl.
  - destruct (os_mkdir [] s) as [s1|e] eqn:Hmk.
    + intros [= <-]. by eapply os_stat_mkdir.
    + destruct e; try done; intros [-> H]%unless_is_dir_inv; auto.
  - destruct (os_mkdir (c :: par) s) as [s1|e] eqn:Hmk.
    + intros [= <-]. by eapply os_stat_mkdir.
    + destruct e; try (intros [-> H]%unless_is_dir_inv; by auto).
      destruct (mkdir par s) as [[[]|e] s1]; [|done].
      apply mkdir_exist_ok_is_dir.
Qed.

(** [mkdir] on a directory that is there succeeds and changes nothing. *)
Lemma mkdir_existing p s i dev :
  os_stat (fs s) p = Ok (Dir i dev) → mkdir p s = (Ok tt, s).
Proof.
  intros Hst.
  assert (os_mkdir p s = Raise FileExistsError) as Hmk.
  { destruct (os_mkdir p s) as [s'|e] eqn:Hmk.
    - apply os_mkdir_ok in Hmk as (_ & Hnone & _).
      unfold os_stat in Hst. destruct (reach (fs s) p); [|done].
      by rewrite Hnone in Hst.
    - by rewrite (os_mkdir_fail_exists _ _ _ _ _ Hst Hmk). }
  assert (unless_is_dir FileExistsError p s = (Ok tt, s)) as Hun.
  { unfold unless_is_dir, is_dir. by rewrite Hst. }
  destruct p; simpl; by rewrite Hmk.
Qed.

(** [mkdir] only adds entries. *)
Lemma os_mkdir_preserves p s s' k n :
  os_mkdir p s = Ok s' → fs s !! k = Some n → fs s' !! k = Some n.
Proof.
  intros (_ & Hnone & i & dev & ->)%os_mkdir_ok Hk. simpl.
  rewrite lookup_insert_ne; [done|]. intros ->. congruence.
Qed.

Lemma mkdir_exist_ok_preserves p s r s' k n :
  mkdir_exist_ok p s = (r, s') → fs s !! k = Some n → fs s' !! k = Some n.
Proof.
  unfold mkdir_exist_ok. destruct (os_mkdir p s) as [s1|e] eqn:Hmk.
  - intros [= <- <-]. by eapply os_mkdir_preserves.
  - destruct e; try (by intros [= <- <-]); by intros [-> _]%unless_is_dir_inv.
Qed.

Lemma mkdir_preserves p s r s' k n :
  mkdir p s = (r, s') → fs s !! k = Some n → fs s' !! k = Some n.
Proof.
  revert s r s'. induction p as [|c par IH]; intros s r s'; simpl.
  - destruct (os_mkdir [] s) as [s1|e] eqn:Hmk.
    + intros [= <- <-]. by eapply os_mkdir_preserves.
    + destruct e; try (by intros [= <- <-]); by intros [-> _]%unless_is_dir_inv.
  - destruct (os_mkdir (c :: par) s) as [s1|e] eqn:Hmk.
    + intros [= <- <-]. by eapply os_mkdir_preserves.
    + destruct e; try (by intros [-> _]%unless_is_dir_inv).
      destruct (mkdir par s) as [[[]|e] s1] eqn:Hpar.
      * intros Hp Hk. eapply mkdir_exist_ok_preserves; [done|]. by eapply IH.
      * intros [= <- <-]. by eapply IH.
Qed.

End PosixFacts.

Section MkdirAgain.
Import Posix.
Implicit Types (s : state) (m : gmap path node) (p k : path) (n : node).

Lemma reach_cons_ok m c par :
  reach m (c :: par) = Ok tt → ∃ i dev, os_stat m par = Ok (Dir i dev).
Proof.
  simpl. unfold os_stat. destruct (reach m par) as [[]|]; [|done].
  destruct (m !! par) as [[|i dev]|]; try done. eauto.
Qed.

Lemma os_stat_parent m c par n :
  os_stat m (c :: par) = Ok n → ∃ i dev, os_stat m par = Ok (Dir i dev).
Proof.
  unfold os_stat at 1. destruct (reach m (c :: par)) as [[]|] eqn:Hr; [|done].
  intros _. by apply reach_cons_ok in Hr.
Qed.

Lemma mkdir_exist_ok_fail p s e s' : mkdir_exist_ok p s = (Raise e, s') → s' = s.
Proof.
  unfold mkdir_exist_ok. destruct (os_mkdir p s) as [s1|e1]; [done|].
  destruct e1; try (by intros [= <- <-]); by intros [-> _]%unless_is_dir_inv.
Qed.

(** When the parent is not a directory that can be seen, [mkdir] of the
    child cannot stop at the child: it raises or goes to the parent. *)
Lemma mkdir_child_fails c par s e s1 :
  mkdir par s1 = (Raise e, s1) → ∃ e', mkdir (c :: par) s1 = (Raise e', s1).
Proof.
  intros Hpar.
  assert (∀ i dev, os_stat (fs s1) par ≠ Ok (Dir i dev)) as Hnodir.
  { intros i dev Hst. rewrite (mkdir_existing _ _ _ _ Hst) in Hpar. done. }
  simpl. destruct (os_mkdir (c :: par) s1) as [s2|e1] eqn:Hmk.
  - apply os_mkdir_ok in Hmk as (Hr & _). apply reach_cons_ok in Hr as (i & dev & Hst).
    by destruct (Hnodir i dev).
  - assert (∃ e', unless_is_dir e1 (c :: par) s1 = (Raise e', s1)) as [e' Hun].
    { unfold unless_is_dir, is_dir.
      destruct (os_stat (fs s1) (c :: par)) as [[|]|e2] eqn:Hst; eauto.
      - apply os_stat_parent in Hst as (i' & dev' & Hst). by destruct (Hnodir i' dev').
      - destruct (ignore_error e2); eauto. }
    destruct e1; try (by eauto). rewrite Hpar. eauto.
Qed.

(** A [mkdir] that has failed fails again, and changes nothing then. *)
Lemma mkdir_fail_again p s e s1 :
  mkdir p s = (Raise e, s1) → ∃ e', mkdir p s1 = (Raise e', s1).
Proof.
  revert s e s1. induction p as [|c par IH]; intros s e s1 Hrun.
  - assert (s1 = s) as ->; [|eauto]. simpl in Hrun.
    destruct (os_mkdir [] s) as [s2|e1]; [done|].
    destruct e1; try (by injection Hrun); by apply unless_is_dir_inv in Hrun as [-> _].
  - pose proof Hrun as Hrun'. simpl in Hrun'.
    destruct (os_mkdir (c :: par) s) as [s2|e1] eqn:Hmk; [done|].
    destruct e1;
      try (apply unless_is_dir_inv in Hrun' as [-> _]; by eauto).
    destruct (mkdir par s) as [[[]|e2] s2] eqn:Hpar.
    + pose proof (mkdir_exist_ok_fail _ _ _ _ Hrun') as ->.
      apply mkdir_is_dir in Hpar as (i & dev & Hst).
      exists e. simpl.
      change (match os_mkdir (c :: par) s2 with
              | Ok s' => (Ok tt, s')
              | Raise FileNotFoundError =>
                  match mkdir par s2 with
                  | (Raise e, s1) => (Raise e, s1)
                  | (Ok _, s1) => mkdir_exist_ok (c :: par) s1
                  end
              | Raise e => unless_is_dir e (c :: par) s2
              end = (Raise e, s2)).
      rewrite (mkdir_existing _ _ _ _ Hst).
      pose proof Hrun' as Hme. unfold mkdir_exist_ok in Hrun'.
      destruct (os_mkdir (c :: par) s2) as [s3|e3]; [done|].
      destruct e3; first [exact Hrun' | exact Hme].
    + injection Hrun' as <- <-. apply IH in Hpar as [e' Hpar].
      by eapply mkdir_child_fails.
Qed.

End MkdirAgain.

Section MoveFacts.
Import Posix.
Implicit Types (s : state) (m : gmap path node) (p k src dst : path) (n : node).

Lemma os_stat_lookup m p n : os_stat m p = Ok n → m !! p = Some n.
Proof.
  unfold os_stat. destruct (reach m p); [|done].
  destruct (m !! p); [|done]. by intros [= ->].
Qed.

Lemma os_path_isdir_lookup m p :
  os_path_isdir m p = true → ∃ i dev, m !! p = Some (Dir i dev).
Proof.
  unfold os_path_isdir. destruct (os_stat m p) as [[|i dev]|] eqn:Hst; try done.
  apply os_stat_lookup in Hst. eauto.
Qed.

(** A rename of a regular file that succeeds leaves the file, whole, at
    the destination and nowhere else. *)
Lemma os_rename_file src dst s s' i data :
  fs s !! src = Some (File i data) →
  os_rename src dst s = Ok s' →
  fs s' !! dst = Some (File i data) ∧ (dst ≠ src → fs s' !! src = None).
Proof.
  intros Hsrc. unfold os_rename.
  destruct (reach (fs s) src) as [[]|e]; [|done].
  destruct (reach (fs s) dst) as [[]|e]; [|done].
  rewrite Hsrc. case_decide as Heq.
  - subst dst. intros [= <-]. done.
  - destruct (parent_for_update (fs s) src) as [dev1|e]; [|done].
    destruct (parent_for_update (fs s) dst) as [dev2|e]; [|done].
    destruct (negb (dev1 =? dev2)%N); [done|].
    destruct (fs s !! dst) as [[|]|]; try done; intros [= <-]; simpl;
      rewrite lookup_insert_eq; (split; [done|]); intros _;
      rewrite lookup_insert_ne by done; apply lookup_delete_eq.
Qed.

Lemma open_write_ok dst s s' :
  open_write dst s = Ok s' →
  ∃ i0, s' = set_fs s (<[dst := File i0 0%N]> (fs s)).
Proof.
  unfold open_write. destruct (reach (fs s) dst) as [[]|e]; [|done].
  destruct (fs s !! dst) as [[i0 d|]|].
  - destruct (m_w (i_mode i0)); [|done]. intros [= <-]. eauto.
  - done.
  - destruct (parent_for_update (fs s) dst); [|done]. intros [= <-]. eauto.
Qed.

Lemma read_file_lookup m src i data i' data' :
  m !! src = Some (File i data) → read_file m src = Ok (i', data') →
  i' = i ∧ data' = data.
Proof.
  intros Hsrc. unfold read_file.
  destruct (os_stat m src) as [n|] eqn:Hst; [|done].
  apply os_stat_lookup in Hst. rewrite Hsrc in Hst. injection Hst as <-.
  destruct (m_r (i_mode i)); [|done]. by intros [= <- <-].
Qed.

(** Copying a regular file leaves it as it is; when the copy succeeds the
    destination, a different path, holds the same file. *)
Lemma copyfile_file src dst s r s' i data :
  fs s !! src = Some (File i data) →
  copyfile src dst s = (r, s') →
  fs s' !! src = Some (File i data) ∧
  (r = Ok tt → dst ≠ src ∧ ∃ i0, fs s' !! dst =
     Some (File {| i_mode := i_mode i0; i_size := i_size i; i_mtime := i_mtime i0 |} data)).
Proof.
  intros Hsrc. unfold copyfile. case_decide as Heq; [by intros [= <- <-]|].
  destruct (read_file (fs s) src) as [[i' data']|e] eqn:Hrd; [|by intros [= <- <-]].
  destruct (read_file_lookup _ _ _ _ _ _ Hsrc Hrd) as [-> ->].
  destruct (open_write dst s) as [s1|e] eqn:Hop.
  - apply open_write_ok in Hop as [i0 ->]. simpl.
    destruct (nospace s (dev_of (fs s) dst) && (0 <? i_size i)).
    + intros [= <- <-]. simpl. by rewrite lookup_insert_ne.
    + rewrite lookup_insert_eq. intros [= <- <-]. simpl. split.
      * by rewrite !lookup_insert_ne.
      * intros _. split; [done|]. rewrite lookup_insert_eq. eauto.
  - destruct e; try (by intros [= <- <-]).
    destruct (os_path_exists (fs s) dst); by intros [= <- <-].
Qed.

Lemma copystat_file src dst s r s' i data i0 :
  dst ≠ src →
  fs s !! src = Some (File i data) →
  fs s !! dst =
    Some (File {| i_mode := i_mode i0; i_size := i_size i; i_mtime := i_mtime i0 |} data) →
  copystat src dst s = (r, s') →
  fs s' !! src = Some (File i data) ∧
  (r = Ok tt → fs s' !! dst = Some (File i data)).
Proof.
  intros Hne Hsrc Hdst. unfold copystat.
  destruct (os_stat (fs s) src) as [n|e] eqn:Hst; [|by intros [= <- <-]].
  apply os_stat_lookup in Hst. rewrite Hsrc in Hst. injection Hst as <-.
  destruct (os_stat (fs s) dst) as [n|e] eqn:Hst'; [|by intros [= <- <-]].
  apply os_stat_lookup in Hst'. rewrite Hdst in Hst'. injection Hst' as <-.
  intros [= <- <-]. simpl. rewrite lookup_insert_ne by done.
  rewrite lookup_insert_eq. by destruct i.
Qed.

Lemma copy2_file src dst s r s' i data :
  fs s !! src = Some (File i data) →
  copy2 src dst s = (r, s') →
  fs s' !! src = Some (File i data) ∧
  (r = Ok tt → ∃ rd, rd ≠ src ∧ fs s' !! rd = Some (File i data)).
Proof.
  intros Hsrc. unfold copy2.
  set (rd := if os_path_isdir (fs s) dst then dst </> PurePath.name src else dst).
  destruct (copyfile src rd s) as [[[]|e] s1] eqn:Hcp.
  - apply (copyfile_file _ _ _ _ _ _ _ Hsrc) in Hcp as [Hsrc1 Hdst].
    destruct (Hdst eq_refl) as (Hne & i0 & Hdst1). intros Hcs.
    apply (copystat_file _ _ _ _ _ _ _ _ Hne Hsrc1 Hdst1) in Hcs as [Hsrc2 Hdst2].
    split; [done|]. intros ->. exists rd. auto.
  - intros [= <- <-].
    by apply (copyfile_file _ _ _ _ _ _ _ Hsrc) in Hcp as [Hsrc1 _].
Qed.

Lemma os_unlink_ok p s s' : os_unlink p s = Ok s' → fs s' = delete p (fs s).
Proof.
  unfold os_unlink. destruct (os_stat (fs s) p) as [[|]|]; try done.
  destruct (parent_for_update (fs s) p); [|done]. by intros [= <-].
Qed.

Lemma os_path_isdir_file m p i data :
  m !! p = Some (File i data) → os_path_isdir m p = false.
Proof.
  intros Hp. destruct (os_path_isdir m p) eqn:Hd; [|done].
  apply os_path_isdir_lookup in Hd as (? & ? & ?). congruence.
Qed.

(** [shutil.move] of a regular file: when it raises, the source is as it
    was; when it returns, the file is at its destination, whole, and no
    longer at the source unless the two are the same path. *)
Lemma move_file_source src dst s r s' i data :
  fs s !! src = Some (File i data) →
  move src dst s = (r, s') →
  match r with
  | Raise _ => fs s' !! src = Some (File i data)
  | Ok _ =>
      ∃ rd, fs s' !! rd = Some (File i data) ∧ (rd ≠ src → fs s' !! src = None)
  end.
Proof.
  intros Hsrc. unfold move.
  assert (∀ rd r s',
    match os_rename src rd s with
    | Ok s' => (Ok tt, s')
    | Raise _ =>
        if os_path_isdir (fs s) src then
          if decide (src `suffix_of` dst) then (Raise ShutilError, s)
          else
            match copytree false src rd s with
            | (Raise e, s1) => (Raise e, s1)
            | (Ok _, s1) => rmtree src s1
            end
        else
          match copy2 src rd s with
          | (Raise e, s1) => (Raise e, s1)
          | (Ok _, s1) => lift (os_unlink src) s1
          end
    end = (r, s') →
    match r with
    | Raise _ => fs s' !! src = Some (File i data)
    | Ok _ =>
        ∃ rd, fs s' !! rd = Some (File i data) ∧ (rd ≠ src → fs s' !! src = None)
    end) as Hrelocate.
  { clear r s'. intros rd r s'.
    destruct (os_rename src rd s) as [s1|e] eqn:Hren.
    - intros [= <- <-]. exists rd. by eapply os_rename_file.
    - rewrite (os_path_isdir_file _ _ _ _ Hsrc).
      destruct (copy2 src rd s) as [[[]|e'] s1] eqn:Hcp;
        apply (copy2_file _ _ _ _ _ _ _ Hsrc) in Hcp as [Hsrc1 Hdst].
      + destruct (Hdst eq_refl) as (rd' & Hne & Hrd').
        unfold lift. destruct (os_unlink src s1) as [s2|e'] eqn:Hun.
        * intros [= <- <-]. apply os_unlink_ok in Hun. exists rd'. rewrite Hun.
          rewrite lookup_delete_ne by done. split; [done|]. intros _.
          apply lookup_delete_eq.
        * by intros [= <- <-].
      + by intros [= <- <-]. }
  cbv zeta. destruct (os_path_isdir (fs s) dst) eqn:Hdir; [|apply Hrelocate].
  destruct (decide (src = dst)) as [Heq|Heq].
  - subst dst. by rewrite (os_path_isdir_file _ _ _ _ Hsrc) in Hdir.
  - destruct (os_path_exists (fs s) (dst </> PurePath.name src)).
    + by intros [= <- <-].
    + apply Hrelocate.
Qed.

End MoveFacts.

Section PosixTheorems.
Import Posix.
Implicit Types (s : state) (w : @world state) (p k src dst : path).

Lemma create_folder_os p w :
  os (snd (create_folder p w)) = snd (mkdir p (os w)).
Proof.
  rewrite create_folder_run. simpl.
  by destruct (mkdir p (os w)) as [[[]|e] s].
Qed.

(** C7. When [move_file] reports a failure for a regular file, the file is
    still at its source path with its content and metadata; when it
    reports success the file is at its destination, whole, and gone from
    the source unless the two are the same path.  Either way the file is
    somewhere, whole. *)
Theorem move_file_failure_keeps_source (src dst : path) w (i : inode) (data : N)
    (b : bool) w' :
  fs (os w) !! src = Some (File i data) →
  move_file src dst w = (Ok b, w') →
  (b = false → fs (os w') !! src = Some (File i data)) ∧
  (b = true → ∃ rd, fs (os w') !! rd = Some (File i data) ∧
                    (rd ≠ src → fs (os w') !! src = None)) ∧
  (∃ rd, fs (os w') !! rd = Some (File i data)).
Proof.
  intros Hsrc. rewrite move_file_run. simpl.
  pose proof (create_folder_os (PurePath.parent dst) w) as Hos.
  set (w1 := snd (create_folder (PurePath.parent dst) w)) in *.
  assert (fs (os w1) !! src = Some (File i data)) as Hsrc1.
  { rewrite Hos. destruct (mkdir _ (os w)) as [r s1] eqn:Hmk.
    by eapply mkdir_preserves. }
  destruct (move src dst (os w1)) as [[[]|e] s2] eqn:Hmv;
    apply (move_file_source _ _ _ _ _ _ _ Hsrc1) in Hmv; intros [= <- <-]; simpl.
  - destruct Hmv as (rd & Hrd & Hgone). split; [done|]. split.
    + intros _. exists rd. by split.
    + by exists rd.
  - split; [done|]. split; [done|]. by exists src.
Qed.

(** C9. [create_folder] is idempotent: called twice in succession it
    returns the same flag both times and the second call leaves the file
    system as the first call left it; when the flag is [True] the folder
    is there, as a directory, once; and on a folder that is already there
    the call returns [True] and changes nothing. *)
Theorem create_folder_idempotent (p : path) w :
  ∃ b w1 w2,
    create_folder p w = (Ok b, w1) ∧
    create_folder p w1 = (Ok b, w2) ∧
    os w2 = os w1 ∧
    (b = true → ∃ i dev, os_stat (fs (os w1)) p = Ok (Dir i dev)) ∧
    ((∃ i dev, os_stat (fs (os w)) p = Ok (Dir i dev)) → b = true ∧ os w1 = os w).
Proof.
  rewrite create_folder_run. simpl.
  destruct (mkdir p (os w)) as [[[]|e] s1] eqn:Hmk.
  - destruct (mkdir_is_dir _ _ _ Hmk) as (i & dev & Hst).
    eexists true, _, _. split; [reflexivity|]. rewrite create_folder_run. simpl.
    rewrite (mkdir_existing _ _ _ _ Hst). split; [reflexivity|]. simpl.
    split; [done|]. split; [eauto|].
    intros (i' & dev' & Hst'). rewrite (mkdir_existing _ _ _ _ Hst') in Hmk.
    by injection Hmk as <-.
  - destruct (mkdir_fail_again _ _ _ _ Hmk) as [e' Hagain].
    eexists false, _, _. split; [reflexivity|]. rewrite create_folder_run. simpl.
    rewrite Hagain. split; [reflexivity|]. simpl.
    split; [done|]. split; [done|].
    intros (i' & dev' & Hst'). by rewrite (mkdir_existing _ _ _ _ Hst') in Hmk.
Qed.

(** With an extension, [list_files] returns what [glob] selects, by name
    alone: no entry is left out for being a directory. *)
Lemma list_files_extension folder c ext w :
  list_files folder (Some (String c ext)) w =
    match glob folder ("*" +:+ String c ext) (os w) with
    | Ok l => (Ok l, World (os w) (log w ++ [FoundFiles (length l) folder]))
    | Raise e => (Ok [], World (os w) (log w ++ [ErrListingFiles folder e]))
    end.
Proof.
  rewrite list_files_glob_run. simpl. unfold Posix.pure.
  by destruct (glob folder _ (os w)).
Qed.

Lemma glob_selected folder pattern s l k :
  glob folder pattern s = Ok l → k ∈ l →
  fnmatch pattern (PurePath.name k) = true ∧ k ∈ children (fs s) folder.
Proof.
  unfold glob. destruct (is_dir folder s) as [[]|]; try done.
  - destruct (os_scandir (fs s) folder) as [entries|] eqn:Hscan.
    + intros [= <-] Hk. apply list_elem_of_filter in Hk as [Hmatch Hk].
      split; [done|]. unfold os_scandir in Hscan.
      destruct (os_stat (fs s) folder) as [[|i dev]|]; try done.
      destruct (m_r (i_mode i)); [|done]. by injection Hscan as <-.
    + intros [= <-] Hk. by apply not_elem_of_nil in Hk.
  - intros [= <-] Hk. by apply not_elem_of_nil in Hk.
Qed.

(** The files [organize_excel_files] enumerates have a name. *)
Lemma enumerated_has_name folder ext w l w' f :
  ext = ".xlsx" ∨ ext = ".xls" →
  list_files folder (Some ext) w = (Ok l, w') → f ∈ l → PurePath.name f ≠ "".
Proof.
  intros Hext Hl Hf Hname.
  assert (∃ c ext', ext = String c ext' ∧ fnmatch ("*" +:+ ext) "" = false)
    as (c & ext' & -> & Hno) by (destruct Hext as [-> | ->]; eauto).
  rewrite list_files_extension in Hl.
  destruct (glob folder _ (os w)) as [l0|e] eqn:Hglob; injection Hl as <- <-.
  - destruct (glob_selected _ _ _ _ _ Hglob Hf) as [Hmatch _].
    rewrite Hname in Hmatch. congruence.
  - by apply not_elem_of_nil in Hf.
Qed.

End PosixTheorems.

Section NameCriterion.
Context {S : Type} `{!Library S}.

(** However the moves go, the loop gets through files that have names
    when the bucket is taken from the name. *)
Lemma buckets_computed_by_name source crit files (w : @world S) :
  crit ≠ "date" → crit ≠ "size" →
  (∀ f, f ∈ files → PurePath.name f ≠ "") →
  buckets_computed source crit files w.
Proof.
  intros Hdate Hsize. revert w. induction files as [|f files IH]; intros w Hnames.
  - done.
  - simpl.
    destruct (dest_folder_by_name source crit f w Hdate Hsize)
      as (c & rest & _ & ->); [apply Hnames; left|].
    apply IH. intros f' Hf'. apply Hnames. by right.
Qed.
End NameCriterion.

(** * The methods run on sample file systems *)

Example to_str_example :
  PurePath.to_str (PurePath.of_parts ["a"; "."; "b"; "c.xlsx"]) = "a/b/c.xlsx".
Proof. reflexivity. Qed.

Example stem_suffix_examples :
  PurePath.stem ["report.tar.xlsx"; "a"] = "report.tar" ∧
  PurePath.suffix ["report.tar.xlsx"; "a"] = ".xlsx" ∧
  PurePath.stem [".xlsx"] = ".xlsx" ∧ PurePath.suffix [".xlsx"] = "" ∧
  PurePath.stem ["a."] = "a." ∧ PurePath.stem ["..xlsx"] = "." ∧
  PurePath.stem [] = "".
Proof. repeat split; reflexivity. Qed.

Example strftime_examples :
  strftime_stamp {| year := 2024; month := 3; day := 5;
                    hour := 10; minute := 0; second := 7 |} = "20240305_100007" ∧
  strftime_month (Posix.localtime (os Sample.project) 1710496800) = "2024-03".
Proof. split; reflexivity. Qed.

Example upper_example : upper "a1z{`Z" = "A1Z{`Z".
Proof. reflexivity. Qed.

(** An empty stem has no first character: computing the bucket raises. *)
Example dest_folder_empty_stem :
  fst (dest_folder Sample.proj "name" [] Sample.project) = Raise IndexError.
Proof. reflexivity. Qed.

(** Section 8 of the specification, end to end: a.xlsx goes to small, b.xls
    to large, and so does the folder named archive.xlsx, to small. *)
Example organize_by_size_example :
  let r := organize_excel_files Sample.proj "size" Sample.project in
  fst r = Ok true ∧
  move_attempts (log (snd r)) =
    [Sample.P ["proj"; "archive.xlsx"]; Sample.P ["proj"; "a.xlsx"];
     Sample.P ["proj"; "b.xls"]] ∧
  Posix.fs (os (snd r)) !! Sample.P ["proj"; "organized_by_size"; "small"; "a.xlsx"]
    = Some (Sample.regular 2048 1704103200 11) ∧
  Posix.fs (os (snd r)) !! Sample.P ["proj"; "organized_by_size"; "large"; "b.xls"]
    = Some (Sample.regular 20971520 1717236000 12) ∧
  Posix.fs (os (snd r)) !! Sample.P ["proj"; "a.xlsx"] = None ∧
  Posix.fs (os (snd r)) !! Sample.P ["proj"; "b.xls"] = None.
Proof. vm_compute. repeat split; reflexivity. Qed.

(** The moves into [small] fail, the loop goes on, b.xls is moved. *)
Example organize_goes_on_after_failed_moves :
  let r := organize_excel_files Sample.proj "size" Sample.blocked in
  fst r = Ok true ∧
  filter (λ ev, is_Some (move_attempt ev)) (log (snd r)) =
    [ ErrMovingFile (Sample.P ["proj"; "archive.xlsx"])
        (Sample.P ["proj"; "organized_by_size"; "small"; "archive.xlsx"])
        NotADirectoryError;
      ErrMovingFile (Sample.P ["proj"; "a.xlsx"])
        (Sample.P ["proj"; "organized_by_size"; "small"; "a.xlsx"])
        NotADirectoryError;
      FileMoved (Sample.P ["proj"; "b.xls"])
        (Sample.P ["proj"; "organized_by_size"; "large"; "b.xls"]) ].
Proof. vm_compute. split; reflexivity. Qed.

(** Every move fails, and [True] is returned. *)
Example organize_true_though_every_move_fails :
  let r := organize_excel_files Sample.proj "size" Sample.walled in
  fst r = Ok true ∧
  level_of <$> filter (λ ev, is_Some (move_attempt ev)) (log (snd r)) =
    [ERROR; ERROR; ERROR] ∧
  Posix.fs (os (snd r)) !! Sample.P ["proj"; "a.xlsx"] =
    Some (Sample.regular 2048 1704103200 11) ∧
  Posix.fs (os (snd r)) !! Sample.P ["proj"; "b.xls"] =
    Some (Sample.regular 20971520 1717236000 12).
Proof. vm_compute. repeat split; reflexivity. Qed.

(** [stat] raises on a file of a folder that may not be searched: [False]. *)
Example organize_false_when_stat_raises :
  let r := organize_excel_files Sample.proj "size" Sample.unsearchable in
  fst r = Ok false ∧ last (log (snd r)) = Some (ErrOrganizing PermissionError).
Proof. vm_compute. split; reflexivity. Qed.

(** C2. The backup of a file that does not exist: the copy fails and is
    logged as an error, no backup file is produced, and the method returns
    the path the backup would have had, not the empty string.  The same
    when the backup folder cannot be created. *)
Theorem backup_returns_path_after_failed_copy :
  let missing := backup_excel_file Sample.handler (Sample.P ["proj"; "missing.xlsx"])
                   None Sample.project in
  let target := Sample.P ["proj"; "backups"; "missing_backup_20240315_100000.xlsx"] in
  fst missing = Ok "proj/backups/missing_backup_20240315_100000.xlsx" ∧
  last (log (snd missing)) =
    Some (ErrCopyingFile (Sample.P ["proj"; "missing.xlsx"]) target FileNotFoundError) ∧
  Posix.fs (os (snd missing)) !! target = None ∧
  let blocked := backup_excel_file Sample.handler (Sample.P ["proj"; "a.xlsx"])
                   None Sample.no_backups in
  let target := Sample.P ["proj"; "backups"; "a_backup_20240315_100000.xlsx"] in
  fst blocked = Ok "proj/backups/a_backup_20240315_100000.xlsx" ∧
  log (snd blocked) =
    [ ErrCreatingFolder (Sample.P ["proj"; "backups"]) FileExistsError;
      ErrCreatingFolder (Sample.P ["proj"; "backups"]) FileExistsError;
      ErrCopyingFile (Sample.P ["proj"; "a.xlsx"]) target NotADirectoryError ] ∧
  Posix.fs (os (snd blocked)) !! target = None.
Proof. vm_compute. repeat split; reflexivity. Qed.

(** C3. With an extension, [list_files] returns the folder named
    archive.xlsx along with the file a.xlsx; without one, on the same
    folder, directories are left out. *)
Theorem list_files_returns_directories :
  fst (list_files Sample.proj (Some ".xlsx") Sample.project) =
    Ok [Sample.P ["proj"; "archive.xlsx"]; Sample.P ["proj"; "a.xlsx"]] ∧
  Posix.fs (os Sample.project) !! Sample.P ["proj"; "archive.xlsx"] =
    Some (Sample.directory Posix.rwx) ∧
  fst (list_files Sample.proj None Sample.project) =
    Ok [Sample.P ["proj"; "a.xlsx"]; Sample.P ["proj"; "notes.txt"];
        Sample.P ["proj"; "b.xls"]].
Proof. vm_compute. repeat split; reflexivity. Qed.

(** * The theorems at concrete inputs *)

Lemma size_bucket_thresholds_witness :
  ∃ bucket,
    dest_folder Sample.proj "size" (Sample.P ["proj"; "b.xls"]) Sample.project =
      (Ok (bucket :: "organized_by_size" :: Sample.proj), Sample.project) ∧
    bucket = "large".
Proof.
  destruct (size_bucket_thresholds Sample.proj (Sample.P ["proj"; "b.xls"])
              Sample.project {| st_size := 20971520; st_mtime := 1717236000 |}
              (os Sample.project))
    as (bucket & Hd & _ & _ & _ & Hlarge & _).
  - vm_compute. reflexivity.
  - exists bucket. split; [exact Hd|]. apply Hlarge. simpl. lia.
Defined.

Lemma organize_attempts_every_file_witness :
  let xs := [Sample.P ["proj"; "archive.xlsx"]; Sample.P ["proj"; "a.xlsx"]] in
  let ys := [Sample.P ["proj"; "b.xls"]] in
  let w1 := snd (list_files Sample.proj (Some ".xlsx") Sample.blocked) in
  let w2 := snd (list_files Sample.proj (Some ".xls") w1) in
  let w' := snd (organize_excel_files Sample.proj "size" Sample.blocked) in
  ∃ new, log w' = log w2 ++ new ∧ move_attempts new = xs ++ ys.
Proof.
  intros xs ys w1 w2 w'.
  apply (organize_attempts_every_file Sample.proj "size" Sample.blocked xs ys w1 w2 w');
    vm_compute; reflexivity.
Defined.


Lemma move_file_failure_keeps_source_witness :
  let src := Sample.P ["proj"; "a.xlsx"] in
  let dst := Sample.P ["proj"; "organized_by_size"; "small"; "a.xlsx"] in
  let w' := snd (move_file src dst Sample.blocked) in
  fst (move_file src dst Sample.blocked) = Ok false ∧
  Posix.fs (os w') !! src = Some (Sample.regular 2048 1704103200 11).
Proof.
  intros src dst w'. split; [vm_compute; reflexivity|].
  apply (move_file_failure_keeps_source src dst Sample.blocked
           {| Posix.i_mode := Posix.rw_; Posix.i_size := 2048;
              Posix.i_mtime := 1704103200 |} 11%N false w').
  - vm_compute. reflexivity.
  - vm_compute. reflexivity.
  - reflexivity.
Defined.

Lemma create_folder_idempotent_witness :
  let p := Sample.P ["proj"; "data"; "raw"] in
  ∃ w1 w2,
    create_folder p Sample.project = (Ok true, w1) ∧
    create_folder p w1 = (Ok true, w2) ∧ os w2 = os w1 ∧
    ∃ i dev, Posix.os_stat (Posix.fs (os w1)) p = Ok (Posix.Dir i dev).
Proof.
  intros p.
  destruct (create_folder_idempotent p Sample.project)
    as (b & w1 & w2 & H1 & H2 & Hos & Hdir & _).
  assert (b = true) as ->.
  { assert (fst (create_folder p Sample.project) = Ok true) as Hb
      by (vm_compute; reflexivity).
    rewrite H1 in Hb. by injection Hb. }
  exists w1, w2. repeat split; [exact H1|exact H2|exact Hos|].
  apply Hdir. reflexivity.
Defined.

Lemma organize_result_ignores_moves_witness :
  let xs := [Sample.P ["proj"; "archive.xlsx"]; Sample.P ["proj"; "a.xlsx"]] in
  let ys := [Sample.P ["proj"; "b.xls"]] in
  let w1 := snd (list_files Sample.proj (Some ".xlsx") Sample.walled) in
  let w2 := snd (list_files Sample.proj (Some ".xls") w1) in
  ∃ b w',
    organize_excel_files Sample.proj "size" Sample.walled = (Ok b, w') ∧
    (b = true ↔ buckets_computed Sample.proj "size" (xs ++ ys) w2) ∧
    (b = false → ∃ e, last (log w') = Some (ErrOrganizing e)).
Proof.
  intros xs ys w1 w2.
  apply (organize_result_ignores_moves Sample.proj "size" Sample.walled xs ys w1 w2);
    vm_compute; reflexivity.
Defined.

(** * More about [FileHandler], for any library *)

Section MoreAppTheorems.
Context {S : Type} `{!Library S}.
Implicit Types (w : @world S) (p : path).

Lemma create_project_loop_run (self : FileHandler) folders success w :
  ∃ b w' evs,
    create_project_loop self folders success w = (Ok b, w') ∧
    log w' = log w ++ evs ∧
    omap folder_event evs = PurePath.joinstr (base_folder self) <$> folders ∧
    length evs = length folders ∧
    (b = true ↔ success = true ∧ Forall (λ ev, level_of ev = INFO) evs).
Proof.
  revert success w. induction folders as [|folder folders IH]; intros success w.
  - exists success, w, []. simpl. rewrite app_nil_r.
    repeat split; try done. by intros [-> _].
  - simpl. run.
    set (folder_path := PurePath.joinstr (base_folder self) folder).
    destruct (create_folder_returns folder_path w) as (ok & ev & s & Hrun & Hlevel & _).
    assert (folder_event ev = Some folder_path) as Hfolder.
    { rewrite create_folder_run in Hrun.
      destruct (path_mkdir folder_path (os w)) as [[u|e] s'];
        injection Hrun as _ _ Hev; apply app_inj_tail in Hev as [_ <-]; done. }
    rewrite Hrun.
    destruct (IH (if ok then success else false) (World s (log w ++ [ev])))
      as (b & w' & evs & Hloop & Hlog & Hfolders & Hlen & Hb).
    exists b, w', (ev :: evs). split; [exact Hloop|]. split.
    { rewrite Hlog. simpl. by rewrite <- app_assoc. }
    split.
    { change (ev :: evs) with ([ev] ++ evs). rewrite omap_app, Hfolders.
      simpl. by rewrite Hfolder. }
    split; [simpl; by rewrite Hlen|].
    rewrite Hb, Forall_cons, Hlevel. destruct ok.
    + split; [intros [-> HF]|intros [-> [_ HF]]]; auto.
    + split; [by intros [? _]|by intros [_ [? _]]].
Qed.

(** X1. [create_project_structure] tries every folder, in order, also
    after one of them could not be created: the log gains one message per
    folder, about [base / folder]; the flag is [True] exactly when all of
    these are INFO messages. *)
Theorem create_project_structure_tries_all (self : FileHandler)
    (folders : list string) w :
  ∃ b w' evs,
    create_project_structure self folders w = (Ok b, w') ∧
    log w' = log w ++ evs ∧
    omap folder_event evs = PurePath.joinstr (base_folder self) <$> folders ∧
    length evs = length folders ∧
    (b = true ↔ Forall (λ ev, level_of ev = INFO) evs).
Proof.
  destruct (create_project_loop_run self folders true w)
    as (b & w' & evs & Hrun & Hlog & Hfolders & Hlen & Hb).
  exists b, w', evs. split; [exact Hrun|]. split; [exact Hlog|].
  split; [exact Hfolders|]. split; [exact Hlen|].
  rewrite Hb. split; [by intros [_ HF]|by intros HF].
Qed.

Lemma create_project_structure_run_aux (self : FileHandler) folders w :
  ∃ b w' evs,
    create_project_structure self folders w = (Ok b, w') ∧
    log w' = log w ++ evs ∧
    omap folder_event evs = PurePath.joinstr (base_folder self) <$> folders ∧
    length evs = length folders.
Proof.
  destruct (create_project_loop_run self folders true w)
    as (b & w' & evs & Hrun & Hlog & Hfolders & Hlen & _).
  by exists b, w', evs.
Qed.

Lemma init_run (base : path) w :
  ∃ ev s,
    init base w = (Ok {| base_folder := base |}, World s (log w ++ [ev])) ∧
    folder_event ev = Some base.
Proof.
  unfold init. run. rewrite create_folder_run.
  destruct (path_mkdir base (os w)) as [[u|e] s]; eauto.
Qed.

Lemma for_each_ext {A} (l : list A) (f g : A → @M S unit) w :
  (∀ x w, f x w = g x w) → for_each l f w = for_each l g w.
Proof.
  intros Hfg. revert w. induction l as [|x l IH]; intros w; simpl; [done|].
  run. rewrite Hfg. destruct (g x w) as [[u|e] w1]; [apply IH|done].
Qed.

(** X2. Any criterion other than 'date' and 'size' is the criterion
    'name': a criterion that is misspelt, or written in capitals, makes
    [organize_excel_files] organize by first letter. *)
Theorem organize_unknown_criterion_is_name (source : path) (organize_by : string) w :
  organize_by ≠ "date" → organize_by ≠ "size" →
  organize_excel_files source organize_by w = organize_excel_files source "name" w.
Proof.
  intros Hdate Hsize. rewrite !organize_excel_files_run.
  destruct (list_files source (Some ".xlsx") w) as [[xs|e] w1]; [|done].
  destruct (list_files source (Some ".xls") w1) as [[ys|e] w2]; [|done].
  rewrite (for_each_ext _ (organize_one source organize_by) (organize_one source "name"));
    [done|].
  intros f w0. rewrite !organize_one_run.
  unfold dest_folder. rewrite !decide_False by done. reflexivity.
Qed.

(** X3. [main] returns, whatever the library does.  It prints its four
    lines, the third with the number of paths [list_files] got for the
    extension '.py' in the current directory; before that, it has tried
    to create the base folder and the six folders of the project, in
    order. *)
Theorem main_runs w :
  ∃ (n : nat) w' evs ev,
    main w =
      (Ok [ "Creating project structure...";
            String (ascii_of_nat 10) "Example operations:";
            "Python files in current directory: " +:+ str_of_nat n;
            "File handler operations completed!" ], w') ∧
    log w' = log w ++ evs ++ [ev] ∧
    omap folder_event evs =
      [ ["excel_project"];
        ["raw"; "data"; "excel_project"];
        ["processed"; "data"; "excel_project"];
        ["backup"; "data"; "excel_project"];
        ["reports"; "excel_project"];
        ["templates"; "excel_project"];
        ["logs"; "excel_project"] ] ∧
    length evs = 7%nat ∧
    (ev = FoundFiles n [] ∨ n = 0%nat ∧ ∃ e, ev = ErrListingFiles [] e).
Proof.
  unfold main. run.
  destruct (init_run (PurePath.of_str "excel_project") w) as (ev0 & s0 & -> & Hev0).
  destruct (create_project_structure_run_aux
              {| base_folder := PurePath.of_str "excel_project" |} project_folders
              (World s0 (log w ++ [ev0])))
    as (b & w1 & evs & -> & Hlog & Hfolders & Hlen).
  simpl in Hlog.
  assert (omap folder_event (ev0 :: evs) =
    [ ["excel_project"];
      ["raw"; "data"; "excel_project"];
      ["processed"; "data"; "excel_project"];
      ["backup"; "data"; "excel_project"];
      ["reports"; "excel_project"];
      ["templates"; "excel_project"];
      ["logs"; "excel_project"] ]) as Hall.
  { change (ev0 :: evs) with ([ev0] ++ evs). rewrite omap_app, Hfolders.
    simpl omap. rewrite Hev0. vm_compute. reflexivity. }
  rewrite list_files_glob_run.
  destruct (path_glob _ _ (os w1)) as [[l|e] s2].
  - exists (length l), (World s2 (log w1 ++ [FoundFiles (length l) []])),
      (ev0 :: evs), (FoundFiles (length l) []).
    split; [reflexivity|]. split; [simpl; rewrite Hlog, <- !app_assoc; reflexivity|].
    split; [exact Hall|]. split; [simpl; by rewrite Hlen|]. by left.
  - exists 0%nat, (World s2 (log w1 ++ [ErrListingFiles [] e])),
      (ev0 :: evs), (ErrListingFiles [] e).
    split; [reflexivity|]. split; [simpl; rewrite Hlog, <- !app_assoc; reflexivity|].
    split; [exact Hall|]. split; [simpl; by rewrite Hlen|]. right. eauto.
Qed.

End MoreAppTheorems.

(** * More about the reference library: folders *)

Section FolderFacts.
Import Posix PosixProps.
Implicit Types (s : state) (w : @world state) (m : gmap path node) (p q k : path).

Lemma suffix_cons_cases q c par :
  q `suffix_of` c :: par → q = c :: par ∨ q `suffix_of` par.
Proof.
  intros [[|x k] Hk]; simpl in Hk; [by left|].
  injection Hk as -> ->. right. by exists k.
Qed.

Lemma extends_refl m : extends m m.
Proof. by intros k n. Qed.

Lemma extends_trans m1 m2 m3 : extends m1 m2 → extends m2 m3 → extends m1 m3.
Proof. intros H12 H23 k n Hk. by apply H23, H12. Qed.

Lemma reach_extends m m' p : extends m m' → reach m p = Ok tt → reach m' p = Ok tt.
Proof.
  intros Hext. induction p as [|c par IH]; simpl; [done|].
  destruct (reach m par) as [[]|]; [|done]. rewrite IH by done.
  destruct (m !! par) as [n|] eqn:Hpar; [|done].
  by rewrite (Hext _ _ Hpar).
Qed.

(** What can be seen stays to be seen, the same, when entries are added. *)
Lemma os_stat_extends m m' p n :
  extends m m' → os_stat m p = Ok n → os_stat m' p = Ok n.
Proof.
  intros Hext. unfold os_stat.
  destruct (reach m p) as [[]|] eqn:Hr; [|done].
  rewrite (reach_extends _ _ _ Hext Hr).
  destruct (m !! p) as [n'|] eqn:Hp; [|done].
  by rewrite (Hext _ _ Hp).
Qed.

Lemma mkdir_extends p s r s' : mkdir p s = (r, s') → extends (fs s) (fs s').
Proof. intros Hrun k n. by eapply mkdir_preserves. Qed.

Lemma create_folder_extends (p : path) w (b : bool) w' :
  create_folder p w = (Ok b, w') → extends (fs (os w)) (fs (os w')).
Proof.
  intros Hrun. pose proof (create_folder_os p w) as Hos. rewrite Hrun in Hos.
  simpl in Hos. rewrite Hos.
  destruct (mkdir p (os w)) as [r s'] eqn:Hmk. by eapply mkdir_extends.
Qed.

Lemma create_folder_is_dir_aux (p : path) w w' :
  create_folder p w = (Ok true, w') →
  ∃ i dev, os_stat (fs (os w')) p = Ok (Dir i dev).
Proof.
  rewrite create_folder_run. simpl.
  destruct (mkdir p (os w)) as [[[]|e] s'] eqn:Hmk; [|done].
  intros [= <-]. by eapply mkdir_is_dir.
Qed.

Lemma preserved_refl (n : node) : preserved n n.
Proof. by destruct n. Qed.

Lemma extends_keeps m m' : extends m m' → keeps m m'.
Proof. intros Hext k n Hk. exists n. split; [by apply Hext|apply preserved_refl]. Qed.

(** X4. [create_folder] never removes an entry of the file system and
    never changes a regular file, whether it succeeds or fails; a
    directory stays a directory on its device. *)
Theorem create_folder_keeps_entries (p : path) w (b : bool) w' :
  create_folder p w = (Ok b, w') → keeps (fs (os w)) (fs (os w')).
Proof.
  intros Hrun. by eapply extends_keeps, create_folder_extends.
Qed.

(** Everything above a path that can be seen is a directory. *)
Lemma os_stat_ancestors m p n q :
  os_stat m p = Ok n → q `suffix_of` p → q ≠ p →
  ∃ i dev, os_stat m q = Ok (Dir i dev).
Proof.
  revert n. induction p as [|c par IH]; intros n Hst Hq Hne.
  - apply suffix_nil_inv in Hq. done.
  - apply os_stat_parent in Hst as (i & dev & Hpar).
    apply suffix_cons_cases in Hq as [->|Hq]; [done|].
    destruct (decide (q = par)) as [->|Hne']; [eauto|].
    by eapply IH.
Qed.

(** X5. After a [create_folder] that succeeded, the folder and every one
    of its ancestors is a directory. *)
Theorem create_folder_makes_ancestors (p : path) w w' (q : path) :
  create_folder p w = (Ok true, w') → q `suffix_of` p →
  ∃ i dev, os_stat (fs (os w')) q = Ok (Dir i dev).
Proof.
  intros Hrun Hq. rewrite create_folder_run in Hrun. simpl in Hrun.
  destruct (mkdir p (os w)) as [[[]|e] s'] eqn:Hmk; [|done].
  injection Hrun as <-. simpl.
  destruct (mkdir_is_dir _ _ _ Hmk) as (i & dev & Hst).
  destruct (decide (q = p)) as [->|Hne]; [eauto|].
  by eapply os_stat_ancestors.
Qed.



End FolderFacts.

Section ChainFacts.
Import Posix PosixProps.
Implicit Types (s : state) (w : @world state) (m : gmap path node) (p q k : path).




Lemma reach_cons m c par :
  reach m (c :: par) =
    match reach m par with
    | Raise e => Raise e
    | Ok _ =>
        match m !! par with
        | None => Raise FileNotFoundError
        | Some (File _ _) => Raise NotADirectoryError
        | Some (Dir i _) =>
            if m_x (i_mode i) then Ok tt else Raise PermissionError
        end
    end.
Proof. reflexivity. Qed.

Lemma mkdir_cons c par s :
  mkdir (c :: par) s =
    match os_mkdir (c :: par) s with
    | Ok s' => (Ok tt, s')
    | Raise FileNotFoundError =>
        match mkdir par s with
        | (Raise e, s1) => (Raise e, s1)
        | (Ok _, s1) => mkdir_exist_ok (c :: par) s1
        end
    | Raise e => unless_is_dir e (c :: par) s
    end.
Proof. reflexivity. Qed.





Lemma create_project_loop_dirs (self : FileHandler) folders success w w' :
  create_project_loop self folders success w = (Ok true, w') →
  extends (fs (os w)) (fs (os w')) ∧
  ∀ folder, folder ∈ folders →
    ∃ i dev, os_stat (fs (os w')) (PurePath.joinstr (base_folder self) folder)
             = Ok (Dir i dev).
Proof.
  revert success w. induction folders as [|folder folders IH]; intros success w.
  - simpl. intros [= _ <-]. split; [apply extends_refl|].
    intros folder Hin. by apply not_elem_of_nil in Hin.
  - simpl. run.
    set (folder_path := PurePath.joinstr (base_folder self) folder).
    destruct (create_folder folder_path w) as [[ok|e] w1] eqn:Hcf; [|done].
    intros Hloop. pose proof (create_folder_extends _ _ _ _ Hcf) as Hext1.
    destruct (IH _ _ Hloop) as [Hext Hdirs]. split; [by eapply extends_trans|].
    intros f [->|Hin]%elem_of_cons; [|by apply Hdirs].
    destruct ok.
    + destruct (create_folder_is_dir_aux _ _ _ Hcf) as (i & dev & Hst).
      exists i, dev. by eapply os_stat_extends.
    + destruct (create_project_loop_run self folders false w1)
        as (b & w2 & evs & Hrun & _ & _ & _ & Hb).
      rewrite Hloop in Hrun. injection Hrun as <- _.
      destruct Hb as [Hb _]. by destruct (Hb eq_refl).
Qed.

Lemma joinstr_below (base : path) (folder : string) :
  String.prefix "/" folder = false →
  base `suffix_of` PurePath.joinstr base folder.
Proof.
  intros Hrel. unfold PurePath.joinstr. rewrite Hrel.
  generalize (PurePath.split "/" folder). intros l. revert base.
  induction l as [|c l IH]; intros base; simpl; [done|].
  etrans; [|apply IH]. unfold PurePath.joinpath.
  case_decide; [done|]. by apply suffix_cons_r.
Qed.

(** X8. When [create_project_structure] returns [True], each of the
    folders that is given relative and without [..], nested or not, is a
    directory inside the base folder; no entry that was there has been
    removed and no regular file has been changed. *)
Theorem create_project_structure_creates_all (self : FileHandler)
    (folders : list string) w w' :
  create_project_structure self folders w = (Ok true, w') →
  keeps (fs (os w)) (fs (os w')) ∧
  ∀ folder, folder ∈ folders → goes_down folder = true →
    base_folder self `suffix_of` PurePath.joinstr (base_folder self) folder ∧
    ∃ i dev, os_stat (fs (os w')) (PurePath.joinstr (base_folder self) folder)
             = Ok (Dir i dev).
Proof.
  intros Hrun. destruct (create_project_loop_dirs _ _ _ _ _ Hrun) as [Hext Hall].
  split; [by apply extends_keeps|].
  intros folder Hin [Hrel _]%andb_true_iff. split; [|by apply Hall].
  apply joinstr_below. by destruct (String.prefix "/" folder).
Qed.

End ChainFacts.

(** * More about the reference library: files *)

Section FileFacts.
Import Posix PosixProps.
Implicit Types (s : state) (w : @world state) (m : gmap path node).
Implicit Types (p q k src dst : path).

Lemma copyfile_frame src dst s r s' k :
  copyfile src dst s = (r, s') → k ≠ dst → fs s' !! k = fs s !! k.
Proof.
  unfold copyfile. case_decide; [by intros [= <- <-]|].
  destruct (read_file (fs s) src) as [[i data]|e]; [|by intros [= <- <-]].
  destruct (open_write dst s) as [s1|e] eqn:Hop.
  - apply open_write_ok in Hop as [i0 ->]. simpl.
    destruct (nospace s (dev_of (fs s) dst) && (0 <? i_size i)).
    + intros [= <- <-] Hk. simpl. by rewrite lookup_insert_ne.
    + rewrite lookup_insert_eq. intros [= <- <-] Hk. simpl.
      by rewrite !lookup_insert_ne.
  - destruct e; try (by intros [= <- <-]).
    destruct (os_path_exists (fs s) dst); by intros [= <- <-].
Qed.

Lemma copystat_frame src dst s r s' k :
  copystat src dst s = (r, s') → k ≠ dst → fs s' !! k = fs s !! k.
Proof.
  unfold copystat.
  destruct (os_stat (fs s) src) as [[i d|i dev]|e]; [| |by intros [= <- <-]];
    (destruct (os_stat (fs s) dst) as [[i0 d0|i0 dev0]|e]; [| |by intros [= <- <-]]);
    intros [= <- <-] Hk; simpl; by rewrite lookup_insert_ne.
Qed.

(** [copy2] writes at one path, the destination or the entry of that name
    inside it. *)
Lemma copy2_frame src dst s r s' k :
  copy2 src dst s = (r, s') → k ≠ copy_target (fs s) src dst →
  fs s' !! k = fs s !! k.
Proof.
  unfold copy2, copy_target.
  set (rd := if os_path_isdir (fs s) dst then dst </> PurePath.name src else dst).
  destruct (copyfile src rd s) as [[[]|e] s1] eqn:Hcp.
  - intros Hcs Hk. rewrite (copystat_frame _ _ _ _ _ _ Hcs Hk).
    by eapply copyfile_frame.
  - intros [= <- <-] Hk. by eapply copyfile_frame.
Qed.

Lemma copy2_file_target src dst s s' i data :
  fs s !! src = Some (File i data) →
  copy2 src dst s = (Ok tt, s') →
  copy_target (fs s) src dst ≠ src ∧
  fs s' !! copy_target (fs s) src dst = Some (File i data).
Proof.
  intros Hsrc. unfold copy2, copy_target.
  set (rd := if os_path_isdir (fs s) dst then dst </> PurePath.name src else dst).
  destruct (copyfile src rd s) as [[[]|e] s1] eqn:Hcp; [|done].
  apply (copyfile_file _ _ _ _ _ _ _ Hsrc) in Hcp as [Hsrc1 Hdst].
  destruct (Hdst eq_refl) as (Hne & i0 & Hdst1). intros Hcs.
  apply (copystat_file _ _ _ _ _ _ _ _ Hne Hsrc1 Hdst1) in Hcs as [_ Hdst2].
  split; [done|]. by apply Hdst2.
Qed.

Lemma copy_file_spec src dst w (i : inode) (data : N) (b : bool) w' :
  fs (os w) !! src = Some (File i data) →
  copy_file src dst w = (Ok b, w') →
  fs (os w') !! src = Some (File i data) ∧
  (b = true → ∃ rd, (rd = dst ∨ rd = dst </> PurePath.name src) ∧ rd ≠ src ∧
                    fs (os w') !! rd = Some (File i data)) ∧
  (∀ k n, fs (os w) !! k = Some n → k ≠ dst → k ≠ dst </> PurePath.name src →
          fs (os w') !! k = Some n).
Proof.
  intros Hsrc. rewrite copy_file_run. simpl.
  destruct (create_folder (PurePath.parent dst) w) as [r1 w1] eqn:Hcf.
  assert (extends (fs (os w)) (fs (os w1))) as Hext.
  { pose proof (create_folder_os (PurePath.parent dst) w) as Hos.
    rewrite Hcf in Hos. simpl in Hos. rewrite Hos.
    destruct (mkdir _ (os w)) as [r s1] eqn:Hmk. by eapply mkdir_extends. }
  simpl. pose proof (Hext _ _ Hsrc) as Hsrc1.
  assert (∀ k, k ≠ dst → k ≠ dst </> PurePath.name src →
               k ≠ copy_target (fs (os w1)) src dst) as Hother.
  { intros k H1 H2. unfold copy_target. by destruct (os_path_isdir _ dst). }
  destruct (copy2 src dst (os w1)) as [[[]|e] s2] eqn:Hcp;
    intros [= <- <-]; simpl.
  - destruct (copy2_file_target _ _ _ _ _ _ Hsrc1 Hcp) as [Hne Htarget].
    split; [|split].
    + rewrite (copy2_frame _ _ _ _ _ _ Hcp); [done|]. congruence.
    + intros _. exists (copy_target (fs (os w1)) src dst).
      split; [|done]. unfold copy_target. destruct (os_path_isdir _ dst); auto.
    + intros k n Hk H1 H2. rewrite (copy2_frame _ _ _ _ _ _ Hcp) by auto. by apply Hext.
  - destruct (copy2_file _ _ _ _ _ _ _ Hsrc1 Hcp) as [Hsrc2 _].
    split; [done|]. split; [done|].
    intros k n Hk H1 H2. rewrite (copy2_frame _ _ _ _ _ _ Hcp) by auto. by apply Hext.
Qed.

(** X9. [copy_file] of a regular file to a path that only goes down never
    changes the source.  When it returns [True] the same file, content
    and metadata, is at the destination (inside it, under the name of the
    source, if the destination is a directory).  Whatever it returns, no
    entry is removed, and apart from the destination no regular file is
    changed and every directory stays a directory. *)
Theorem copy_file_copies src dst w (i : inode) (data : N) (b : bool) w' :
  fs (os w) !! src = Some (File i data) →
  plain dst = true →
  copy_file src dst w = (Ok b, w') →
  fs (os w') !! src = Some (File i data) ∧
  (b = true → ∃ rd, (rd = dst ∨ rd = dst </> PurePath.name src) ∧ rd ≠ src ∧
                    fs (os w') !! rd = Some (File i data)) ∧
  (∀ k n, fs (os w) !! k = Some n → k ≠ dst → k ≠ dst </> PurePath.name src →
          ∃ n', fs (os w') !! k = Some n' ∧ preserved n n').
Proof.
  intros Hsrc _ Hrun.
  destruct (copy_file_spec _ _ _ _ _ _ _ Hsrc Hrun) as (Hkeep & Hcopied & Hframe).
  split; [done|]. split; [done|].
  intros k n Hk Hne1 Hne2. exists n. split; [by apply Hframe|apply preserved_refl].
Qed.

(** The folder of a file that can be seen: [mkdir] on it changes nothing. *)
Lemma mkdir_parent_of_visible p s n r s' :
  os_stat (fs s) p = Ok n → mkdir (PurePath.parent p) s = (r, s') → s' = s.
Proof.
  intros Hst Hmk. destruct p as [|c par].
  - simpl in Hmk. destruct (os_mkdir [] s) as [s1|e] eqn:Hos.
    + apply os_mkdir_ok in Hos as (_ & Hnone & _).
      apply os_stat_lookup in Hst. congruence.
    + destruct e; try (by injection Hmk); by apply unless_is_dir_inv in Hmk as [-> _].
  - apply os_stat_parent in Hst as (i & dev & Hpar). simpl in Hmk.
    rewrite (mkdir_existing _ _ _ _ Hpar) in Hmk. by injection Hmk.
Qed.

Lemma create_folder_parent_of_visible p w n :
  os_stat (fs (os w)) p = Ok n →
  ∃ b ev, create_folder (PurePath.parent p) w = (Ok b, World (os w) (log w ++ [ev])).
Proof.
  intros Hst. rewrite create_folder_run.
  destruct (mkdir (PurePath.parent p) (os w)) as [[[]|e] s'] eqn:Hmk; simpl;
    rewrite Hmk; rewrite (mkdir_parent_of_visible _ _ _ _ _ Hst Hmk); eauto.
Qed.

(** X10. Copying a regular file onto itself fails with SameFileError, and
    the file system is left as it is. *)
Theorem copy_file_onto_itself p w (i : inode) (data : N) :
  os_stat (fs (os w)) p = Ok (File i data) →
  ∃ ev, copy_file p p w =
          (Ok false, World (os w) (log w ++ [ev; ErrCopyingFile p p SameFileError])).
Proof.
  intros Hst. rewrite copy_file_run.
  destruct (create_folder_parent_of_visible p w _ Hst) as (b & ev & ->). simpl.
  assert (copy2 p p (os w) = (Raise SameFileError, os w)) as ->.
  { unfold copy2. rewrite (os_path_isdir_file _ _ i data) by by apply os_stat_lookup.
    unfold copyfile. by rewrite decide_True. }
  exists ev. by rewrite <- app_assoc.
Qed.

(** X11. Moving a regular file onto itself returns [True], and the file
    system is left as it is. *)
Theorem move_file_onto_itself p w (i : inode) (data : N) :
  os_stat (fs (os w)) p = Ok (File i data) →
  ∃ ev, move_file p p w =
          (Ok true, World (os w) (log w ++ [ev; FileMoved p p])).
Proof.
  intros Hst. rewrite move_file_run.
  destruct (create_folder_parent_of_visible p w _ Hst) as (b & ev & ->). simpl.
  assert (move p p (os w) = (Ok tt, os w)) as ->.
  { unfold move. rewrite (os_path_isdir_file _ _ i data) by by apply os_stat_lookup.
    unfold os_rename. unfold os_stat in Hst.
    destruct (reach (fs (os w)) p) as [[]|]; [|done].
    destruct (fs (os w) !! p); [|done]. by rewrite decide_True. }
  exists ev. by rewrite <- app_assoc.
Qed.

Lemma os_unlink_gone p m s : fs s = delete p m → ∃ e, os_unlink p s = Raise e.
Proof.
  intros Hfs. unfold os_unlink, os_stat. destruct (reach (fs s) p); [|eauto].
  rewrite Hfs, lookup_delete_eq. eauto.
Qed.

(** X12. [delete_file] on a path that only goes down: when it returns
    [True] it has removed a regular file, and only that entry: nothing is
    at the path any more, every other entry is still there (a regular
    file as it was, a directory as a directory), and nothing has been
    created; deleting once more then fails.  When it returns [False]
    nothing has changed; on a directory it always does. *)
Theorem delete_file_removes p w (b : bool) w' :
  plain p = true →
  delete_file p w = (Ok b, w') →
  (b = true →
     (∃ i data, fs (os w) !! p = Some (File i data)) ∧
     fs (os w') !! p = None ∧
     (∀ k n, k ≠ p → fs (os w) !! k = Some n →
             ∃ n', fs (os w') !! k = Some n' ∧ preserved n n') ∧
     (∀ k, fs (os w) !! k = None → fs (os w') !! k = None) ∧
     fst (delete_file p w') = Ok false) ∧
  (b = false → os w' = os w) ∧
  ((∃ i dev, fs (os w) !! p = Some (Dir i dev)) → b = false).
Proof.
  intros _.
  unfold delete_file. rewrite flag_method_run. unfold call. simpl. unfold lift.
  destruct (os_unlink p (os w)) as [s1|e] eqn:Hun; intros [= <- <-]; simpl.
  - pose proof (os_unlink_ok _ _ _ Hun) as Hfs.
    assert (∃ i data, fs (os w) !! p = Some (File i data)) as Hfile.
    { unfold os_unlink in Hun.
      destruct (os_stat (fs (os w)) p) as [[i data|]|] eqn:Hst; try done.
      apply os_stat_lookup in Hst. eauto. }
    split; [|split; [done|]].
    + intros _. split; [done|]. rewrite Hfs.
      split; [apply lookup_delete_eq|]. split; [|split].
      * intros k n Hne Hk. exists n. rewrite lookup_delete_ne by done.
        split; [done|apply preserved_refl].
      * intros k Hk. by rewrite lookup_delete_None; right.
      * rewrite flag_method_run. unfold call. simpl. unfold lift.
        destruct (os_unlink_gone p _ _ Hfs) as [e ->]. done.
    + intros (i & dev & Hdir). destruct Hfile as (i' & data' & Hfile). congruence.
  - split; [done|]. split; done.
Qed.

Lemma copy_file_total src dst w : ∃ b w', copy_file src dst w = (Ok b, w').
Proof.
  rewrite copy_file_run. cbv zeta.
  destruct (shutil_copy2 _ _ _) as [[[]|e] s]; eauto.
Qed.

Lemma copy_file_copied_last src dst w (b : bool) w' bp :
  copy_file src dst w = (Ok b, w') →
  last (log w') = Some (FileCopied src bp) → b = true ∧ bp = dst.
Proof.
  rewrite copy_file_run. cbv zeta.
  destruct (shutil_copy2 _ _ _) as [[[]|e] s]; intros [= <- <-]; simpl;
    rewrite last_snoc; by intros [= <-].
Qed.

(** X13. [backup_excel_file] of a regular file never changes it; and when
    the last message of the log says that the file was copied, the backup
    holds the same content and metadata. *)
Theorem backup_keeps_source (self : FileHandler) src (backup_folder : option path)
    w (i : inode) (data : N) (r : string) w' :
  fs (os w) !! src = Some (File i data) →
  backup_excel_file self src backup_folder w = (Ok r, w') →
  fs (os w') !! src = Some (File i data) ∧
  ∀ bp, last (log w') = Some (FileCopied src bp) →
    ∃ rd, (rd = bp ∨ rd = bp </> PurePath.name src) ∧ rd ≠ src ∧
          fs (os w') !! rd = Some (File i data).
Proof.
  intros Hsrc. pose proof (backup_excel_file_run self src backup_folder w) as Hrun.
  simpl in Hrun. rewrite Hrun. clear Hrun.
  match goal with
  | |- context [copy_file src ?bp (create_folder ?f ?w0).2] =>
      pose proof (create_folder_os f w0) as Hos;
      destruct (mkdir f (os w0)) as [r0 s1] eqn:Hmk;
      set (bp0 := bp);
      destruct (create_folder f w0) as [r1 w1] eqn:Hcf
  end.
  cbn [snd] in Hos. cbn [os] in Hmk.
  assert (fs (os w1) !! src = Some (File i data)) as Hsrc1.
  { rewrite Hos. by eapply mkdir_preserves. }
  cbn [snd].
  destruct (copy_file_total src bp0 w1) as (b & w2 & Hcopy). rewrite Hcopy.
  cbn [snd]. intros [= <- <-].
  destruct (copy_file_spec _ _ _ _ _ _ _ Hsrc1 Hcopy) as (Hkeep & Hcopied & _).
  split; [done|]. intros bp' Hlast.
  destruct (copy_file_copied_last _ _ _ _ _ _ Hcopy Hlast) as [-> ->].
  by apply Hcopied.
Qed.

End FileFacts.

(** * More about the reference library: folders *)

Section TreeFacts.
Import Posix PosixProps.
Implicit Types (s : state) (w : @world state) (m : gmap path node).
Implicit Types (p q k src dst : path).

Lemma rmtree_rec_S fuel p s :
  rmtree_rec (Datatypes.S fuel) p s =
    match os_scandir (fs s) p with
    | Raise e => (Raise e, s)
    | Ok entries =>
        match rm_entries (rmtree_rec fuel) entries s with
        | (Raise e, s1) => (Raise e, s1)
        | (Ok _, s1) => lift (os_rmdir p) s1
        end
    end.
Proof. reflexivity. Qed.

Lemma children_spec m p k :
  k ∈ children m p ↔ (∃ n, m !! k = Some n) ∧ k ≠ [] ∧ tail k = p.
Proof.
  unfold children. rewrite list_elem_of_filter, list_elem_of_fmap. split.
  - intros [Hk ([k' n] & -> & Hin)]. apply elem_of_map_to_list in Hin. eauto.
  - intros [[n Hn] Hk]. split; [done|]. exists (k, n). split; [done|].
    by apply elem_of_map_to_list.
Qed.

Lemma child_below m p k : k ∈ children m p → p `suffix_of` k.
Proof.
  intros (_ & Hne & <-)%children_spec. destruct k as [|c k]; [done|].
  simpl. by apply suffix_cons_r.
Qed.

Lemma os_scandir_children m p entries k :
  os_scandir m p = Ok entries → k ∈ entries → p `suffix_of` k.
Proof.
  unfold os_scandir. destruct (os_stat m p) as [[|i dev]|]; try done.
  destruct (m_r (i_mode i)); [|done]. intros [= <-]. apply child_below.
Qed.

Lemma os_scandir_isdir m p entries :
  os_scandir m p = Ok entries → os_path_isdir m p = true.
Proof.
  unfold os_scandir, os_path_isdir. by destruct (os_stat m p) as [[|i dev]|].
Qed.

Lemma lift_unlink_frame k s r s' :
  lift (os_unlink k) s = (r, s') →
  extends (fs s') (fs s) ∧ same_outside k (fs s) (fs s').
Proof.
  unfold lift. destruct (os_unlink k s) as [s1|e] eqn:Hun; intros [= <- <-].
  - apply os_unlink_ok in Hun. rewrite Hun. split.
    + intros k' n. rewrite lookup_delete_Some. by intros [_ ?].
    + intros k' Hk'. rewrite lookup_delete_ne; [done|]. by intros ->.
  - split; [by intros ??|by intros ??].
Qed.

Lemma os_rmdir_ok p s s' :
  os_rmdir p s = Ok s' → fs s' = delete p (fs s) ∧ children (fs s) p = [].
Proof.
  unfold os_rmdir. destruct (os_stat (fs s) p) as [[|]|]; try done.
  destruct (children (fs s) p); [|done].
  destruct (parent_for_update (fs s) p); [|done]. by intros [= <-].
Qed.

Lemma lift_rmdir_frame p s r s' :
  lift (os_rmdir p) s = (r, s') →
  extends (fs s') (fs s) ∧ same_outside p (fs s) (fs s').
Proof.
  unfold lift. destruct (os_rmdir p s) as [s1|e] eqn:Hrm; intros [= <- <-].
  - apply os_rmdir_ok in Hrm as [Hrm _]. rewrite Hrm. split.
    + intros k' n. rewrite lookup_delete_Some. by intros [_ ?].
    + intros k' Hk'. rewrite lookup_delete_ne; [done|]. by intros ->.
  - split; [by intros ??|by intros ??].
Qed.

Lemma same_outside_below p k m m' :
  p `suffix_of` k → same_outside k m m' → same_outside p m m'.
Proof.
  intros Hpk Hout k' Hk'. apply Hout. intros Hkk'. apply Hk'.
  by etrans.
Qed.

Lemma same_outside_trans p m1 m2 m3 :
  same_outside p m1 m2 → same_outside p m2 m3 → same_outside p m1 m3.
Proof. intros H1 H2 k Hk. by rewrite H2, H1. Qed.

(** [rmtree] only removes, and only in the tree it is given. *)
Lemma rmtree_rec_frame fuel p s r s' :
  rmtree_rec fuel p s = (r, s') →
  extends (fs s') (fs s) ∧ same_outside p (fs s) (fs s').
Proof.
  revert p s r s'. induction fuel as [|fuel IH]; intros p s r s'.
  - intros [= <- <-]. split; [by intros ??|by intros ??].
  - rewrite rmtree_rec_S.
    destruct (os_scandir (fs s) p) as [entries|e] eqn:Hscan.
    2:{ intros [= <- <-]. split; [by intros ??|by intros ??]. }
    assert (∀ k, k ∈ entries → p `suffix_of` k) as Hbelow
      by (intros k; by eapply os_scandir_children).
    clear Hscan.
    assert (∀ r1 s1, rm_entries (rmtree_rec fuel) entries s = (r1, s1) →
              extends (fs s1) (fs s) ∧ same_outside p (fs s) (fs s1)) as Hloop.
    { revert s Hbelow. induction entries as [|k entries IHe]; intros s Hbelow r1 s1.
      - intros [= <- <-]. split; [by intros ??|by intros ??].
      - simpl.
        assert (p `suffix_of` k) as Hpk by (apply Hbelow; left).
        destruct (if os_path_isdir (fs s) k then rmtree_rec fuel k s
                  else lift (os_unlink k) s) as [r0 s0] eqn:Hstep.
        assert (extends (fs s0) (fs s) ∧ same_outside p (fs s) (fs s0))
          as [Hext0 Hout0].
        { destruct (os_path_isdir (fs s) k).
          - apply IH in Hstep as [? ?]. split; [done|].
            by eapply same_outside_below.
          - apply lift_unlink_frame in Hstep as [? ?]. split; [done|].
            by eapply same_outside_below. }
        destruct r0 as [[]|e].
        + intros Hrest.
          assert (∀ k', k' ∈ entries → p `suffix_of` k') as Hbelow'
            by (intros k' Hk'; apply Hbelow; by right).
          destruct (IHe s0 Hbelow' _ _ Hrest) as [Hext1 Hout1].
          split; [by eapply extends_trans|by eapply same_outside_trans].
        + by intros [= <- <-]. }
    destruct (rm_entries (rmtree_rec fuel) entries s) as [[[]|e] s1] eqn:Hrm.
    + destruct (Hloop _ _ eq_refl) as [Hext1 Hout1].
      intros [Hext2 Hout2]%lift_rmdir_frame.
      split; [by eapply extends_trans|by eapply same_outside_trans].
    + intros [= <- <-]. exact (Hloop _ _ eq_refl).
Qed.

(** When [rmtree] returns, the directory is gone, and it had been
    emptied. *)
Lemma rmtree_rec_gone fuel p s s' :
  rmtree_rec fuel p s = (Ok tt, s') →
  fs s' !! p = None ∧ ∀ c, fs s' !! (c :: p) = None.
Proof.
  destruct fuel as [|fuel]; [done|]. rewrite rmtree_rec_S.
  destruct (os_scandir (fs s) p) as [entries|e]; [|done].
  destruct (rm_entries (rmtree_rec fuel) entries s) as [[[]|e] s1]; [|done].
  unfold lift. destruct (os_rmdir p s1) as [s2|e] eqn:Hrm; [|done].
  intros [= <-]. apply os_rmdir_ok in Hrm as [-> Hempty].
  split; [by rewrite lookup_delete_eq|].
  intros c. rewrite lookup_delete_ne by (intros Heq; by apply (f_equal length) in Heq; simpl in Heq; lia).
  destruct (fs s1 !! (c :: p)) as [n|] eqn:Hc; [|done].
  assert ((c :: p) ∈ children (fs s1) p) as Hin
    by (apply children_spec; eauto).
  rewrite Hempty in Hin. by apply not_elem_of_nil in Hin.
Qed.

Lemma rmtree_rec_not_dir fuel p s r s' :
  os_path_isdir (fs s) p = false →
  rmtree_rec fuel p s = (r, s') → s' = s ∧ ∃ e, r = Raise e.
Proof.
  intros Hnd. destruct fuel as [|fuel]; [intros [= <- <-]; eauto|].
  rewrite rmtree_rec_S.
  destruct (os_scandir (fs s) p) as [entries|e] eqn:Hscan.
  - apply os_scandir_isdir in Hscan. congruence.
  - intros [= <- <-]. eauto.
Qed.

Lemma delete_folder_run p w :
  delete_folder p w =
    match rmtree p (os w) with
    | (Ok _, s) => (Ok true, World s (log w ++ [FolderDeleted p]))
    | (Raise e, s) => (Ok false, World s (log w ++ [ErrDeletingFolder p e]))
    end.
Proof.
  unfold delete_folder. rewrite flag_method_run. unfold call. simpl.
  by destruct (rmtree p (os w)) as [[[]|e] s].
Qed.

(** X14. [delete_folder] on a path that only goes down only removes:
    whatever is there afterwards was there before, a regular file as it
    was and a directory as a directory, and no entry that is not in the
    tree under the folder is removed, also when it fails half way.  When
    it returns [True] the folder is gone and so is everything that was
    directly inside it.  When the path is not a directory that can be
    reached, a regular file for one, it returns [False] and nothing is
    changed. *)
Theorem delete_folder_removes_only_the_tree p w (b : bool) w' :
  plain p = true →
  delete_folder p w = (Ok b, w') →
  (∀ k n', fs (os w') !! k = Some n' →
           ∃ n, fs (os w) !! k = Some n ∧ preserved n n') ∧
  (∀ k n, ¬ p `suffix_of` k → fs (os w) !! k = Some n →
          ∃ n', fs (os w') !! k = Some n' ∧ preserved n n') ∧
  (b = true → fs (os w') !! p = None ∧ ∀ c, fs (os w') !! (c :: p) = None) ∧
  (os_path_isdir (fs (os w)) p = false → b = false ∧ os w' = os w).
Proof.
  intros _.
  rewrite delete_folder_run. unfold rmtree.
  destruct (rmtree_rec _ p (os w)) as [r s] eqn:Hrm.
  destruct (rmtree_rec_frame _ _ _ _ _ Hrm) as [Hext Hout].
  assert ((∀ k n', fs s !! k = Some n' →
             ∃ n, fs (os w) !! k = Some n ∧ preserved n n') ∧
          (∀ k n, ¬ p `suffix_of` k → fs (os w) !! k = Some n →
             ∃ n', fs s !! k = Some n' ∧ preserved n n')) as [Hleft Hkept].
  { split.
    - intros k n' Hk. exists n'. split; [by apply Hext|apply preserved_refl].
    - intros k n Hk Hn. exists n. rewrite (Hout _ Hk).
      split; [done|apply preserved_refl]. }
  destruct r as [[]|e]; intros [= <- <-]; simpl.
  - split; [exact Hleft|]. split; [exact Hkept|]. split.
    + intros _. by eapply rmtree_rec_gone.
    + intros Hnd. by destruct (rmtree_rec_not_dir _ _ _ _ _ Hnd Hrm) as [_ [e ?]].
  - split; [exact Hleft|]. split; [exact Hkept|]. split; [done|].
    intros Hnd. by destruct (rmtree_rec_not_dir _ _ _ _ _ Hnd Hrm) as [-> _].
Qed.

End TreeFacts.

Section CopyTreeFacts.
Import Posix PosixProps.
Implicit Types (s : state) (w : @world state) (m : gmap path node).
Implicit Types (p q k src dst : path).

Lemma copytree_rec_S fuel ok src dst s :
  copytree_rec (Datatypes.S fuel) ok src dst s =
    match os_scandir (fs s) src with
    | Raise e => (Raise e, s)
    | Ok entries =>
        match makedirs ok dst s with
        | (Raise e, s1) => (Raise e, s1)
        | (Ok _, s1) =>
            match copy_entries (copytree_rec fuel ok) dst entries false s1 with
            | (Raise e, s2) => (Raise e, s2)
            | (Ok errors, s2) =>
                match copystat src dst s2 with
                | (Ok _, s3) =>
                    if errors then (Raise ShutilError, s3) else (Ok tt, s3)
                | (Raise _, s3) => (Raise ShutilError, s3)
                end
            end
        end
    end.
Proof. reflexivity. Qed.

Lemma makedirs_eq ok p s :
  makedirs ok p s =
    let '(r, s1) :=
      match p with
      | _ :: ((_ :: _) as head) =>
          if os_path_exists (fs s) head then (Ok tt, s)
          else
            match makedirs ok head s with
            | (Raise FileExistsError, s') => (Ok tt, s')
            | r => r
            end
      | _ => (Ok tt, s)
      end in
    match r with
    | Raise e => (Raise e, s1)
    | Ok _ =>
        match os_mkdir p s1 with
        | Ok s2 => (Ok tt, s2)
        | Raise e =>
            if ok && os_path_isdir (fs s1) p then (Ok tt, s1)
            else (Raise e, s1)
        end
    end.
Proof. destruct p; reflexivity. Qed.

Lemma same_kind_refl (n : node) : same_kind n n.
Proof. by destruct n. Qed.

Lemma same_kind_trans (n1 n2 n3 : node) :
  same_kind n1 n2 → same_kind n2 n3 → same_kind n1 n3.
Proof. destruct n1, n2, n3; simpl; try done. congruence. Qed.

Lemma keeps_entries_refl m : keeps_entries m m.
Proof. intros k n Hk. exists n. split; [done|apply same_kind_refl]. Qed.

Lemma keeps_entries_trans m1 m2 m3 :
  keeps_entries m1 m2 → keeps_entries m2 m3 → keeps_entries m1 m3.
Proof.
  intros H12 H23 k n Hk. destruct (H12 _ _ Hk) as (n2 & Hk2 & Hs2).
  destruct (H23 _ _ Hk2) as (n3 & Hk3 & Hs3). exists n3. split; [done|].
  by eapply same_kind_trans.
Qed.

Lemma extends_keeps_entries m m' : extends m m' → keeps_entries m m'.
Proof. intros Hext k n Hk. exists n. split; [by apply Hext|apply same_kind_refl]. Qed.

Lemma insert_keeps_entries m k (n : node) :
  (∀ n0, m !! k = Some n0 → same_kind n0 n) → keeps_entries m (<[k := n]> m).
Proof.
  intros Hkind k' n' Hk'. destruct (decide (k' = k)) as [->|Hne].
  - exists n. rewrite lookup_insert_eq. split; [done|]. by apply Hkind.
  - exists n'. rewrite lookup_insert_ne by done. split; [done|apply same_kind_refl].
Qed.

Lemma keeps_outside_refl p m : keeps_outside p m m.
Proof. by intros k n _ Hk. Qed.

Lemma keeps_outside_trans p m1 m2 m3 :
  keeps_outside p m1 m2 → keeps_outside p m2 m3 → keeps_outside p m1 m3.
Proof. intros H12 H23 k n Hout Hk. by apply H23, H12. Qed.

Lemma keeps_outside_below p k m m' :
  p `suffix_of` k → keeps_outside k m m' → keeps_outside p m m'.
Proof.
  intros Hpk Hout k' n Hk'. apply Hout. intros Hkk'. apply Hk'. by etrans.
Qed.

Lemma extends_keeps_outside p m m' : extends m m' → keeps_outside p m m'.
Proof. intros Hext k n _ Hk. by apply Hext. Qed.

Lemma joinpath_below p (c : string) : p `suffix_of` (p </> c).
Proof.
  unfold PurePath.joinpath. case_decide; [done|]. by apply suffix_cons_r.
Qed.

Lemma os_mkdir_step_extends ok p s0 s1 r s' :
  extends (fs s0) (fs s1) →
  match os_mkdir p s1 with
  | Ok s2 => (Ok tt, s2)
  | Raise e =>
      if ok && os_path_isdir (fs s1) p then (Ok tt, s1) else (Raise e, s1)
  end = (r, s') →
  extends (fs s0) (fs s').
Proof.
  intros Hext. destruct (os_mkdir p s1) as [s2|e] eqn:Hmk.
  - intros [= <- <-]. eapply extends_trans; [done|].
    intros k n. by eapply os_mkdir_preserves.
  - destruct (ok && os_path_isdir (fs s1) p); by intros [= <- <-].
Qed.

Lemma makedirs_extends ok p s r s' :
  makedirs ok p s = (r, s') → extends (fs s) (fs s').
Proof.
  revert s r s'. induction p as [|c p IH]; intros s r s'; rewrite makedirs_eq.
  - apply os_mkdir_step_extends, extends_refl.
  - destruct p as [|c' p']; cbv beta iota zeta.
    + apply os_mkdir_step_extends, extends_refl.
    + destruct (os_path_exists (fs s) (c' :: p')).
      * apply os_mkdir_step_extends, extends_refl.
      * destruct (makedirs ok (c' :: p') s) as [r1 s1] eqn:Hrec.
        apply IH in Hrec.
        destruct r1 as [[]|e]; [by apply os_mkdir_step_extends|].
        destruct e; try by intros [= <- <-].
        by apply os_mkdir_step_extends.
Qed.

Lemma makedirs_is_dir ok p s s' :
  makedirs ok p s = (Ok tt, s') → ∃ i dev, fs s' !! p = Some (Dir i dev).
Proof.
  rewrite makedirs_eq.
  destruct (match p with
            | _ :: (_ :: _) as head =>
                if os_path_exists (fs s) head then (Ok tt, s)
                else
                  match makedirs ok head s with
                  | (Raise FileExistsError, s') => (Ok tt, s')
                  | r => r
                  end
            | _ => (Ok tt, s)
            end) as [[[]|e] s1]; [|done].
  destruct (os_mkdir p s1) as [s2|e] eqn:Hmk.
  - intros [= <-]. apply os_mkdir_ok in Hmk as (_ & _ & i & dev & ->).
    simpl. rewrite lookup_insert_eq. eauto.
  - destruct ok; simpl; [|done].
    destruct (os_path_isdir (fs s1) p) eqn:Hd; [|done].
    intros [= <-]. by apply os_path_isdir_lookup in Hd.
Qed.

Lemma open_write_keeps dst s s' :
  open_write dst s = Ok s' →
  keeps_entries (fs s) (fs s') ∧ ∃ i0, fs s' !! dst = Some (File i0 0%N).
Proof.
  unfold open_write. destruct (reach (fs s) dst) as [[]|e]; [|done].
  destruct (fs s !! dst) as [[i0 d|]|] eqn:Hdst.
  - destruct (m_w (i_mode i0)); [|done]. intros [= <-]. simpl. split.
    + apply insert_keeps_entries. intros n0. rewrite Hdst. by intros [= <-].
    + rewrite lookup_insert_eq. eauto.
  - done.
  - destruct (parent_for_update (fs s) dst); [|done]. intros [= <-]. simpl. split.
    + apply insert_keeps_entries. intros n0. by rewrite Hdst.
    + rewrite lookup_insert_eq. eauto.
Qed.

Lemma copyfile_keeps src dst s r s' :
  copyfile src dst s = (r, s') → keeps_entries (fs s) (fs s').
Proof.
  unfold copyfile. case_decide; [intros [= <- <-]; apply keeps_entries_refl|].
  destruct (read_file (fs s) src) as [[i data]|e];
    [|intros [= <- <-]; apply keeps_entries_refl].
  destruct (open_write dst s) as [s1|e] eqn:Hop.
  - apply open_write_keeps in Hop as [Hkeep [i0 Hdst]].
    destruct (nospace s (dev_of (fs s) dst) && (0 <? i_size i)).
    + by intros [= <- <-].
    + rewrite Hdst. intros [= <- <-]. simpl.
      eapply keeps_entries_trans; [done|]. apply insert_keeps_entries.
      intros n0. rewrite Hdst. by intros [= <-].
  - destruct e; try (intros [= <- <-]; apply keeps_entries_refl).
    destruct (os_path_exists (fs s) dst); intros [= <- <-]; apply keeps_entries_refl.
Qed.

Lemma copystat_keeps src dst s r s' :
  copystat src dst s = (r, s') → keeps_entries (fs s) (fs s').
Proof.
  unfold copystat.
  destruct (os_stat (fs s) src) as [[i d|i dev]|e];
    [| |intros [= <- <-]; apply keeps_entries_refl];
    (destruct (os_stat (fs s) dst) as [[i0 d0|i0 dev0]|e] eqn:Hdst;
     [| |intros [= <- <-]; apply keeps_entries_refl]);
    apply os_stat_lookup in Hdst; intros [= <- <-]; simpl;
    apply insert_keeps_entries; intros n0; rewrite Hdst; by intros [= <-].
Qed.

Lemma copy2_keeps src dst s r s' :
  copy2 src dst s = (r, s') →
  keeps_entries (fs s) (fs s') ∧ keeps_outside dst (fs s) (fs s').
Proof.
  intros Hcp. split.
  - revert Hcp. unfold copy2.
    set (rd := if os_path_isdir (fs s) dst then dst </> PurePath.name src else dst).
    destruct (copyfile src rd s) as [[[]|e] s1] eqn:Hcf.
    + intros Hcs. eapply keeps_entries_trans; [by eapply copyfile_keeps|].
      by eapply copystat_keeps.
    + intros [= <- <-]. by eapply copyfile_keeps.
  - intros k n Hout Hk. rewrite (copy2_frame _ _ _ _ _ _ Hcp); [done|].
    intros ->. apply Hout. unfold copy_target.
    destruct (os_path_isdir (fs s) dst); [apply joinpath_below|done].
Qed.

Lemma copystat_keeps_outside src dst s r s' :
  copystat src dst s = (r, s') → keeps_outside dst (fs s) (fs s').
Proof.
  intros Hcs k n Hout Hk. rewrite (copystat_frame _ _ _ _ _ _ Hcs); [done|].
  by intros ->.
Qed.

Lemma copy_entries_frame (rec : path → path → state → res unit * state)
    dst entries errors s r s' :
  (∀ src0 dst0 s0 r0 s0', rec src0 dst0 s0 = (r0, s0') →
     keeps_entries (fs s0) (fs s0') ∧ keeps_outside dst0 (fs s0) (fs s0')) →
  copy_entries rec dst entries errors s = (r, s') →
  keeps_entries (fs s) (fs s') ∧ keeps_outside dst (fs s) (fs s').
Proof.
  intros Hrec. revert errors s.
  induction entries as [|srcobj entries IHe]; intros errors s.
  - intros [= <- <-]. split; [apply keeps_entries_refl|apply keeps_outside_refl].
  - simpl.
    destruct (if os_path_isdir (fs s) srcobj
              then rec srcobj (dst </> PurePath.name srcobj) s
              else copy2 srcobj (dst </> PurePath.name srcobj) s)
      as [r0 s0] eqn:Hstep.
    assert (keeps_entries (fs s) (fs s0) ∧ keeps_outside dst (fs s) (fs s0))
      as [Hkeep0 Hout0].
    { destruct (os_path_isdir (fs s) srcobj).
      - apply Hrec in Hstep as [? ?]. split; [done|].
        eapply keeps_outside_below; [apply joinpath_below|done].
      - apply copy2_keeps in Hstep as [? ?]. split; [done|].
        eapply keeps_outside_below; [apply joinpath_below|done]. }
    assert (∀ errors', copy_entries rec dst entries errors' s0 = (r, s') →
            keeps_entries (fs s) (fs s') ∧ keeps_outside dst (fs s) (fs s'))
      as Hrest.
    { intros errors' Hrest. destruct (IHe _ _ Hrest) as [? ?].
      split; [by eapply keeps_entries_trans|by eapply keeps_outside_trans]. }
    destruct r0 as [[]|e]; [apply Hrest|].
    destruct (is_OSError e); [apply Hrest|]. by intros [= <- <-].
Qed.

(** [copytree] removes nothing, turns no file into a directory and no
    directory into a file, and changes no entry outside the tree under
    its destination. *)
Lemma copytree_rec_frame fuel ok src dst s r s' :
  copytree_rec fuel ok src dst s = (r, s') →
  keeps_entries (fs s) (fs s') ∧ keeps_outside dst (fs s) (fs s').
Proof.
  revert src dst s r s'. induction fuel as [|fuel IH]; intros src dst s r s'.
  - intros [= <- <-]. split; [apply keeps_entries_refl|apply keeps_outside_refl].
  - rewrite copytree_rec_S.
    destruct (os_scandir (fs s) src) as [entries|e].
    2:{ intros [= <- <-]. split; [apply keeps_entries_refl|apply keeps_outside_refl]. }
    destruct (makedirs ok dst s) as [r1 s1] eqn:Hmk.
    apply makedirs_extends in Hmk.
    assert (keeps_entries (fs s) (fs s1) ∧ keeps_outside dst (fs s) (fs s1))
      as [Hkeep1 Hout1]
      by (split; [by apply extends_keeps_entries|by apply extends_keeps_outside]).
    destruct r1 as [[]|e]; [|by intros [= <- <-]].
    destruct (copy_entries (copytree_rec fuel ok) dst entries false s1)
      as [[errors|e] s2] eqn:Hcp;
      destruct (copy_entries_frame _ _ _ _ _ _ _ IH Hcp) as [Hkeep2 Hout2].
    + destruct (copystat src dst s2) as [r3 s3] eqn:Hcs.
      pose proof (copystat_keeps _ _ _ _ _ Hcs) as Hkeep3.
      pose proof (copystat_keeps_outside _ _ _ _ _ Hcs) as Hout3.
      assert (keeps_entries (fs s) (fs s3) ∧ keeps_outside dst (fs s) (fs s3)) as Hall.
      { split.
        - eapply keeps_entries_trans; [done|]. by eapply keeps_entries_trans.
        - eapply keeps_outside_trans; [done|]. by eapply keeps_outside_trans. }
      destruct r3 as [[]|e]; [destruct errors|]; by intros [= <- <-].
    + intros [= <- <-].
      split; [by eapply keeps_entries_trans|by eapply keeps_outside_trans].
Qed.

Lemma copytree_rec_is_dir fuel ok src dst s s' :
  copytree_rec fuel ok src dst s = (Ok tt, s') →
  ∃ i dev, fs s' !! dst = Some (Dir i dev).
Proof.
  revert s'. pose proof (copytree_rec_frame fuel ok) as Hrec.
  destruct fuel as [|fuel]; [done|]. intros s'. rewrite copytree_rec_S.
  destruct (os_scandir (fs s) src) as [entries|e]; [|done].
  destruct (makedirs ok dst s) as [[[]|e] s1] eqn:Hmk; [|done].
  apply makedirs_is_dir in Hmk as (i1 & dev1 & Hdst1).
  destruct (copy_entries _ dst entries false s1) as [[errors|e] s2] eqn:Hcp; [|done].
  apply copy_entries_frame in Hcp as [Hkeep _]; [|apply copytree_rec_frame].
  destruct (Hkeep _ _ Hdst1) as (n2 & Hdst2 & Hkind).
  destruct n2 as [|i2 dev2]; [done|].
  unfold copystat.
  destruct (os_stat (fs s2) src) as [[i d|i dev]|e]; [| |done];
    (destruct (os_stat (fs s2) dst) as [n|e] eqn:Hdst; [|done]);
    apply os_stat_lookup in Hdst; rewrite Hdst2 in Hdst; injection Hdst as <-;
    destruct errors; try done; intros [= <-]; simpl; rewrite lookup_insert_eq;
    eauto.
Qed.

Lemma copytree_rec_not_dir fuel ok src dst s r s' :
  os_path_isdir (fs s) src = false →
  copytree_rec fuel ok src dst s = (r, s') → s' = s ∧ ∃ e, r = Raise e.
Proof.
  intros Hnd. destruct fuel as [|fuel]; [intros [= <- <-]; eauto|].
  rewrite copytree_rec_S.
  destruct (os_scandir (fs s) src) as [entries|e] eqn:Hscan.
  - apply os_scandir_isdir in Hscan. congruence.
  - intros [= <- <-]. eauto.
Qed.

Lemma copy_folder_run src dst w :
  copy_folder src dst w =
    match copytree true src dst (os w) with
    | (Ok _, s) => (Ok true, World s (log w ++ [FolderCopied src dst]))
    | (Raise e, s) => (Ok false, World s (log w ++ [ErrCopyingFolder src dst e]))
    end.
Proof.
  unfold copy_folder. rewrite flag_method_run. unfold call. simpl.
  by destruct (copytree true src dst (os w)) as [[[]|e] s].
Qed.

(** X15. [copy_folder] between paths that only go down removes nothing:
    every entry is still there afterwards, a file as a file and a
    directory as a directory, and among the entries that are not in the
    tree under the destination no regular file is changed, also when it
    fails half way.  When it returns [True] the destination is a
    directory.  When the source is not a directory that can be reached it
    returns [False] and nothing is changed, the destination is not
    created. *)
Theorem copy_folder_keeps_entries src dst w (b : bool) w' :
  plain src = true → plain dst = true →
  copy_folder src dst w = (Ok b, w') →
  keeps_entries (fs (os w)) (fs (os w')) ∧
  (∀ k n, ¬ dst `suffix_of` k → fs (os w) !! k = Some n →
          ∃ n', fs (os w') !! k = Some n' ∧ preserved n n') ∧
  (b = true → ∃ i dev, fs (os w') !! dst = Some (Dir i dev)) ∧
  (os_path_isdir (fs (os w)) src = false → b = false ∧ os w' = os w).
Proof.
  intros _ _.
  rewrite copy_folder_run. unfold copytree.
  destruct (copytree_rec _ true src dst (os w)) as [r s] eqn:Hcp.
  destruct (copytree_rec_frame _ _ _ _ _ _ _ Hcp) as [Hkeep Hout].
  assert (∀ k n, ¬ dst `suffix_of` k → fs (os w) !! k = Some n →
                 ∃ n', fs s !! k = Some n' ∧ preserved n n') as Hout'.
  { intros k n Hk Hn. exists n. split; [by apply Hout|apply preserved_refl]. }
  destruct r as [[]|e]; intros [= <- <-]; simpl.
  - split; [exact Hkeep|]. split; [exact Hout'|]. split.
    + intros _. by eapply copytree_rec_is_dir.
    + intros Hnd. by destruct (copytree_rec_not_dir _ _ _ _ _ _ _ Hnd Hcp) as [_ [e ?]].
  - split; [exact Hkeep|]. split; [exact Hout'|]. split; [done|].
    intros Hnd. by destruct (copytree_rec_not_dir _ _ _ _ _ _ _ Hnd Hcp) as [-> _].
Qed.




End CopyTreeFacts.

(** * More about the reference library: listings *)

Section ListingFacts.
Import Posix PosixProps.
Implicit Types (s : state) (w : @world state) (m : gmap path node).
Implicit Types (p q k src dst folder : path).

Lemma is_file_child folder k s (i : inode) (dev : N) :
  k ∈ children (fs s) folder →
  os_stat (fs s) folder = Ok (Dir i dev) →
  is_file k s =
    if m_x (i_mode i) then Ok (is_regular (fs s) k) else Raise PermissionError.
Proof.
  intros ([n Hk] & Hne & Htail)%children_spec Hst.
  destruct k as [|c par]; [done|]. simpl in Htail. subst par.
  pose proof (os_stat_lookup _ _ _ Hst) as Hfolder.
  unfold is_file, os_stat, is_regular. rewrite reach_cons.
  unfold os_stat in Hst. destruct (reach (fs s) folder) as [[]|]; [|done].
  rewrite Hfolder. destruct (m_x (i_mode i)); [|done].
  rewrite Hk. by destruct n.
Qed.

Lemma comprehension_is_file folder entries s lg (i : inode) (dev : N) :
  (∀ k, k ∈ entries → k ∈ children (fs s) folder) →
  os_stat (fs s) folder = Ok (Dir i dev) →
  m_x (i_mode i) = true →
  comprehension_if entries (λ f, call (path_is_file f)) (World s lg) =
    (Ok (filter (λ k, is_regular (fs s) k = true) entries), World s lg).
Proof.
  intros Hin Hst Hx. induction entries as [|k entries IH]; [done|].
  simpl. run. unfold pure.
  rewrite (is_file_child folder k s i dev) by (done || apply Hin; left).
  rewrite Hx. simpl. rewrite IH by (intros k' Hk'; apply Hin; by right).
  simpl. rewrite filter_cons. destruct (is_regular (fs s) k) eqn:Hreg.
  - by rewrite decide_True.
  - by rewrite decide_False.
Qed.

Lemma list_files_plain_run folder extension w :
  extension = None ∨ extension = Some "" →
  list_files folder extension w =
    match os_scandir (fs (os w)) folder with
    | Raise e => (Ok [], World (os w) (log w ++ [ErrListingFiles folder e]))
    | Ok entries =>
        match comprehension_if entries (λ f, call (path_is_file f))
                (World (os w) (log w)) with
        | (Ok l, w1) => (Ok l, World (os w1) (log w1 ++ [FoundFiles (length l) folder]))
        | (Raise e, w1) => (Ok [], World (os w1) (log w1 ++ [ErrListingFiles folder e]))
        end
    end.
Proof.
  intros [-> | ->]; unfold list_files; run; unfold pure;
    (destruct (os_scandir (fs (os w)) folder) as [entries|e]; [|done]);
    simpl; by destruct (comprehension_if entries _ _) as [[l|e] w1].
Qed.

(** X17. Without an extension ([None], or the empty string), [list_files]
    on a directory that may be read and searched returns the regular
    files directly inside it, all of them and nothing else: here the
    directories are left out.  The file system is not changed. *)
Theorem list_files_no_extension folder (extension : option string) w
    (i : inode) (dev : N) :
  extension = None ∨ extension = Some "" →
  os_stat (fs (os w)) folder = Ok (Dir i dev) →
  m_r (i_mode i) = true → m_x (i_mode i) = true →
  let l := filter (λ k, is_regular (fs (os w)) k = true)
             (children (fs (os w)) folder) in
  list_files folder extension w =
    (Ok l, World (os w) (log w ++ [FoundFiles (length l) folder])).
Proof.
  intros Hext Hst Hr Hx l. rewrite list_files_plain_run by done.
  unfold os_scandir. rewrite Hst, Hr.
  by rewrite (comprehension_is_file folder _ _ _ i dev).
Qed.





Lemma os_mkdir_only_dirs p s s' k :
  os_mkdir p s = Ok s' → fs s !! k = None →
  fs s' !! k = None ∨ ∃ i dev, fs s' !! k = Some (Dir i dev).
Proof.
  intros (_ & _ & i & dev & ->)%os_mkdir_ok Hk. simpl.
  destruct (decide (k = p)) as [->|Hne].
  - right. rewrite lookup_insert_eq. eauto.
  - left. by rewrite lookup_insert_ne.
Qed.

(** [mkdir] adds directories, nothing else. *)
Lemma mkdir_only_dirs p s r s' k :
  mkdir p s = (r, s') →
  fs s !! k = None ∨ (∃ i dev, fs s !! k = Some (Dir i dev)) →
  fs s' !! k = None ∨ ∃ i dev, fs s' !! k = Some (Dir i dev).
Proof.
  revert s r s'. induction p as [|c par IH]; intros s r s'; rewrite ?mkdir_cons.
  - simpl. destruct (os_mkdir [] s) as [s1|e] eqn:Hmk.
    + intros [= <- <-] [Hk|Hk].
      * by eapply os_mkdir_only_dirs.
      * right. destruct Hk as (i & dev & Hk). exists i, dev.
        by eapply os_mkdir_preserves.
    + destruct e; try (by intros [= <- <-]); by intros [-> _]%unless_is_dir_inv.
  - destruct (os_mkdir (c :: par) s) as [s1|e] eqn:Hmk.
    + intros [= <- <-] [Hk|Hk].
      * by eapply os_mkdir_only_dirs.
      * right. destruct Hk as (i & dev & Hk). exists i, dev.
        by eapply os_mkdir_preserves.
    + destruct e; try (by intros [= <- <-]);
        try (by intros [-> _]%unless_is_dir_inv).
      destruct (mkdir par s) as [[[]|e] s1] eqn:Hrec.
      * intros Hmk1 Hk. pose proof (IH _ _ _ Hrec Hk) as Hk1.
        unfold mkdir_exist_ok in Hmk1.
        destruct (os_mkdir (c :: par) s1) as [s2|e] eqn:Hmk2.
        -- injection Hmk1 as <- <-. destruct Hk1 as [Hk1|(i & dev & Hk1)].
           ++ by eapply os_mkdir_only_dirs.
           ++ right. exists i, dev. by eapply os_mkdir_preserves.
        -- destruct e; try (by injection Hmk1 as <- <-);
             by apply unless_is_dir_inv in Hmk1 as [-> _].
      * intros [= <- <-] Hk. by eapply IH.
Qed.

(** X20. [copy_file] of a source that only goes down and is not there
    returns [False], but not without a trace: the folder of the
    destination has been created all the same, exactly as
    [create_folder] on it would have. *)
Theorem copy_file_missing_source src dst w :
  plain src = true →
  fs (os w) !! src = None →
  let w1 := snd (create_folder (PurePath.parent dst) w) in
  ∃ e, copy_file src dst w =
         (Ok false, World (os w1) (log w1 ++ [ErrCopyingFile src dst e])).
Proof.
  intros _ Hsrc w1. rewrite copy_file_run. fold w1. simpl.
  assert (fs (os w1) !! src = None ∨ ∃ i dev, fs (os w1) !! src = Some (Dir i dev))
    as Hsrc1.
  { subst w1. rewrite create_folder_os.
    destruct (mkdir (PurePath.parent dst) (os w)) as [r s1] eqn:Hmk.
    eapply mkdir_only_dirs; [done|]. by left. }
  assert (∃ e, copy2 src dst (os w1) = (Raise e, os w1)) as [e ->]; [|eauto].
  unfold copy2, copyfile. case_decide; [eauto|].
  unfold read_file, os_stat. destruct (reach (fs (os w1)) src) as [[]|e]; [|eauto].
  destruct Hsrc1 as [->|(i & dev & ->)]; eauto.
Qed.

End ListingFacts.

(** * More about the reference library: what a move leaves alone *)

Section MoveFrame.
Import Posix PosixProps.
Implicit Types (s : state) (w : @world state) (m : gmap path node).
Implicit Types (p q k src dst : path).

Lemma kmap_lookup_alone (f : path → path) m k (n : node) :
  f k = k → (∀ k0, f k0 = k → k0 = k) → m !! k = Some n →
  (kmap f m : gmap path node) !! k = Some n.
Proof.
  intros Hfix Hinj Hk. unfold kmap. apply elem_of_list_to_map_1'.
  - intros y ([k0 y0] & Heq & Hin)%list_elem_of_fmap. simpl in Heq.
    assert (f k0 = k ∧ y0 = y) as [Hk0 ->] by (split; congruence).
    apply elem_of_map_to_list in Hin. apply Hinj in Hk0 as ->. congruence.
  - apply list_elem_of_fmap. exists (k, n). split; [simpl; by rewrite Hfix|].
    by apply elem_of_map_to_list.
Qed.

Lemma rekey_outside src dst k0 k :
  ¬ src `suffix_of` k → ¬ dst `suffix_of` k → rekey src dst k0 = k → k0 = k.
Proof.
  intros Hsrc Hdst. unfold rekey. case_decide; [|done].
  intros <-. exfalso. apply Hdst. by apply suffix_app_r.
Qed.

(** [os.rename] changes nothing outside the two trees. *)
Lemma os_rename_keeps_outside src dst s s' k n :
  os_rename src dst s = Ok s' →
  ¬ src `suffix_of` k → ¬ dst `suffix_of` k →
  fs s !! k = Some n → fs s' !! k = Some n.
Proof.
  intros Hren Hsrc Hdst Hk. revert Hren. unfold os_rename.
  destruct (reach (fs s) src) as [[]|e]; [|done].
  destruct (reach (fs s) dst) as [[]|e]; [|done].
  destruct (fs s !! src) as [n0|]; [|done].
  case_decide; [by intros [= <-]|].
  destruct (parent_for_update (fs s) src) as [dev1|e]; [|done].
  destruct (parent_for_update (fs s) dst) as [dev2|e]; [|done].
  destruct (negb (dev1 =? dev2)%N); [done|].
  assert (k ≠ src) as Hne1 by (intros ->; by apply Hsrc).
  assert (k ≠ dst) as Hne2 by (intros ->; by apply Hdst).
  assert (fs (set_fs s (<[dst := n0]> (delete src (fs s)))) !! k = Some n) as Hfile.
  { simpl. by rewrite lookup_insert_ne, lookup_delete_ne. }
  destruct n0 as [i0 d0|i0 dev0].
  - destruct (fs s !! dst) as [[|]|]; try done; by intros [= <-].
  - assert (match children (fs s) dst with
            | [] => Ok (set_fs s (kmap (rekey src dst) (delete dst (fs s))))
            | _ :: _ => Raise (OSError_ ENOTEMPTY)
            end = Ok s' → fs s' !! k = Some n) as Hdir.
    { destruct (children (fs s) dst); [|done]. intros [= <-]. simpl.
      apply kmap_lookup_alone.
      - unfold rekey. by rewrite decide_False.
      - intros k0. by apply rekey_outside.
      - by rewrite lookup_delete_ne. }
    destruct (fs s !! dst) as [[|]|]; try done;
      (case_decide; [done|apply Hdir]).
Qed.

(** [shutil.move] changes nothing outside the tree of its source and the
    tree of its destination. *)
Lemma move_keeps_outside src dst s r s' k n :
  move src dst s = (r, s') →
  ¬ src `suffix_of` k → ¬ dst `suffix_of` k →
  fs s !! k = Some n → fs s' !! k = Some n.
Proof.
  intros Hmv Hsrc Hdst Hk. revert Hmv. unfold move.
  assert (∀ rd, dst `suffix_of` rd →
    match os_rename src rd s with
    | Ok s' => (Ok tt, s')
    | Raise _ =>
        if os_path_isdir (fs s) src then
          if decide (src `suffix_of` dst) then (Raise ShutilError, s)
          else
            match copytree false src rd s with
            | (Raise e, s1) => (Raise e, s1)
            | (Ok _, s1) => rmtree src s1
            end
        else
          match copy2 src rd s with
          | (Raise e, s1) => (Raise e, s1)
          | (Ok _, s1) => lift (os_unlink src) s1
          end
    end = (r, s') → fs s' !! k = Some n) as Hrelocate.
  { intros rd Hrd.
    assert (¬ rd `suffix_of` k) as Hout by (intros ?; apply Hdst; by etrans).
    destruct (os_rename src rd s) as [s1|e] eqn:Hren.
    - intros [= <- <-]. by eapply os_rename_keeps_outside.
    - destruct (os_path_isdir (fs s) src).
      + case_decide; [by intros [= <- <-]|]. unfold copytree.
        destruct (copytree_rec _ false src rd s) as [r1 s1] eqn:Hcp.
        apply copytree_rec_frame in Hcp as [_ Hcp].
        pose proof (Hcp _ _ Hout Hk) as Hk1.
        destruct r1 as [[]|e1]; [|by intros [= <- <-]].
        unfold rmtree. intros [_ Hrm]%rmtree_rec_frame.
        by rewrite (Hrm _ Hsrc).
      + destruct (copy2 src rd s) as [r1 s1] eqn:Hcp.
        apply copy2_keeps in Hcp as [_ Hcp].
        pose proof (Hcp _ _ Hout Hk) as Hk1.
        destruct r1 as [[]|e1]; [|by intros [= <- <-]].
        intros [_ Hun]%lift_unlink_frame. by rewrite (Hun _ Hsrc). }
  cbv zeta. destruct (os_path_isdir (fs s) dst); [|by apply Hrelocate].
  destruct (decide (src = dst)) as [Heq|Heq].
  - unfold lift. destruct (os_rename src dst s) as [s1|e] eqn:Hren.
    + intros [= <- <-]. by eapply os_rename_keeps_outside.
    + by intros [= <- <-].
  - destruct (os_path_exists (fs s) (dst </> PurePath.name src)).
    + by intros [= <- <-].
    + apply Hrelocate, joinpath_below.
Qed.

Lemma os_path_exists_isdir m p :
  os_path_exists m p = false → os_path_isdir m p = false.
Proof. unfold os_path_exists, os_path_isdir. by destruct (os_stat m p) as [[|]|]. Qed.

(** Where [shutil.move] puts a regular file. *)
Lemma move_file_lands src dst s s' i data :
  fs s !! src = Some (File i data) →
  move src dst s = (Ok tt, s') →
  ∃ rd, (rd = dst ∨ rd = dst </> PurePath.name src) ∧
        fs s' !! rd = Some (File i data).
Proof.
  intros Hsrc. unfold move.
  assert (∀ rd,
    os_path_isdir (fs s) rd = false →
    match os_rename src rd s with
    | Ok s' => (Ok tt, s')
    | Raise _ =>
        if os_path_isdir (fs s) src then
          if decide (src `suffix_of` dst) then (Raise ShutilError, s)
          else
            match copytree false src rd s with
            | (Raise e, s1) => (Raise e, s1)
            | (Ok _, s1) => rmtree src s1
            end
        else
          match copy2 src rd s with
          | (Raise e, s1) => (Raise e, s1)
          | (Ok _, s1) => lift (os_unlink src) s1
          end
    end = (Ok tt, s') → fs s' !! rd = Some (File i data)) as Hrelocate.
  { intros rd Hnd.
    destruct (os_rename src rd s) as [s1|e] eqn:Hren.
    - intros [= <-]. by eapply os_rename_file.
    - rewrite (os_path_isdir_file _ _ _ _ Hsrc).
      destruct (copy2 src rd s) as [[[]|e'] s1] eqn:Hcp; [|done].
      destruct (copy2_file_target _ _ _ _ _ _ Hsrc Hcp) as [Hne Hrd].
      unfold copy_target in Hne, Hrd. rewrite Hnd in Hne, Hrd.
      unfold lift. destruct (os_unlink src s1) as [s2|e'] eqn:Hun; [|done].
      intros [= <-]. apply os_unlink_ok in Hun. rewrite Hun.
      by rewrite lookup_delete_ne. }
  cbv zeta. destruct (os_path_isdir (fs s) dst) eqn:Hdir.
  - destruct (decide (src = dst)) as [Heq|Heq].
    { subst dst. by rewrite (os_path_isdir_file _ _ _ _ Hsrc) in Hdir. }
    destruct (os_path_exists (fs s) (dst </> PurePath.name src)) eqn:Hex; [done|].
    intros Hmv. exists (dst </> PurePath.name src). split; [by right|].
    by apply Hrelocate; [apply os_path_exists_isdir|].
  - intros Hmv. exists dst. split; [by left|]. by apply Hrelocate.
Qed.

End MoveFrame.

(** * More about the reference library: [organize_excel_files] loses no file *)

Section NamesAskedFor.
Import Posix PosixProps.

Lemma fnmatch_star lit nm :
  fnmatch (String "*" lit) nm =
    fnmatch lit nm ||
    match nm with
    | EmptyString => false
    | String _ nm' => fnmatch (String "*" lit) nm'
    end.
Proof. by destruct nm. Qed.

Lemma fnmatch_literal lit nm :
  literal lit = true → fnmatch lit nm = true → nm = lit.
Proof.
  revert nm. induction lit as [|c lit IH]; intros nm; simpl.
  - by destruct nm.
  - destruct (Ascii.eqb c "*"); [done|]. destruct (Ascii.eqb c "?"); [done|].
    destruct (Ascii.eqb c "["); [done|]. destruct (Ascii.eqb c "/"); [done|].
    simpl. intros Hlit. destruct nm as [|a nm]; [done|].
    intros [Hac Hrest]%andb_true_iff. apply Ascii.eqb_eq in Hac as ->.
    f_equal. by apply IH.
Qed.

Lemma fnmatch_star_ends lit nm :
  literal lit = true → fnmatch (String "*" lit) nm = true →
  ∃ pre, nm = pre +:+ lit.
Proof.
  intros Hlit. induction nm as [|a nm IH]; rewrite fnmatch_star.
  - rewrite orb_false_r. intros ->%fnmatch_literal; [|done]. by exists "".
  - intros [->%fnmatch_literal | Hrest]%orb_true_iff; [by exists ""|done|].
    destruct (IH Hrest) as [pre ->]. by exists (String a pre).
Qed.

Lemma fnmatch_refl lit : literal lit = true → fnmatch lit lit = true.
Proof.
  induction lit as [|c lit IH]; simpl; [done|].
  destruct (Ascii.eqb c "*"); [done|]. destruct (Ascii.eqb c "?"); [done|].
  destruct (Ascii.eqb c "["); [done|]. destruct (Ascii.eqb c "/"); [done|].
  simpl. intros Hlit. by rewrite Ascii.eqb_refl, IH.
Qed.

Lemma fnmatch_star_ends_conv lit pre :
  literal lit = true → fnmatch (String "*" lit) (pre +:+ lit) = true.
Proof.
  intros Hlit. induction pre as [|a pre IH].
  - change ("" +:+ lit) with lit. by rewrite fnmatch_star, fnmatch_refl.
  - change (String a pre +:+ lit) with (String a (pre +:+ lit)).
    rewrite fnmatch_star, IH. apply orb_true_r.
Qed.

Lemma get_last_append pre lit (n : nat) :
  get (n + String.length pre) (pre +:+ lit) = get n lit.
Proof. symmetry. apply append_correct2. Qed.

(** No name is asked for twice: one that ends in .xlsx does not end in
    .xls. *)
Lemma excel_once nm :
  fnmatch "*.xlsx" nm = true → fnmatch "*.xls" nm = true → False.
Proof.
  intros [pre Hx]%fnmatch_star_ends [pre' Hs]%fnmatch_star_ends; try done.
  pose proof (get_last_append pre ".xlsx" 4) as H1.
  pose proof (get_last_append pre' ".xls" 3) as H2.
  rewrite <- Hx in H1. rewrite <- Hs in H2.
  apply (f_equal String.length) in Hx, Hs. rewrite length_append in Hx, Hs.
  simpl in Hx, Hs.
  replace (4 + String.length pre)%nat with (3 + String.length pre')%nat in H1 by lia.
  rewrite H2 in H1. done.
Qed.

Lemma excel_proper nm : excel nm = true → nm ≠ "" ∧ nm ≠ ".".
Proof. split; by intros ->. Qed.

Lemma excel_size_folder size : excel (size_folder size) = false.
Proof.
  unfold size_folder.
  destruct (size <? 1024 * 1024); [done|]. by destruct (size <? 10 * 1024 * 1024).
Qed.

Lemma excel_first_letter c : excel (upper (String c "")) = false.
Proof.
  unfold excel. simpl. by rewrite !andb_false_r.
Qed.

Lemma excel_strftime_month d : excel (strftime_month d) = false.
Proof.
  unfold excel, strftime_month, digits4, digits2.
  generalize (digit (year d / 1000)) (digit (year d / 100)) (digit (year d / 10))
    (digit (year d)) (digit (month d / 10)) (digit (month d)).
  intros a b c e f g. simpl. by rewrite !andb_false_r.
Qed.

Lemma excel_organized_root source crit :
  ∃ org, organized_root source crit = org :: source ∧ excel org = false.
Proof.
  unfold organized_root. repeat case_decide; eauto.
Qed.

End NamesAskedFor.

Section OrganizeKeepsFiles.
Import Posix PosixProps.
Implicit Types (s : state) (w : @world state) (m : gmap path node).
Implicit Types (p q k g d src dst source : path).

Lemma children_NoDup m p : NoDup (children m p).
Proof. unfold children. apply NoDup_filter, NoDup_fst_map_to_list. Qed.

Lemma glob_NoDup folder pattern s l : glob folder pattern s = Ok l → NoDup l.
Proof.
  unfold glob. destruct (is_dir folder s) as [[]|]; try done.
  - destruct (os_scandir (fs s) folder) as [entries|] eqn:Hscan.
    + intros [= <-]. apply NoDup_filter. unfold os_scandir in Hscan.
      destruct (os_stat (fs s) folder) as [[|i dev]|]; try done.
      destruct (m_r (i_mode i)); [|done]. injection Hscan as <-.
      apply children_NoDup.
    + intros [= <-]. apply NoDup_nil_2.
  - intros [= <-]. apply NoDup_nil_2.
Qed.

(** What [list_files] returns for one of the two extensions. *)
Lemma list_files_excel source ext w l w' :
  ext = ".xlsx" ∨ ext = ".xls" →
  list_files source (Some ext) w = (Ok l, w') →
  os w' = os w ∧ NoDup l ∧
  ∀ g, g ∈ l → fnmatch ("*" +:+ ext) (PurePath.name g) = true ∧
               ∃ ng, g = ng :: source.
Proof.
  intros Hext.
  assert (∃ c ext', ext = String c ext') as (c & ext' & ->)
    by (destruct Hext as [-> | ->]; eauto).
  rewrite list_files_extension.
  destruct (glob source _ (os w)) as [l0|e] eqn:Hglob; intros [= <- <-]; simpl.
  - split; [done|]. split; [by eapply glob_NoDup|].
    intros g Hg. destruct (glob_selected _ _ _ _ _ Hglob Hg) as [Hmatch Hchild].
    split; [done|]. apply children_spec in Hchild as (_ & Hne & Htail).
    destruct g as [|ng g]; [done|]. simpl in Htail. subst g. eauto.
  - split; [done|]. split; [apply NoDup_nil_2|]. intros g Hg.
    by apply not_elem_of_nil in Hg.
Qed.

(** The bucket of an entry is a folder in the root for the criterion;
    computing it changes nothing. *)
Lemma dest_folder_bucket source crit g w r w1 :
  dest_folder source crit g w = (r, w1) →
  os w1 = os w ∧
  ∀ d, r = Ok d → bucket_in (organized_root source crit) d.
Proof.
  assert (∀ root b, excel b = false → bucket_in root (root </> b)) as Hbucket.
  { intros root b Hb. unfold PurePath.joinpath. case_decide; [by left|].
    right. eauto. }
  unfold dest_folder, organized_root. repeat case_decide; run; unfold pure.
  - destruct (stat g (os w)) as [st|e]; simpl; [|by intros [= <- <-]].
    destruct (fromtimestamp (st_mtime st) (os w)) as [dt|e];
      intros [= <- <-]; (split; [done|]); [|done].
    intros d [= <-]. apply Hbucket, excel_strftime_month.
  - destruct (stat g (os w)) as [st|e]; intros [= <- <-]; (split; [done|]); [|done].
    intros d [= <-]. apply Hbucket, excel_size_folder.
  - destruct (PurePath.stem g) as [|c rest]; simpl; intros [= <- <-];
      (split; [done|]); [done|].
    intros d [= <-]. apply (Hbucket _ (upper (String c ""))), excel_first_letter.
Qed.

Lemma suffix_longer {A} (l1 l2 : list A) :
  (length l2 < length l1)%nat → ¬ l1 `suffix_of` l2.
Proof. intros Hlen Hsuf%suffix_length. lia. Qed.

(** The places of one name are out of the way of the moves of another. *)
Lemma moved_to_apart source crit nm ng d k :
  ng ≠ nm → excel ng = true →
  bucket_in (organized_root source crit) d →
  k = nm :: source ∨ moved_to (organized_root source crit) nm k →
  ¬ (ng :: source) `suffix_of` k ∧ ¬ (ng :: d) `suffix_of` k.
Proof.
  intros Hne Hng Hd Hk.
  destruct (excel_organized_root source crit) as (org & Hroot & Horg).
  rewrite Hroot in Hd, Hk. clear Hroot.
  assert (ng ≠ org) as Hng_org by (intros ->; congruence).
  assert (∀ l l', (l ++ source) `suffix_of` (l' ++ source) → l `suffix_of` l')
    as Hcut by (intros l l'; apply suffix_app_inv).
  assert (∀ b, excel b = false → ng ≠ b) as Hng_b by (intros b Hb ->; congruence).
  destruct Hk as [->|(d' & Hd' & Hk)].
  - split.
    + intros Hsuf. apply (Hcut [ng] [nm]) in Hsuf.
      destruct Hsuf as [ext Hext].
      destruct ext as [|? [|? ?]]; simplify_eq/=.
    + apply suffix_longer. destruct Hd as [->|(b & _ & ->)]; simpl; lia.
  - split.
    + destruct Hd' as [->|(b' & Hb' & ->)]; destruct Hk as [-> | ->];
        intros Hsuf.
      * apply (Hcut [ng] [nm; org]) in Hsuf. destruct Hsuf as [ext Hext].
        destruct ext as [|? [|? [|? ?]]]; simplify_eq/=.
      * apply (Hcut [ng] [nm; nm; org]) in Hsuf. destruct Hsuf as [ext Hext].
        destruct ext as [|? [|? [|? [|? ?]]]]; simplify_eq/=.
      * apply (Hcut [ng] [nm; b'; org]) in Hsuf. destruct Hsuf as [ext Hext].
        destruct ext as [|? [|? [|? [|? ?]]]]; simplify_eq/=.
      * apply (Hcut [ng] [nm; nm; b'; org]) in Hsuf. destruct Hsuf as [ext Hext].
        destruct ext as [|? [|? [|? [|? [|? ?]]]]]; simplify_eq/=.
    + destruct Hd as [->|(b & Hb & ->)];
        destruct Hd' as [->|(b' & Hb' & ->)]; destruct Hk as [-> | ->];
        intros Hsuf.
      * apply (Hcut [ng; org] [nm; org]) in Hsuf. destruct Hsuf as [ext Hext].
        destruct ext as [|? [|? [|? ?]]]; simplify_eq/=.
      * apply (Hcut [ng; org] [nm; nm; org]) in Hsuf. destruct Hsuf as [ext Hext].
        destruct ext as [|? [|? [|? [|? ?]]]]; simplify_eq/=.
      * apply (Hcut [ng; org] [nm; b'; org]) in Hsuf. destruct Hsuf as [ext Hext].
        destruct ext as [|? [|? [|? [|? ?]]]]; simplify_eq/=.
        congruence.
      * apply (Hcut [ng; org] [nm; nm; b'; org]) in Hsuf. destruct Hsuf as [ext Hext].
        destruct ext as [|? [|? [|? [|? [|? ?]]]]]; simplify_eq/=.
        congruence.
      * apply (Hcut [ng; b; org] [nm; org]) in Hsuf. destruct Hsuf as [ext Hext].
        destruct ext as [|? [|? [|? ?]]]; simplify_eq/=.
      * apply (Hcut [ng; b; org] [nm; nm; org]) in Hsuf. destruct Hsuf as [ext Hext].
        destruct ext as [|? [|? [|? [|? ?]]]]; simplify_eq/=.
      * apply (Hcut [ng; b; org] [nm; b'; org]) in Hsuf. destruct Hsuf as [ext Hext].
        destruct ext as [|? [|? [|? [|? ?]]]]; simplify_eq/=.
      * apply (Hcut [ng; b; org] [nm; nm; b'; org]) in Hsuf. destruct Hsuf as [ext Hext].
        destruct ext as [|? [|? [|? [|? [|? ?]]]]]; simplify_eq/=.
Qed.

Lemma moved_to_below root nm k :
  moved_to root nm k → root `suffix_of` k ∧ PurePath.name k = nm.
Proof.
  intros (d & Hd & Hk).
  assert (root `suffix_of` d) as Hroot
    by (destruct Hd as [->|(b & _ & ->)]; [done|by apply suffix_cons_r]).
  destruct Hk as [-> | ->]; (split; [|done]).
  - by apply suffix_cons_r.
  - by do 2 apply suffix_cons_r.
Qed.

Lemma move_file_os src dst w :
  os (move_file src dst w).2 =
    (move src dst (mkdir (PurePath.parent dst) (os w)).2).2.
Proof.
  rewrite move_file_run. simpl. rewrite create_folder_os.
  by destruct (move src dst _) as [[[]|e] s].
Qed.

(** What one turn of the loop does to the file system. *)
Lemma organize_one_os source crit g w r w1 :
  organize_one source crit g w = (r, w1) →
  match r with
  | Raise _ => os w1 = os w
  | Ok _ =>
      ∃ d, bucket_in (organized_root source crit) d ∧
        os w1 =
          (move g (d </> PurePath.name g)
             (mkdir (PurePath.parent (d </> PurePath.name g))
                (mkdir d (os w)).2).2).2
  end.
Proof.
  rewrite organize_one_run.
  destruct (dest_folder source crit g w) as [[d|e] w0] eqn:Hd;
    apply dest_folder_bucket in Hd as [Hos Hd]; intros [= <- <-]; [|done].
  exists d. split; [by apply Hd|].
  by rewrite move_file_os, create_folder_os, Hos.
Qed.

(** One turn of the loop leaves alone what is not in the way of its
    move. *)
Lemma organize_one_frame source crit ng w r w1 k n :
  excel ng = true →
  organize_one source crit (ng :: source) w = (r, w1) →
  ¬ (ng :: source) `suffix_of` k →
  (∀ d, bucket_in (organized_root source crit) d → ¬ (ng :: d) `suffix_of` k) →
  fs (os w) !! k = Some n → fs (os w1) !! k = Some n.
Proof.
  intros [Hne Hnd]%excel_proper Hrun Hsrc Hdst Hk.
  apply organize_one_os in Hrun. destruct r as [[]|e]; [|by rewrite Hrun].
  destruct Hrun as (d & Hd & ->). simpl.
  rewrite (joinpath_cons _ _ Hne Hnd). simpl.
  destruct (mkdir d (os w)) as [r1 s1] eqn:Hmk1. simpl.
  destruct (mkdir d s1) as [r2 s2] eqn:Hmk2. simpl.
  destruct (move (ng :: source) (ng :: d) s2) as [r3 s3] eqn:Hmv. simpl.
  apply (move_keeps_outside _ _ _ _ _ _ _ Hmv Hsrc); [by apply Hdst|].
  eapply mkdir_preserves; [done|]. by eapply mkdir_preserves.
Qed.

(** The turn of a regular file: it stays, or it is moved to a bucket. *)
Lemma organize_one_file source crit ng w r w1 i data :
  excel ng = true →
  organize_one source crit (ng :: source) w = (r, w1) →
  fs (os w) !! (ng :: source) = Some (File i data) →
  ∃ k, fs (os w1) !! k = Some (File i data) ∧
       (k = ng :: source ∨ moved_to (organized_root source crit) ng k).
Proof.
  intros [Hne Hnd]%excel_proper Hrun Hfile.
  apply organize_one_os in Hrun. destruct r as [[]|e].
  2:{ exists (ng :: source). rewrite Hrun. auto. }
  destruct Hrun as (d & Hd & ->). simpl.
  rewrite (joinpath_cons _ _ Hne Hnd). simpl.
  destruct (mkdir d (os w)) as [r1 s1] eqn:Hmk1. simpl.
  destruct (mkdir d s1) as [r2 s2] eqn:Hmk2. simpl.
  assert (fs s2 !! (ng :: source) = Some (File i data)) as Hfile2.
  { eapply mkdir_preserves; [done|]. by eapply mkdir_preserves. }
  destruct (move (ng :: source) (ng :: d) s2) as [[[]|e] s3] eqn:Hmv; simpl.
  - destruct (move_file_lands _ _ _ _ _ _ Hfile2 Hmv) as (rd & Hrd & Hthere).
    exists rd. split; [done|]. right. exists d. split; [done|].
    simpl in Hrd. rewrite (joinpath_cons _ _ Hne Hnd) in Hrd. done.
  - exists (ng :: source). split; [|by left].
    by apply (move_file_source _ _ _ _ _ _ _ Hfile2) in Hmv.
Qed.

Lemma organize_loop_keeps source crit nm i data files :
  ∀ w r w',
  NoDup files →
  (∀ g, g ∈ files → ∃ ng, g = ng :: source ∧ excel ng = true) →
  (nm :: source ∈ files → fs (os w) !! (nm :: source) = Some (File i data)) →
  (∃ k, fs (os w) !! k = Some (File i data) ∧
        (k = nm :: source ∨ moved_to (organized_root source crit) nm k)) →
  for_each files (organize_one source crit) w = (r, w') →
  ∃ k, fs (os w') !! k = Some (File i data) ∧
       (k = nm :: source ∨ moved_to (organized_root source crit) nm k).
Proof.
  induction files as [|g files IH]; intros w r w' Hnodup Hfiles Hhere Hsome.
  - by intros [= <- <-].
  - simpl. run.
    apply NoDup_cons in Hnodup as [Hfresh Hnodup].
    destruct (Hfiles g) as (ng & -> & Hng); [left|].
    assert (∀ g', g' ∈ files → ∃ ng', g' = ng' :: source ∧ excel ng' = true)
      as Hfiles' by (intros g' Hg'; apply Hfiles; by right).
    destruct (organize_one source crit (ng :: source) w) as [r1 w1] eqn:Hone.
    assert (∃ k, fs (os w1) !! k = Some (File i data) ∧
                 (k = nm :: source ∨ moved_to (organized_root source crit) nm k))
      as Hsome1.
    { destruct (decide (ng = nm)) as [->|Hne].
      - eapply organize_one_file; [done|done|]. apply Hhere. left.
      - destruct Hsome as (k & Hk & Hwhere). exists k. split; [|done].
        eapply organize_one_frame; [done|done| | |done].
        + by eapply (moved_to_apart source crit nm ng (organized_root source crit));
            [| |left|].
        + intros d Hd. by eapply (moved_to_apart source crit nm ng d). }
    destruct r1 as [[]|e]; [|by intros [= <- <-]].
    apply IH; [done|done| |done].
    intros Hin. destruct (decide (ng = nm)) as [->|Hne]; [done|].
    eapply organize_one_frame; [done|done| | |].
    + by eapply (moved_to_apart source crit nm ng (organized_root source crit));
        [| |left|left].
    + intros d Hd. by eapply (moved_to_apart source crit nm ng d); [| | |left].
    + apply Hhere. by right.
Qed.

(** X21. [organize_excel_files] loses no file of the source folder.  A
    regular file that is directly inside the source folder is there
    afterwards with its name, its content and its metadata: where it was,
    or somewhere below the folder of the criterion, [organized_by_...] in
    the source folder.  This holds whatever the function returns, and for
    the files that were not to be organized as well. *)
Theorem organize_keeps_files source (organize_by : string) w (b : bool) w'
    (nm : string) (i : inode) (data : N) :
  fs (os w) !! (nm :: source) = Some (File i data) →
  organize_excel_files source organize_by w = (Ok b, w') →
  ∃ k, fs (os w') !! k = Some (File i data) ∧
       PurePath.name k = nm ∧
       (k = nm :: source ∨ organized_root source organize_by `suffix_of` k).
Proof.
  intros Hfile. rewrite organize_excel_files_run.
  destruct (list_files source (Some ".xlsx") w) as [xs w1] eqn:Hxs.
  destruct (list_files source (Some ".xls") w1) as [ys w2] eqn:Hys.
  assert (∀ s k, fs s !! k = Some (File i data) ∧
               (k = nm :: source ∨ moved_to (organized_root source organize_by) nm k) →
               ∃ k, fs s !! k = Some (File i data) ∧ PurePath.name k = nm ∧
               (k = nm :: source ∨ organized_root source organize_by `suffix_of` k))
    as Hdone.
  { intros s k [Hk [->|[? ?]%moved_to_below]]; eauto 6. }
  destruct xs as [xs|e]; [|intros [= <- <-]; eapply Hdone; eauto].
  destruct ys as [ys|e]; [|intros [= <- <-]; eapply Hdone; eauto].
  apply list_files_excel in Hxs as (Hos1 & Hnodup1 & Hxs); [|by left].
  apply list_files_excel in Hys as (Hos2 & Hnodup2 & Hys); [|by right].
  destruct (for_each (xs ++ ys) (organize_one source organize_by) w2)
    as [r w3] eqn:Hloop.
  apply (organize_loop_keeps source organize_by nm i data) in Hloop
    as (k & Hk & Hwhere).
  - destruct r as [[]|e]; intros [= <- <-]; eapply Hdone; eauto.
  - apply NoDup_app. split; [done|]. split; [|done].
    intros g [Hx _]%Hxs [Hs _]%Hys. by eapply excel_once.
  - intros g [[Hx (ng & ->)]%Hxs | [Hs (ng & ->)]%Hys]%elem_of_app;
      exists ng; (split; [done|]); unfold excel; simpl in *.
    + by rewrite Hx.
    + rewrite Hs. apply orb_true_r.
  - intros _. by rewrite Hos2, Hos1.
  - exists (nm :: source). rewrite Hos2, Hos1. auto.
Qed.

End OrganizeKeepsFiles.

Section ByExtension.
Import Posix PosixProps.
Implicit Types (s : state) (w : @world state) (m : gmap path node).

(** X22. With an extension that holds no wildcard, [list_files] on a
    directory that may be read returns the entries directly inside it whose
    names end with the extension, all of them and nothing else, whatever
    kind of entry they are.  The file system is not changed. *)
Theorem list_files_by_extension (folder : path) (ext : string) w
    (i : inode) (dev : N) :
  os_stat (fs (os w)) folder = Ok (Dir i dev) →
  m_r (i_mode i) = true →
  literal ext = true → ext ≠ "" →
  ∃ l,
    list_files folder (Some ext) w =
      (Ok l, World (os w) (log w ++ [FoundFiles (length l) folder])) ∧
    ∀ k, k ∈ l ↔
         ∃ c n, k = c :: folder ∧ fs (os w) !! k = Some n ∧
                ∃ pre, c = pre +:+ ext.
Proof.
  intros Hst Hr Hlit Hne. destruct ext as [|c0 ext]; [done|].
  rewrite list_files_extension. unfold glob, is_dir, os_scandir.
  rewrite Hst, Hr. eexists. split; [reflexivity|].
  intros k. rewrite list_elem_of_filter, children_spec. split.
  - intros (Hmatch & [n Hk] & Hnil & Htail).
    destruct k as [|c k]; [done|]. simpl in Htail. subst k.
    exists c, n. split; [done|]. split; [done|].
    by apply fnmatch_star_ends in Hmatch.
  - intros (c & n & -> & Hk & pre & ->). split.
    + by apply fnmatch_star_ends_conv.
    + eauto.
Qed.

End ByExtension.

(** * The further properties at concrete inputs *)

Lemma organize_unknown_criterion_is_name_witness :
  organize_excel_files Sample.proj "Size" Sample.project =
  organize_excel_files Sample.proj "name" Sample.project.
Proof.
  apply (organize_unknown_criterion_is_name Sample.proj "Size" Sample.project);
    discriminate.
Defined.

Lemma create_folder_keeps_entries_witness :
  let p := Sample.P ["proj"; "data"; "raw"] in
  let w' := snd (create_folder p Sample.project) in
  PosixProps.keeps (Posix.fs (os Sample.project)) (Posix.fs (os w')).
Proof.
  intros p w'. apply (create_folder_keeps_entries p Sample.project true w').
  vm_compute. reflexivity.
Defined.

Lemma create_folder_makes_ancestors_witness :
  let p := Sample.P ["proj"; "data"; "raw"] in
  let w' := snd (create_folder p Sample.project) in
  ∃ i dev, Posix.os_stat (Posix.fs (os w')) (Sample.P ["proj"; "data"])
           = Ok (Posix.Dir i dev).
Proof.
  intros p w'.
  apply (create_folder_makes_ancestors p Sample.project w' (Sample.P ["proj"; "data"])).
  - vm_compute. reflexivity.
  - exists ["raw"]. reflexivity.
Defined.



Lemma create_project_structure_creates_all_witness :
  let w' := snd (create_project_structure Sample.handler ["data/raw"; "reports"]
                   Sample.project) in
  Sample.proj `suffix_of` Sample.P ["proj"; "data"; "raw"] ∧
  ∃ i dev, Posix.os_stat (Posix.fs (os w')) (Sample.P ["proj"; "data"; "raw"])
           = Ok (Posix.Dir i dev).
Proof.
  intros w'.
  destruct (create_project_structure_creates_all Sample.handler
              ["data/raw"; "reports"] Sample.project w') as [_ Hall].
  - vm_compute. reflexivity.
  - destruct (Hall "data/raw") as (Hbelow & i & dev & Hst);
      [left|reflexivity|].
    split; [exact Hbelow|]. exists i, dev. exact Hst.
Defined.

Lemma copy_file_copies_witness :
  let src := Sample.P ["proj"; "a.xlsx"] in
  let dst := Sample.P ["proj"; "copies"; "a.xlsx"] in
  let w' := snd (copy_file src dst Sample.project) in
  Posix.fs (os w') !! src = Some (Sample.regular 2048 1704103200 11) ∧
  ∃ rd, (rd = dst ∨ rd = dst </> PurePath.name src) ∧ rd ≠ src ∧
        Posix.fs (os w') !! rd = Some (Sample.regular 2048 1704103200 11).
Proof.
  intros src dst w'.
  destruct (copy_file_copies src dst Sample.project
              {| Posix.i_mode := Posix.rw_; Posix.i_size := 2048;
                 Posix.i_mtime := 1704103200 |} 11%N true w')
    as (Hsrc & Hdst & _).
  - vm_compute. reflexivity.
  - vm_compute. reflexivity.
  - vm_compute. reflexivity.
  - split; [exact Hsrc|]. apply Hdst. reflexivity.
Defined.

Lemma copy_file_onto_itself_witness :
  let p := Sample.P ["proj"; "a.xlsx"] in
  ∃ ev, copy_file p p Sample.project =
          (Ok false,
           World (os Sample.project)
             (log Sample.project ++ [ev; ErrCopyingFile p p SameFileError])).
Proof.
  intros p.
  apply (copy_file_onto_itself p Sample.project
           {| Posix.i_mode := Posix.rw_; Posix.i_size := 2048;
              Posix.i_mtime := 1704103200 |} 11%N).
  vm_compute. reflexivity.
Defined.

Lemma move_file_onto_itself_witness :
  let p := Sample.P ["proj"; "a.xlsx"] in
  ∃ ev, move_file p p Sample.project =
          (Ok true,
           World (os Sample.project) (log Sample.project ++ [ev; FileMoved p p])).
Proof.
  intros p.
  apply (move_file_onto_itself p Sample.project
           {| Posix.i_mode := Posix.rw_; Posix.i_size := 2048;
              Posix.i_mtime := 1704103200 |} 11%N).
  vm_compute. reflexivity.
Defined.

Lemma delete_file_removes_witness :
  let p := Sample.P ["proj"; "a.xlsx"] in
  let w' := snd (delete_file p Sample.project) in
  Posix.fs (os w') !! p = None ∧
  fst (delete_file p w') = Ok false.
Proof.
  intros p w'.
  destruct (delete_file_removes p Sample.project true w') as (Htrue & _ & _).
  - vm_compute. reflexivity.
  - vm_compute. reflexivity.
  - destruct (Htrue eq_refl) as (_ & Hgone & _ & _ & Hagain).
    split; [exact Hgone|exact Hagain].
Defined.

Lemma backup_keeps_source_witness :
  let src := Sample.P ["proj"; "a.xlsx"] in
  let w' := snd (backup_excel_file Sample.handler src None Sample.project) in
  Posix.fs (os w') !! src = Some (Sample.regular 2048 1704103200 11) ∧
  ∃ rd, rd ≠ src ∧
        Posix.fs (os w') !! rd = Some (Sample.regular 2048 1704103200 11).
Proof.
  intros src w'.
  destruct (backup_keeps_source Sample.handler src None Sample.project
              {| Posix.i_mode := Posix.rw_; Posix.i_size := 2048;
                 Posix.i_mtime := 1704103200 |} 11%N
              "proj/backups/a_backup_20240315_100000.xlsx" w')
    as (Hsrc & Hcopy).
  - vm_compute. reflexivity.
  - vm_compute. reflexivity.
  - split; [exact Hsrc|].
    destruct (Hcopy (Sample.P ["proj"; "backups"; "a_backup_20240315_100000.xlsx"]))
      as (rd & _ & Hne & Hrd); [vm_compute; reflexivity|].
    exists rd. split; [exact Hne|exact Hrd].
Defined.

Lemma delete_folder_removes_only_the_tree_witness :
  let p := Sample.P ["proj"; "archive.xlsx"] in
  let w' := snd (delete_folder p Sample.project) in
  Posix.fs (os w') !! p = None ∧
  ∃ n', Posix.fs (os w') !! Sample.P ["proj"; "a.xlsx"] = Some n' ∧
        PosixProps.preserved (Sample.regular 2048 1704103200 11) n'.
Proof.
  intros p w'.
  destruct (delete_folder_removes_only_the_tree p Sample.project true w')
    as (_ & Hout & Hgone & _).
  - vm_compute. reflexivity.
  - vm_compute. reflexivity.
  - split; [apply Hgone; reflexivity|]. apply Hout.
    + clear. intros Hsuf. apply (bool_decide_pack _) in Hsuf.
      vm_compute in Hsuf. exact Hsuf.
    + vm_compute. reflexivity.
Defined.

Lemma copy_folder_keeps_entries_witness :
  let src := Sample.proj in
  let dst := Sample.P ["mirror"] in
  let w' := snd (copy_folder src dst Sample.project) in
  (∃ i dev, Posix.fs (os w') !! dst = Some (Posix.Dir i dev)) ∧
  ∃ n', Posix.fs (os w') !! Sample.P ["proj"; "a.xlsx"] = Some n' ∧
        PosixProps.preserved (Sample.regular 2048 1704103200 11) n'.
Proof.
  intros src dst w'.
  destruct (copy_folder_keeps_entries src dst Sample.project true w')
    as (_ & Hout & Hdir & _).
  - vm_compute. reflexivity.
  - vm_compute. reflexivity.
  - vm_compute. reflexivity.
  - split; [apply Hdir; reflexivity|]. apply Hout.
    + clear. intros Hsuf. apply (bool_decide_pack _) in Hsuf.
      vm_compute in Hsuf. exact Hsuf.
    + vm_compute. reflexivity.
Defined.


Lemma list_files_no_extension_witness :
  let l := filter (λ k, PosixProps.is_regular (Posix.fs (os Sample.project)) k = true)
             (Posix.children (Posix.fs (os Sample.project)) Sample.proj) in
  list_files Sample.proj None Sample.project =
    (Ok l, World (os Sample.project)
             (log Sample.project ++ [FoundFiles (length l) Sample.proj])).
Proof.
  apply (list_files_no_extension Sample.proj None Sample.project
           {| Posix.i_mode := Posix.rwx; Posix.i_size := 4096;
              Posix.i_mtime := 1704103200 |} 0%N).
  - by left.
  - vm_compute. reflexivity.
  - reflexivity.
  - reflexivity.
Defined.



Lemma copy_file_missing_source_witness :
  let src := Sample.P ["proj"; "missing.xlsx"] in
  let dst := Sample.P ["proj"; "new"; "missing.xlsx"] in
  let w1 := snd (create_folder (PurePath.parent dst) Sample.project) in
  ∃ e, copy_file src dst Sample.project =
         (Ok false, World (os w1) (log w1 ++ [ErrCopyingFile src dst e])).
Proof.
  intros src dst.
  apply (copy_file_missing_source src dst Sample.project);
    vm_compute; reflexivity.
Defined.

Lemma organize_keeps_files_witness :
  let w' := snd (organize_excel_files Sample.proj "size" Sample.project) in
  ∃ k, Posix.fs (os w') !! k = Some (Sample.regular 2048 1704103200 11) ∧
       PurePath.name k = "a.xlsx" ∧
       (k = "a.xlsx" :: Sample.proj ∨
        PosixProps.organized_root Sample.proj "size" `suffix_of` k).
Proof.
  intros w'.
  apply (organize_keeps_files Sample.proj "size" Sample.project true w' "a.xlsx"
           {| Posix.i_mode := Posix.rw_; Posix.i_size := 2048;
              Posix.i_mtime := 1704103200 |} 11%N).
  - vm_compute. reflexivity.
  - vm_compute. reflexivity.
Defined.

Lemma list_files_by_extension_witness :
  ∃ l,
    list_files Sample.proj (Some ".xlsx") Sample.project =
      (Ok l, World (os Sample.project)
               (log Sample.project ++ [FoundFiles (length l) Sample.proj])) ∧
    ∀ k, k ∈ l ↔
         ∃ c n, k = c :: Sample.proj ∧ Posix.fs (os Sample.project) !! k = Some n ∧
                ∃ pre, c = pre +:+ ".xlsx".
Proof.
  apply (list_files_by_extension Sample.proj ".xlsx" Sample.project
           {| Posix.i_mode := Posix.rwx; Posix.i_size := 4096;
              Posix.i_mtime := 1704103200 |} 0%N).
  - vm_compute. reflexivity.
  - reflexivity.
  - reflexivity.
  - discriminate.
Defined.
